(** * diamant: dependency resolution, manifest access and reconciliation

    A shallow embedding of the command-line tool's core:
    - [utils/registry.ts]: the component table, [resolveComponentDependencies]
      and [getNpmDependencies];
    - [utils/config.ts]: the manifest helpers ([readConfig], [writeConfig],
      [addInstalledComponent], [removeInstalledComponent]);
    - [utils/fs.ts]: the file primitives;
    - [commands/add.ts], [commands/remove.ts], [commands/update.ts],
      [commands/diff.ts] and [commands/list.ts].

    Conventions.
    - A JavaScript string whose code units are all below 256 is the
      [string] of those code units; case mapping, white space and the
      default sort order are the ones JavaScript has on that range.
    - The registry is a [Record<string, ComponentDefinition>], a plain
      object: [lookup] reads [registry[key]] among its own keys, kept in
      insertion order.  For a key that the object only inherits from
      [Object.prototype] ([constructor] and [__proto__] are the ones a
      lower-cased name can hit) JavaScript gives an inherited value, on which
      the program raises a [TypeError]; [property], [resolve_turn] and
      [resolveOutcome] describe that for the resolver.  The commands and the
      functions built on [lookup] describe the program on requests without
      such names, and the statements about requests say so ([plainNames],
      [plainDependencies]).
    - [path_join] is [path.join] on a directory in normal form, which is
      what [normalPath] tells; a statement that depends on where a file is
      looked for carries it as a hypothesis.
    - [detectProjectType] is taken to answer: [package.json], when there is
      one, parses.
    - A manifest that parses holds a document of the shape [DiamantConfig].
    - Asynchronous calls are awaited one after the other, so every command is
      a sequential program over a [World]. *)

From Stdlib Require Import List String Ascii Bool Arith NArith Lia Permutation Sorted.
Import ListNotations.
Open Scope string_scope.
Open Scope list_scope.
Open Scope nat_scope.

(* ===================================================================== *)
(** ** Strings *)

(** Code units that [String.prototype.toLowerCase] changes below 256:
    A-Z, and the Latin-1 capitals U+00C0..U+00DE except the sign U+00D7. *)
Definition isUpper (n : nat) : bool :=
  ((65 <=? n) && (n <=? 90))
  || ((192 <=? n) && (n <=? 222) && negb (n =? 215)).

Definition lowerChar (c : ascii) : ascii :=
  let n := nat_of_ascii c in
  if isUpper n then ascii_of_nat (n + 32) else c.

Fixpoint toLowerCase (s : string) : string :=
  match s with
  | EmptyString => EmptyString
  | String c r => String (lowerChar c) (toLowerCase r)
  end.

(* ===================================================================== *)
(** ** utils/registry.ts *)

Record ComponentDefinition := mkComponent {
  name : string;
  description : string;
  dependencies : list string;
  internalDependencies : list string;
  files : list string
}.

(** The object literal, as its entries in insertion order. *)
Definition Registry := list (string * ComponentDefinition).

(** [reg[key]]: the value of the own property [key], if any. *)
Fixpoint lookup (reg : Registry) (key : string) : option ComponentDefinition :=
  match reg with
  | [] => None
  | (k, def) :: rest => if String.eqb k key then Some def else lookup rest key
  end.

Definition registry : Registry :=
  [ ("accordion",
     mkComponent "Accordion"
       "A vertically stacked set of interactive headings that reveal content"
       ["lucide-react"] [] ["Accordion.tsx"]);
    ("alert",
     mkComponent "Alert" "Displays a callout for user attention"
       ["lucide-react"] [] ["Alert.tsx"]);
    ("alertdialog",
     mkComponent "AlertDialog"
       "A modal dialog that interrupts the user with important content"
       ["lucide-react"] ["button"] ["AlertDialog.tsx"]);
    ("avatar",
     mkComponent "Avatar" "An image element with a fallback for user profiles"
       [] [] ["Avatar.tsx"]);
    ("badge",
     mkComponent "Badge" "Displays a small badge or tag" [] [] ["Badge.tsx"]);
    ("button",
     mkComponent "Button"
       "A clickable button with multiple variants and ripple effect"
       [] [] ["Button.tsx"]);
    ("card",
     mkComponent "Card"
       "A container for content with header, body, and footer sections"
       [] [] ["Card.tsx"]);
    ("carousel",
     mkComponent "Carousel" "A slideshow component for cycling through elements"
       ["lucide-react"] ["button"] ["Carousel.tsx"]);
    ("checkbox",
     mkComponent "Checkbox"
       "A control that allows the user to toggle between checked and unchecked"
       ["lucide-react"] [] ["Checkbox.tsx"]);
    ("dialog",
     mkComponent "Dialog" "A modal dialog for displaying content"
       ["lucide-react"] [] ["Dialog.tsx"]);
    ("dropdown",
     mkComponent "Dropdown" "A menu that appears on click or hover"
       ["lucide-react"] [] ["Dropdown.tsx"]);
    ("fontprovider",
     mkComponent "FontProvider"
       "Provider for managing fonts across your application"
       [] [] ["FontProvider.tsx"]);
    ("input",
     mkComponent "Input" "A text input field with multiple variants"
       [] [] ["Input.tsx"]);
    ("label",
     mkComponent "Label" "A label for form elements" [] [] ["Label.tsx"]);
    ("notification",
     mkComponent "Notification"
       "Toast-style notifications that appear at screen corners"
       ["lucide-react"] [] ["Notification.tsx"]);
    ("progress",
     mkComponent "Progress"
       "Displays an indicator showing the completion progress of a task"
       [] [] ["Progress.tsx"]);
    ("radio",
     mkComponent "Radio"
       "A set of checkable buttons where only one can be selected at a time"
       [] [] ["Radio.tsx"]);
    ("select",
     mkComponent "Select" "A dropdown for selecting from a list of options"
       ["lucide-react"] [] ["Select.tsx"]);
    ("separator",
     mkComponent "Separator" "A visual divider between content"
       [] [] ["Separator.tsx"]);
    ("sheet",
     mkComponent "Sheet" "A panel that slides in from the edge of the screen"
       ["lucide-react"] [] ["Sheet.tsx"]);
    ("skeleton",
     mkComponent "Skeleton" "A placeholder for content that is loading"
       [] [] ["Skeleton.tsx"]);
    ("slider",
     mkComponent "Slider" "An input for selecting a value from a range"
       [] [] ["Slider.tsx"]);
    ("switch",
     mkComponent "Switch" "A toggle switch for boolean values"
       [] [] ["Switch.tsx"]);
    ("tabs",
     mkComponent "Tabs" "A set of layered sections of content"
       [] [] ["Tabs.tsx"]);
    ("textarea",
     mkComponent "Textarea" "A multi-line text input field"
       [] [] ["Textarea.tsx"]);
    ("toggle",
     mkComponent "Toggle" "A two-state button that can be on or off"
       [] [] ["Toggle.tsx"]);
    ("tooltip",
     mkComponent "Tooltip"
       "A popup that displays information related to an element"
       [] [] ["Tooltip.tsx"]) ].

(** [Object.keys(reg)]. *)
Definition getAllComponentNames (reg : Registry) : list string := map fst reg.

(** A [Set<string>], as its elements in insertion order
    ([Array.from] lists them in that order). *)
Definition has (s : list string) (x : string) : bool :=
  existsb (String.eqb x) s.

Definition add_elem (s : list string) (x : string) : list string :=
  if has s x then s else s ++ [x].

(** The variables of the loop of [resolveComponentDependencies].
    [toProcess] is used as a stack ([pop] and [push] act on the array's end):
    the head of the list is the last element of the array.  [warned] collects
    the lines given to [console.warn], oldest first. *)
Record ResolveState := mkResolve {
  resolved : list string;
  toProcess : list string;
  warned : list string
}.

(** [for (const dep of deps) if (!resolved.has(dep)) toProcess.push(dep)] *)
Definition pushDependencies (res : list string) (deps stack : list string)
  : list string :=
  fold_left (fun stk dep => if has res dep then stk else dep :: stk) deps stack.

(** One iteration of [while (toProcess.length > 0)]; [None] when the test
    fails and the loop is left. *)
Definition resolve_step (reg : Registry) (st : ResolveState)
  : option ResolveState :=
  match toProcess st with
  | [] => None
  | nm :: rest =>
      let normalizedName := toLowerCase nm in
      if has (resolved st) normalizedName then
        Some (mkResolve (resolved st) rest (warned st))
      else
        match lookup reg normalizedName with
        | None =>
            Some (mkResolve (resolved st) rest
                    (warned st ++ [("Unknown component: " ++ nm)%string]))
        | Some component =>
            let resolved' := add_elem (resolved st) normalizedName in
            Some (mkResolve resolved'
                    (pushDependencies resolved'
                       (internalDependencies component) rest)
                    (warned st))
        end
  end.

(** The loop, run for at most [fuel] tests of its condition. *)
Fixpoint resolve_loop (fuel : nat) (reg : Registry) (st : ResolveState)
  : option ResolveState :=
  match fuel with
  | O => None
  | S fuel' =>
      match resolve_step reg st with
      | None => Some st
      | Some st' => resolve_loop fuel' reg st'
      end
  end.

(** [const toProcess = [...componentNames]] *)
Definition resolve_init (componentNames : list string) : ResolveState :=
  mkResolve [] (rev componentNames) [].

(** What the entries not yet visited can still cost: one pop for the entry
    and one for each dependency it may push. *)
Fixpoint unvisited_cost (reg : Registry) (all : Registry) (res : list string)
  : nat :=
  match all with
  | [] => 0
  | (k, def) :: rest =>
      (if has res k then 0
       else match lookup reg k with
            | Some d => S (List.length (internalDependencies d))
            | None => 0
            end)
      + unvisited_cost reg rest res
  end.

Definition resolve_measure (reg : Registry) (st : ResolveState) : nat :=
  List.length (toProcess st) + unvisited_cost reg reg (resolved st).

Definition resolve_fuel (reg : Registry) (componentNames : list string) : nat :=
  S (resolve_measure reg (resolve_init componentNames)).

Definition resolve_run (reg : Registry) (componentNames : list string)
  : option ResolveState :=
  resolve_loop (resolve_fuel reg componentNames) reg
    (resolve_init componentNames).

(** [resolveComponentDependencies(componentNames)]: [Array.from(resolved)]. *)
Definition resolveComponentDependencies (reg : Registry)
  (componentNames : list string) : list string :=
  match resolve_run reg componentNames with
  | Some st => resolved st
  | None => []
  end.

(** The lines [resolveComponentDependencies] gives to [console.warn]. *)
Definition resolveWarnings (reg : Registry) (componentNames : list string)
  : list string :=
  match resolve_run reg componentNames with
  | Some st => warned st
  | None => []
  end.

Definition getNpmDependencies (reg : Registry) (componentNames : list string)
  : list string :=
  fold_left
    (fun deps nm =>
       match lookup reg (toLowerCase nm) with
       | Some component => fold_left add_elem (dependencies component) deps
       | None => deps
       end)
    componentNames [].

(** *** Names that the registry inherits *)

(** The property names every object has from [Object.prototype]. *)
Definition inheritedKey (key : string) : bool :=
  has ["constructor"; "__proto__"; "__defineGetter__"; "__defineSetter__";
       "__lookupGetter__"; "__lookupSetter__"; "hasOwnProperty";
       "isPrototypeOf"; "propertyIsEnumerable"; "toLocaleString"; "toString";
       "valueOf"] key.

(** What [reg[key]] evaluates to: the own property, else the inherited
    function or object, which is truthy and has no [internalDependencies],
    [dependencies] or [files], else [undefined]. *)
Inductive Property :=
| Own (component : ComponentDefinition)
| Inherited
| Undefined.

Definition property (reg : Registry) (key : string) : Property :=
  match lookup reg key with
  | Some component => Own component
  | None => if inheritedKey key then Inherited else Undefined
  end.

(** No name lower-cases to an inherited property name. *)
Definition plainNames (names : list string) : bool :=
  forallb (fun nm => negb (inheritedKey (toLowerCase nm))) names.

(** No entry lists such a name among its [internalDependencies]. *)
Definition plainDependencies (reg : Registry) : bool :=
  forallb (fun e => plainNames (internalDependencies (snd e))) reg.

(** One iteration of the loop of [resolveComponentDependencies], inherited
    names included: for an inherited [component] the test [!component]
    fails, the name is added, and
    [for (const dep of component.internalDependencies)] raises a
    [TypeError], [undefined] not being iterable. *)
Inductive Turn :=
| LoopLeft
| Turned (st : ResolveState)
| TypeError.

Definition resolve_turn (reg : Registry) (st : ResolveState) : Turn :=
  match toProcess st with
  | [] => LoopLeft
  | nm :: rest =>
      let normalizedName := toLowerCase nm in
      if has (resolved st) normalizedName then
        Turned (mkResolve (resolved st) rest (warned st))
      else
        match property reg normalizedName with
        | Undefined =>
            Turned (mkResolve (resolved st) rest
                      (warned st ++ [("Unknown component: " ++ nm)%string]))
        | Own component =>
            let resolved' := add_elem (resolved st) normalizedName in
            Turned (mkResolve resolved'
                      (pushDependencies resolved'
                         (internalDependencies component) rest)
                      (warned st))
        | Inherited => TypeError
        end
  end.

(** How a call of [resolveComponentDependencies] ends: with its result, or
    with the [TypeError]; either way after the given lines of
    [console.warn]. *)
Inductive Outcome :=
| Returned (result warnings : list string)
| Raised (warnings : list string).

Fixpoint resolve_turns (fuel : nat) (reg : Registry) (st : ResolveState)
  : option Outcome :=
  match fuel with
  | O => None
  | S fuel' =>
      match resolve_turn reg st with
      | LoopLeft => Some (Returned (resolved st) (warned st))
      | Turned st' => resolve_turns fuel' reg st'
      | TypeError => Some (Raised (warned st))
      end
  end.

(** [getNpmDependencies(componentNames)], as a call that returns or raises:
    an inherited [component] passes [if (component)], and
    [for (const dep of component.dependencies)] raises the [TypeError];
    [None] stands for it. *)
Definition getNpmDependenciesOutcome (reg : Registry)
  (componentNames : list string) : option (list string) :=
  fold_left
    (fun outcome nm =>
       match outcome with
       | None => None
       | Some deps =>
           match property reg (toLowerCase nm) with
           | Own component =>
               Some (fold_left add_elem (dependencies component) deps)
           | Undefined => Some deps
           | Inherited => None
           end
       end)
    componentNames (Some []).

(** [resolveComponentDependencies(componentNames)], as a call that returns
    or raises. *)
Definition resolveOutcome (reg : Registry) (componentNames : list string)
  : option Outcome :=
  resolve_turns (resolve_fuel reg componentNames) reg
    (resolve_init componentNames).

(* ===================================================================== *)
(** ** The world a command runs in *)

(** [diamant.json], typed as [DiamantConfig]. *)
Record DiamantConfig := mkConfig {
  typescript : bool;
  tailwind_config : string;
  tailwind_css : string;
  aliases_components : string;
  aliases_utils : string;
  installedComponents : list string
}.

(** The manifest file as [readConfig] can find it. *)
Inductive ManifestFile :=
| Absent
| Unparseable
| Parsed (config : DiamantConfig).

Inductive ProjectType := cra | nextjs | vite | unknown.

(** What a command prints, one constructor for each message of the source;
    component lists hold the strings as they are printed. *)
Inductive Msg :=
| NotInitialized
| FailedToReadConfig
| Warned (line : string)
(* add *)
| NoComponentsSelected
| AlreadyExist (names : list string)
| NoNewComponents
| AllAlreadyInstalled
| Adding (lines : list (bool * string * bool))
| InstalledDeps (deps : list string)
| ManualInstallNeeded
| FailedToCopy (file : string)
| AddedSuccessfully (count : nat)
(* remove *)
| UnknownComponents (names : list string)
| NoValidComponents
| NoneInstalled
| DependOnRemoved (names : list string)
| WillBeRemoved (names : list string)
| RemovalCancelled
| Removed (count : nat)
(* update *)
| NoComponentsToUpdate
| AllUpToDate
| UpdatesAvailable (names : list string)
| UpdateCancelled
| Updated (count : nat)
(* diff *)
| UnknownComponent (component : string)
| NotInstalled (display id : string)
| UpToDate (display : string)
| DiffFor (display : string) (lines : list (bool * string))
| ErrorReadingFiles
| NoComponentsInstalled
| StatusHeader
| StatusMissing (display : string)
| StatusUpToDate (display : string)
| StatusModified (display : string) (additions deletions : nat)
| StatusErrorReading (display : string)
| RunDiffHint.

(** Paths are relative to the working directory.  [disk] holds every file
    but the manifest; [readOnly] lists the paths on which [fs.writeFile]
    rejects; [configWrites] records the documents [writeConfig] wrote and
    [console] what was printed, both oldest first.  [projectType] is what
    [detectProjectType] answers.  Writing [diamant.json] succeeds. *)
Record World := mkWorld {
  manifest : ManifestFile;
  disk : list (string * string);
  readOnly : list string;
  projectType : ProjectType;
  configWrites : list DiamantConfig;
  console : list Msg
}.

(** How a computation ends: normally, by an exception, or by
    [process.exit]. *)
Inductive Result (A : Type) :=
| Ok (a : A)
| Throw
| Exit (code : nat).
Arguments Ok {A} a.
Arguments Throw {A}.
Arguments Exit {A} code.

Definition M (A : Type) : Type := World -> Result A * World.

Definition ret {A} (a : A) : M A := fun w => (Ok a, w).

Definition bind {A B} (m : M A) (k : A -> M B) : M B :=
  fun w =>
    match m w with
    | (Ok a, w') => k a w'
    | (Throw, w') => (Throw, w')
    | (Exit c, w') => (Exit c, w')
    end.

Declare Scope cmd_scope.
Delimit Scope cmd_scope with cmd.
Notation "x <- c1 ;; c2" := (bind c1 (fun x => c2))
  (at level 61, c1 at next level, right associativity) : cmd_scope.
Notation "c1 ;; c2" := (bind c1 (fun _ => c2))
  (at level 61, right associativity) : cmd_scope.
Open Scope cmd_scope.

Definition throw {A} : M A := fun w => (Throw, w).

(** [process.exit(code)] *)
Definition exit {A} (code : nat) : M A := fun w => (Exit code, w).

(** [try { body } catch { handler }]: only exceptions are caught. *)
Definition try_catch {A} (body handler : M A) : M A :=
  fun w =>
    match body w with
    | (Throw, w') => handler w'
    | r => r
    end.

Definition print (m : Msg) : M unit :=
  fun w => (Ok tt,
            mkWorld (manifest w) (disk w) (readOnly w) (projectType w)
              (configWrites w) (console w ++ [m])).

(** [for (const x of xs) body] *)
Fixpoint forEach {A} (xs : list A) (body : A -> M unit) : M unit :=
  match xs with
  | [] => ret tt
  | x :: rest => body x ;; forEach rest body
  end.

(** A loop that also updates local variables, kept in [acc]. *)
Fixpoint forEachAcc {A S} (xs : list A) (acc : S) (body : S -> A -> M S)
  : M S :=
  match xs with
  | [] => ret acc
  | x :: rest => acc' <- body acc x ;; forEachAcc rest acc' body
  end.

Definition when (b : bool) (m : M unit) : M unit := if b then m else ret tt.

(* ===================================================================== *)
(** ** utils/fs.ts *)

(** [path.join(dir, file)], for a [dir] that [path.join] has nothing to
    normalise in and a plain file name. *)
Definition path_join (dir file : string) : string :=
  (dir ++ "/" ++ file)%string.

Fixpoint disk_find (d : list (string * string)) (p : string) : option string :=
  match d with
  | [] => None
  | (q, c) :: rest => if String.eqb q p then Some c else disk_find rest p
  end.

Definition disk_remove (d : list (string * string)) (p : string)
  : list (string * string) :=
  filter (fun e => negb (String.eqb (fst e) p)) d.

Definition disk_write (d : list (string * string)) (p content : string)
  : list (string * string) :=
  disk_remove d p ++ [(p, content)].

Definition set_disk (w : World) (d : list (string * string)) : World :=
  mkWorld (manifest w) d (readOnly w) (projectType w) (configWrites w)
    (console w).

Definition fileExists (filePath : string) : M bool :=
  fun w => (Ok (match disk_find (disk w) filePath with
                | Some _ => true
                | None => false
                end), w).

Definition writeFile (filePath content : string) : M unit :=
  fun w =>
    if has (readOnly w) filePath then (Throw, w)
    else (Ok tt, set_disk w (disk_write (disk w) filePath content)).

Definition readFile (filePath : string) : M string :=
  fun w =>
    match disk_find (disk w) filePath with
    | Some c => (Ok c, w)
    | None => (Throw, w)
    end.

Definition deleteFile (filePath : string) : M unit :=
  exists_ <- fileExists filePath ;;
  if exists_ then fun w => (Ok tt, set_disk w (disk_remove (disk w) filePath))
  else ret tt.

(** The [templates/components] directory of the installed package. *)
Definition getComponentsSourceDir : string := "/diamant/dist/templates/components".

Definition detectProjectType : M ProjectType :=
  fun w => (Ok (projectType w), w).

(* ===================================================================== *)
(** ** utils/config.ts *)

Definition configExists : M bool :=
  fun w => (Ok (match manifest w with Absent => false | _ => true end), w).

(** [null] is [None]. *)
Definition readConfig : M (option DiamantConfig) :=
  fun w => (Ok (match manifest w with Parsed c => Some c | _ => None end), w).

Definition writeConfig (config : DiamantConfig) : M unit :=
  fun w => (Ok tt,
            mkWorld (Parsed config) (disk w) (readOnly w) (projectType w)
              (configWrites w ++ [config]) (console w)).

(** [Array.prototype.sort()] without a comparator orders strings by code
    units. *)
Fixpoint insert_sorted (x : string) (l : list string) : list string :=
  match l with
  | [] => [x]
  | y :: r => if String.leb x y then x :: l else y :: insert_sorted x r
  end.

Definition sort (l : list string) : list string :=
  fold_right insert_sorted [] l.

Definition set_installed (c : DiamantConfig) (l : list string) : DiamantConfig :=
  mkConfig (typescript c) (tailwind_config c) (tailwind_css c)
    (aliases_components c) (aliases_utils c) l.

Definition addInstalledComponent (componentName : string) : M unit :=
  config <- readConfig ;;
  match config with
  | None => ret tt
  | Some config =>
      if negb (has (installedComponents config) componentName) then
        writeConfig
          (set_installed config
             (sort (installedComponents config ++ [componentName])))
      else ret tt
  end.

(** [l.splice(l.indexOf(x), 1)] when [x] occurs: the first occurrence goes. *)
Fixpoint remove_first (x : string) (l : list string) : list string :=
  match l with
  | [] => []
  | y :: r => if String.eqb y x then r else y :: remove_first x r
  end.

Definition removeInstalledComponent (componentName : string) : M unit :=
  config <- readConfig ;;
  match config with
  | None => ret tt
  | Some config =>
      if has (installedComponents config) componentName then
        writeConfig
          (set_installed config
             (remove_first componentName (installedComponents config)))
      else ret tt
  end.

Definition isComponentInstalled (componentName : string) : M bool :=
  config <- readConfig ;;
  match config with
  | None => ret false
  | Some config => ret (has (installedComponents config) componentName)
  end.

(* ===================================================================== *)
(** ** The content transform *)

(** White space for [trim] and for [\s], below 256. *)
Definition isSpace (c : ascii) : bool :=
  let n := nat_of_ascii c in
  ((9 <=? n) && (n <=? 13)) || (n =? 32) || (n =? 160).

Fixpoint trimStart (s : string) : string :=
  match s with
  | EmptyString => EmptyString
  | String c r => if isSpace c then trimStart r else s
  end.

Fixpoint trimEnd (s : string) : string :=
  match s with
  | EmptyString => EmptyString
  | String c r =>
      match trimEnd r with
      | EmptyString => if isSpace c then EmptyString else String c EmptyString
      | r' => String c r'
      end
  end.

Definition trim (s : string) : string := trimEnd (trimStart s).

Definition dquote : ascii := ascii_of_nat 34.
Definition squote : ascii := ascii_of_nat 39.

Definition isQuote (c : ascii) : bool :=
  Ascii.eqb c dquote || Ascii.eqb c squote.

(** [strip_prefix p s] is what follows [p] in [s], when [s] starts with [p]. *)
Fixpoint strip_prefix (p s : string) : option string :=
  match p with
  | EmptyString => Some s
  | String a p' =>
      match s with
      | EmptyString => None
      | String b s' => if Ascii.eqb a b then strip_prefix p' s' else None
      end
  end.

(** The regular expression [/from\s+["']\.\.\/\.\.\/lib\/utils["']/] tried at
    the start of [s]: what follows the match, if it matches. *)
Definition matchImport (s : string) : option string :=
  match strip_prefix "from" s with
  | Some (String sp r1) =>
      if isSpace sp then
        match trimStart r1 with
        | String q1 r2 =>
            if isQuote q1 then
              match strip_prefix "../../lib/utils" r2 with
              | Some (String q2 r3) => if isQuote q2 then Some r3 else None
              | _ => None
              end
            else None
        | EmptyString => None
        end
      else None
  | _ => None
  end.

(** The replacement patterns of [String.prototype.replace] for a pattern
    without groups: [$$], [$&], the text before and the text after. *)
Fixpoint expand (replacement matched before after : string) : string :=
  match replacement with
  | EmptyString => EmptyString
  | String c t =>
      if Ascii.eqb c "$" then
        match t with
        | String d r =>
            if Ascii.eqb d "$" then String "$" (expand r matched before after)
            else if Ascii.eqb d "&" then
              (matched ++ expand r matched before after)%string
            else if Ascii.eqb d "`" then
              (before ++ expand r matched before after)%string
            else if Ascii.eqb d squote then
              (after ++ expand r matched before after)%string
            else String c (expand t matched before after)
        | EmptyString => String c EmptyString
        end
      else String c (expand t matched before after)
  end.

(** [s.replace(/.../g, replacement)], scanning [s] from the left; [before] is
    the text already passed and [skip] the code units of a match still to
    pass. *)
Fixpoint replaceFrom (replacement before s : string) (skip : nat) : string :=
  match s with
  | EmptyString => EmptyString
  | String c r =>
      let before' := (before ++ String c EmptyString)%string in
      match skip with
      | S k => replaceFrom replacement before' r k
      | O =>
          match matchImport s with
          | Some rest =>
              let len := String.length s - String.length rest in
              (expand replacement (substring 0 len s) before rest
               ++ replaceFrom replacement before' r (len - 1))%string
          | None => String c (replaceFrom replacement before' r 0)
          end
      end
  end.

(** [content.replace(/from\s+["']\.\.\/\.\.\/lib\/utils["']/g,
    `from "${utilsImportPath}"`)] *)
Definition rewriteImports (content utilsImportPath : string) : string :=
  replaceFrom
    ("from " ++ String dquote utilsImportPath ++ String dquote EmptyString)%string
    EmptyString content 0.

(** [s.split(sep)] for a separator of one code unit. *)
Fixpoint split_char (sep : ascii) (s : string) : list string :=
  match s with
  | EmptyString => [EmptyString]
  | String c r =>
      if Ascii.eqb c sep then EmptyString :: split_char sep r
      else
        match split_char sep r with
        | p :: ps => String c p :: ps
        | [] => [String c EmptyString]
        end
  end.

(** [s.repeat(n)] *)
Fixpoint repeat_string (s : string) (n : nat) : string :=
  match n with
  | O => EmptyString
  | S k => (s ++ repeat_string s k)%string
  end.

(** [utilsPath.replace(/^src\//, "@/")] *)
Definition replaceSrcPrefix (utilsPath : string) : string :=
  match strip_prefix "src/" utilsPath with
  | Some rest => ("@/" ++ rest)%string
  | None => utilsPath
  end.

Definition getUtilsImportPath (projectType : ProjectType)
  (componentsPath utilsPath : string) : string :=
  match projectType with
  | cra =>
      let componentsDepth := List.length (split_char "/" componentsPath) in
      let utilsPathParts := split_char "/" utilsPath in
      let upPath := repeat_string "../" (componentsDepth - 1) in
      (upPath ++ String.concat "/" (tl utilsPathParts) ++ "/utils")%string
  | _ => (replaceSrcPrefix utilsPath ++ "/utils")%string
  end.

(** [registry[nm].name], a [TypeError] when the entry is undefined. *)
Definition displayName (reg : Registry) (nm : string) : M string :=
  match lookup reg nm with
  | Some def => ret (name def)
  | None => throw
  end.

Fixpoint mapM {A B} (f : A -> M B) (xs : list A) : M (list B) :=
  match xs with
  | [] => ret []
  | x :: rest => y <- f x ;; ys <- mapM f rest ;; ret (y :: ys)
  end.

(** [path.join(dir, def.files[0])], a [TypeError] when [files] is empty. *)
Definition firstFilePath (dir : string) (def : ComponentDefinition) : M string :=
  match files def with
  | f :: _ => ret (path_join dir f)
  | [] => throw
  end.

(** The checks every command but [list] starts with. *)
Definition loadConfig : M DiamantConfig :=
  initialized <- configExists ;;
  if negb initialized then print NotInitialized ;; exit 1
  else
    config <- readConfig ;;
    match config with
    | None => print FailedToReadConfig ;; exit 1
    | Some config => ret config
    end.

(* ===================================================================== *)
(** ** commands/remove.ts *)

(** The first loop of [remove]: [(validComponents, invalidComponents)]. *)
Definition validate (reg : Registry) (components : list string)
  : list string * list string :=
  fold_left
    (fun acc nm =>
       let normalizedName := toLowerCase nm in
       match lookup reg normalizedName with
       | Some _ => (fst acc ++ [normalizedName], snd acc)
       | None => (fst acc, snd acc ++ [nm])
       end)
    components ([], []).

(** The second loop: the valid ids whose first file is on disk. *)
Definition onDisk (reg : Registry) (componentsDir : string)
  (validComponents : list string) : M (list string) :=
  forEachAcc validComponents []
    (fun installed nm =>
       match lookup reg nm with
       | None => throw
       | Some componentDef =>
           componentPath <- firstFilePath componentsDir componentDef ;;
           present <- fileExists componentPath ;;
           ret (if present then installed ++ [nm] else installed)
       end).

(** The third loop: installed components that depend on a removed one. *)
Definition dependents (reg : Registry) (allInstalled removing : list string)
  : list string :=
  flat_map
    (fun nm =>
       map fst
         (filter
            (fun e =>
               has (internalDependencies (snd e)) nm
               && has allInstalled (fst e)
               && negb (has removing (fst e)))
            reg))
    removing.

(** The part of [remove] that follows the test
    [installedComponents.length === 0]: the warning about dependents, the
    confirmation, the deletions.  [yes] is the [--yes] flag and [answer] what
    the user replies to the confirmation, when asked. *)
Definition removeOnDisk (reg : Registry) (config : DiamantConfig)
  (installed : list string) (yes answer : bool) : M unit :=
  let componentsDir := aliases_components config in
  let allInstalled := installedComponents config in
  let dependentComponents := dependents reg allInstalled installed in
  when (negb (Nat.eqb (List.length dependentComponents) 0))
    (names <- mapM (displayName reg) dependentComponents ;;
     print (DependOnRemoved names)) ;;
  confirmed <-
    (if negb yes then
       names <- mapM (displayName reg) installed ;;
       print (WillBeRemoved names) ;;
       if negb answer then print RemovalCancelled ;; ret false
       else ret true
     else ret true) ;;
  if negb confirmed then ret tt
  else
    forEach installed
      (fun nm =>
         match lookup reg nm with
         | None => throw
         | Some componentDef =>
             forEach (files componentDef)
               (fun file => deleteFile (path_join componentsDir file)) ;;
             removeInstalledComponent nm
         end) ;;
    print (Removed (List.length installed)).

Definition remove (reg : Registry) (components : list string)
  (yes answer : bool) : M unit :=
  config <- loadConfig ;;
  let (validComponents, invalidComponents) := validate reg components in
  when (negb (Nat.eqb (List.length invalidComponents) 0))
    (print (UnknownComponents invalidComponents)) ;;
  if Nat.eqb (List.length validComponents) 0 then print NoValidComponents
  else
    let componentsDir := aliases_components config in
    installed <- onDisk reg componentsDir validComponents ;;
    if Nat.eqb (List.length installed) 0 then print NoneInstalled
    else removeOnDisk reg config installed yes answer.

(* ===================================================================== *)
(** ** commands/update.ts *)

(** [localContent.trim() !== sourceContent.trim()] *)
Definition differs (localContent sourceContent : string) : bool :=
  negb (String.eqb (trim localContent) (trim sourceContent)).

(** The body of the checking loop of [update]; [componentsToUpdate] holds
    the [{ name, hasChanges }] entries pushed so far. *)
Definition checkOne (reg : Registry) (componentsDir sourceDir : string)
  (utilsImportPath : string) (componentsToUpdate : list (string * bool))
  (nm : string) : M (list (string * bool)) :=
  let normalizedName := toLowerCase nm in
  match lookup reg normalizedName with
  | None => ret componentsToUpdate
  | Some componentDef =>
      localPath <- firstFilePath componentsDir componentDef ;;
      sourcePath <- firstFilePath sourceDir componentDef ;;
      present <- fileExists localPath ;;
      if negb present then ret componentsToUpdate
      else
        try_catch
          (localContent <- readFile localPath ;;
           sourceContent <- readFile sourcePath ;;
           let sourceContent := rewriteImports sourceContent utilsImportPath in
           let hasChanges := differs localContent sourceContent in
           ret (componentsToUpdate ++ [(normalizedName, hasChanges)]))
          (ret componentsToUpdate)
  end.

Definition checkForUpdates (reg : Registry) (componentsDir sourceDir : string)
  (utilsImportPath : string) (components : list string)
  : M (list (string * bool)) :=
  forEachAcc components []
    (checkOne reg componentsDir sourceDir utilsImportPath).

(** The inner loop of the writing pass of [update]: every file of the
    component is read from the templates, rewritten and written. *)
Definition overwriteFiles (componentsDir sourceDir utilsImportPath : string)
  (componentDef : ComponentDefinition) : M unit :=
  forEach (files componentDef)
    (fun file =>
       let sourcePath := path_join sourceDir file in
       let destPath := path_join componentsDir file in
       content <- readFile sourcePath ;;
       let content := rewriteImports content utilsImportPath in
       writeFile destPath content).

Definition update (reg : Registry) (components : list string)
  (yes answer : bool) : M unit :=
  config <- loadConfig ;;
  let components :=
    if Nat.eqb (List.length components) 0 then installedComponents config
    else components in
  if Nat.eqb (List.length components) 0 then print NoComponentsToUpdate
  else
    projectType <- detectProjectType ;;
    let utilsImportPath :=
      getUtilsImportPath projectType (aliases_components config)
        (aliases_utils config) in
    let componentsDir := aliases_components config in
    let sourceDir := getComponentsSourceDir in
    componentsToUpdate <-
      checkForUpdates reg componentsDir sourceDir utilsImportPath components ;;
    let updateable := filter snd componentsToUpdate in
    if Nat.eqb (List.length updateable) 0 then print AllUpToDate
    else
      names <- mapM (displayName reg) (map fst updateable) ;;
      print (UpdatesAvailable names) ;;
      confirmed <-
        (if negb yes then
           if negb answer then print UpdateCancelled ;; ret false
           else ret true
         else ret true) ;;
      if negb confirmed then ret tt
      else
        forEach updateable
          (fun c =>
             match lookup reg (fst c) with
             | None => throw
             | Some componentDef =>
                 overwriteFiles componentsDir sourceDir utilsImportPath
                   componentDef
             end) ;;
        print (Updated (List.length updateable)).

(* ===================================================================== *)
(** ** commands/diff.ts *)

(** A part of the result of [Diff.diffLines]. *)
Record Change := mkChange {
  added : bool;
  removed : bool;
  value : string
}.

Definition newline : ascii := ascii_of_nat 10.

(** [part.value.split("\n").filter((l) => l)] *)
Definition nonEmptyLines (v : string) : list string :=
  filter (fun l => negb (String.eqb l EmptyString)) (split_char newline v).

Section Diff.

(** The line differences of the [diff] package. *)
Variable diffLines : string -> string -> list Change.

Definition showDiff (reg : Registry) (nm localPath sourceDir : string)
  (utilsImportPath : string) : M unit :=
  match lookup reg nm with
  | None => throw
  | Some componentDef =>
      sourcePath <- firstFilePath sourceDir componentDef ;;
      try_catch
        (localContent <- readFile localPath ;;
         sourceContent <- readFile sourcePath ;;
         let sourceContent := rewriteImports sourceContent utilsImportPath in
         if negb (differs localContent sourceContent) then
           print (UpToDate (name componentDef))
         else
           let changes := diffLines sourceContent localContent in
           print
             (DiffFor (name componentDef)
                (flat_map
                   (fun part =>
                      if added part then
                        map (fun l => (true, l)) (nonEmptyLines (value part))
                      else if removed part then
                        map (fun l => (false, l)) (nonEmptyLines (value part))
                      else [])
                   changes)))
        (print ErrorReadingFiles)
  end.

(** The body of the summary loop of [diff]; the result is [hasModified]. *)
Definition statusOne (reg : Registry) (componentsDir sourceDir : string)
  (utilsImportPath : string) (hasModified : bool) (nm : string) : M bool :=
  match lookup reg nm with
  | None => ret hasModified
  | Some componentDef =>
      localPath <- firstFilePath componentsDir componentDef ;;
      sourcePath <- firstFilePath sourceDir componentDef ;;
      present <- fileExists localPath ;;
      if negb present then
        print (StatusMissing (name componentDef)) ;; ret hasModified
      else
        try_catch
          (localContent <- readFile localPath ;;
           sourceContent <- readFile sourcePath ;;
           let sourceContent := rewriteImports sourceContent utilsImportPath in
           if negb (differs localContent sourceContent) then
             print (StatusUpToDate (name componentDef)) ;; ret hasModified
           else
             let changes := diffLines sourceContent localContent in
             let additions := List.length (filter added changes) in
             let deletions := List.length (filter removed changes) in
             print (StatusModified (name componentDef) additions deletions) ;;
             ret true)
          (print (StatusErrorReading (name componentDef)) ;;
           ret hasModified)
  end.

Definition statusLoop (reg : Registry) (componentsDir sourceDir : string)
  (utilsImportPath : string) (installed : list string) : M bool :=
  forEachAcc installed false
    (statusOne reg componentsDir sourceDir utilsImportPath).

(** [if (component)]: the argument when it is given and not empty. *)
Definition given (component : option string) : option string :=
  match component with
  | Some EmptyString => None
  | c => c
  end.

Definition diff (reg : Registry) (component : option string) : M unit :=
  config <- loadConfig ;;
  let componentsDir := aliases_components config in
  let sourceDir := getComponentsSourceDir in
  projectType <- detectProjectType ;;
  let utilsImportPath :=
    getUtilsImportPath projectType (aliases_components config)
      (aliases_utils config) in
  match given component with
  | Some component =>
      let normalizedName := toLowerCase component in
      match lookup reg normalizedName with
      | None => print (UnknownComponent component)
      | Some componentDef =>
          localPath <- firstFilePath componentsDir componentDef ;;
          present <- fileExists localPath ;;
          if negb present then
            print (NotInstalled (name componentDef) normalizedName)
          else showDiff reg normalizedName localPath sourceDir utilsImportPath
      end
  | None =>
      let installed := installedComponents config in
      if Nat.eqb (List.length installed) 0 then print NoComponentsInstalled
      else
        print StatusHeader ;;
        hasModified <-
          statusLoop reg componentsDir sourceDir utilsImportPath installed ;;
        when hasModified (print RunDiffHint)
  end.

End Diff.

(* ===================================================================== *)
(** ** commands/add.ts *)

Record AddOptions := mkAddOptions {
  opt_yes : bool;
  opt_all : bool;
  opt_overwrite : bool
}.

(** What the outside answers during [add]: the components ticked in the
    selection prompt, the reply to the overwrite confirmation, and whether
    the package manager's command succeeds. *)
Record AddAnswers := mkAddAnswers {
  selection : list string;
  overwriteAnswer : bool;
  installSucceeds : bool
}.

(** The first loop of [add]: [(existingComponents, newComponents)]. *)
Definition classifyExisting (reg : Registry) (componentsDir : string)
  (resolvedComponents : list string) : M (list string * list string) :=
  forEachAcc resolvedComponents ([], [])
    (fun acc nm =>
       match lookup reg nm with
       | None => ret acc
       | Some componentDef =>
           componentPath <- firstFilePath componentsDir componentDef ;;
           present <- fileExists componentPath ;;
           ret (if present then (fst acc ++ [nm], snd acc)
                else (fst acc, snd acc ++ [nm]))
       end).

(** The body of [for (const name of componentsToAdd)] in the copying pass.
    The import path computed in place there is [getUtilsImportPath]. *)
Definition copyComponent (reg : Registry)
  (componentsDir sourceDir utilsImportPath : string) (nm : string) : M unit :=
  match lookup reg nm with
  | None => ret tt
  | Some componentDef =>
      forEach (files componentDef)
        (fun file =>
           let sourcePath := path_join sourceDir file in
           let destPath := path_join componentsDir file in
           try_catch
             (content <- readFile sourcePath ;;
              let content := rewriteImports content utilsImportPath in
              writeFile destPath content ;;
              addInstalledComponent nm)
             (print (FailedToCopy file) ;; exit 1))
  end.

Definition copyComponents (reg : Registry) (config : DiamantConfig)
  (componentsToAdd : list string) : M unit :=
  let componentsDir := aliases_components config in
  let sourceDir := getComponentsSourceDir in
  projectType <- detectProjectType ;;
  let utilsImportPath :=
    getUtilsImportPath projectType (aliases_components config)
      (aliases_utils config) in
  forEach componentsToAdd
    (copyComponent reg componentsDir sourceDir utilsImportPath).

(** The part of [add] from the existing-components notice to the choice of
    [options.overwrite]; [None] when the command returns there. *)
Definition settleOverwrite (reg : Registry) (options : AddOptions)
  (answers : AddAnswers) (existingComponents newComponents : list string)
  : M (option bool) :=
  if negb (Nat.eqb (List.length existingComponents) 0)
     && negb (opt_overwrite options)
  then
    names <- mapM (displayName reg) existingComponents ;;
    print (AlreadyExist names) ;;
    if negb (opt_yes options) then
      if negb (overwriteAnswer answers) then
        if Nat.eqb (List.length newComponents) 0 then
          print NoNewComponents ;; ret None
        else ret (Some (opt_overwrite options))
      else ret (Some true)
    else ret (Some (opt_overwrite options))
  else ret (Some (opt_overwrite options)).

Definition addResolved (reg : Registry) (config : DiamantConfig)
  (components : list string) (options : AddOptions) (answers : AddAnswers)
  : M unit :=
  let resolvedComponents := resolveComponentDependencies reg components in
  forEach (resolveWarnings reg components) (fun l => print (Warned l)) ;;
  let componentsDir := aliases_components config in
  classified <- classifyExisting reg componentsDir resolvedComponents ;;
  let (existingComponents, newComponents) := classified in
  settled <-
    settleOverwrite reg options answers existingComponents newComponents ;;
  match settled with
  | None => ret tt
  | Some overwrite =>
      let componentsToAdd :=
        if overwrite then resolvedComponents else newComponents in
      if Nat.eqb (List.length componentsToAdd) 0 then print AllAlreadyInstalled
      else
        lines <-
          mapM
            (fun nm =>
               display <- displayName reg nm ;;
               let isNew := negb (has existingComponents nm) in
               let isDep := negb (has (map toLowerCase components) nm) in
               ret (isNew, display, isDep))
            componentsToAdd ;;
        print (Adding lines) ;;
        let npmDeps := getNpmDependencies reg componentsToAdd in
        when (negb (Nat.eqb (List.length npmDeps) 0))
          (if installSucceeds answers then print (InstalledDeps npmDeps)
           else print ManualInstallNeeded) ;;
        copyComponents reg config componentsToAdd ;;
        print (AddedSuccessfully (List.length componentsToAdd))
  end.

Definition add (reg : Registry) (components : list string)
  (options : AddOptions) (answers : AddAnswers) : M unit :=
  config <- loadConfig ;;
  let components :=
    if opt_all options then getAllComponentNames reg else components in
  if Nat.eqb (List.length components) 0 then
    if Nat.eqb (List.length (selection answers)) 0 then
      print NoComponentsSelected
    else addResolved reg config (selection answers) options answers
  else addResolved reg config components options answers.

(* ===================================================================== *)
(** ** Vocabulary of the statements *)

(** Sorted by code units. *)
Definition ordered (l : list string) : Prop :=
  Sorted (fun a b => String.leb a b = true) l.

(** [registry[name.toLowerCase()]] is defined. *)
Definition known (reg : Registry) (nm : string) : bool :=
  match lookup reg (toLowerCase nm) with
  | Some _ => true
  | None => false
  end.

Definition onDiskAt (d : list (string * string)) (p : string) : bool :=
  match disk_find d p with
  | Some _ => true
  | None => false
  end.

(** The first file of the entry [nm] exists under [dir]. *)
Definition firstFilePresent (reg : Registry) (dir : string)
  (d : list (string * string)) (nm : string) : bool :=
  match lookup reg nm with
  | Some def =>
      match files def with
      | f :: _ => onDiskAt d (path_join dir f)
      | [] => false
      end
  | None => false
  end.

(** Every entry has a first file, so that [files[0]] is a string. *)
Definition hasFiles (reg : Registry) : Prop :=
  forall k def, In (k, def) reg -> files def <> [].

(** A requested id the registry knows but whose first file is not on disk. *)
Definition knownButAbsent (reg : Registry) (dir : string)
  (d : list (string * string)) (nm : string) : bool :=
  known reg nm && negb (firstFilePresent reg dir d (toLowerCase nm)).

Definition add_console (w : World) (msgs : list Msg) : World :=
  mkWorld (manifest w) (disk w) (readOnly w) (projectType w) (configWrites w)
    (console w ++ msgs).

(** [registry[nm].name] where the entry is defined. *)
Definition displayOf (reg : Registry) (nm : string) : string :=
  match lookup reg nm with
  | Some def => name def
  | None => EmptyString
  end.

(** The paths the deleting loop of [remove] goes through. *)
Definition deletedPaths (reg : Registry) (dir : string)
  (installed : list string) : list string :=
  flat_map
    (fun nm =>
       match lookup reg nm with
       | Some def => map (path_join dir) (files def)
       | None => []
       end)
    installed.

(** What [remove] prints about unknown ids. *)
Definition unknownNotice (invalid : list string) : list Msg :=
  match invalid with
  | [] => []
  | _ => [UnknownComponents invalid]
  end.

(** What the summary loop of [diff] prints for one installed id, on a disk
    [d]. *)
Definition statusLine (diffLines : string -> string -> list Change)
  (reg : Registry) (componentsDir sourceDir utilsImportPath : string)
  (d : list (string * string)) (nm : string) : list Msg :=
  match lookup reg nm with
  | None => []
  | Some def =>
      match files def with
      | [] => []
      | f :: _ =>
          match disk_find d (path_join componentsDir f) with
          | None => [StatusMissing (name def)]
          | Some localContent =>
              match disk_find d (path_join sourceDir f) with
              | None => [StatusErrorReading (name def)]
              | Some sourceContent =>
                  let sourceContent :=
                    rewriteImports sourceContent utilsImportPath in
                  if negb (differs localContent sourceContent) then
                    [StatusUpToDate (name def)]
                  else
                    let changes := diffLines sourceContent localContent in
                    [StatusModified (name def)
                       (List.length (filter added changes))
                       (List.length (filter removed changes))]
              end
          end
      end
  end.

(** What the checking loop of [update] records for one requested name, on a
    disk [d]. *)
Definition checkLine (reg : Registry)
  (componentsDir sourceDir utilsImportPath : string)
  (d : list (string * string)) (nm : string) : list (string * bool) :=
  match lookup reg (toLowerCase nm) with
  | None => []
  | Some def =>
      match files def with
      | [] => []
      | f :: _ =>
          match disk_find d (path_join componentsDir f) with
          | None => []
          | Some localContent =>
              match disk_find d (path_join sourceDir f) with
              | None => []
              | Some sourceContent =>
                  [(toLowerCase nm,
                    differs localContent
                      (rewriteImports sourceContent utilsImportPath))]
              end
          end
      end
  end.

(** ** Sample projects *)

(** The manifest [init] writes, with the given installed list. *)
Definition sampleConfig (installed : list string) : DiamantConfig :=
  mkConfig true "tailwind.config.js" "src/app/globals.css"
    "src/components/ui" "src/lib" installed.

(** A Next.js project with that manifest and the given files. *)
Definition sampleWorld (installed : list string) (d : list (string * string))
  : World :=
  mkWorld (Parsed (sampleConfig installed)) d [] nextjs [] [].

(** A line differ that tells only whether the two texts are the same. *)
Definition wholeTextDiff (oldStr newStr : string) : list Change :=
  if String.eqb oldStr newStr then [mkChange false false oldStr]
  else [mkChange false true oldStr; mkChange true false newStr].

(** A project just initialised in which the file of Button cannot be
    written. *)
Definition buttonReadOnly : World :=
  mkWorld (Parsed (sampleConfig []))
    [("/diamant/dist/templates/components/Button.tsx",
      "import { cn } from '../../lib/utils'; button");
     ("/diamant/dist/templates/components/Carousel.tsx",
      "import { cn } from '../../lib/utils'; carousel")]
    ["src/components/ui/Button.tsx"] nextjs [] [].

(** ** Vocabulary of the further properties *)

(** The ids that can be reached from the requested names: the lower-cased
    requested names, and the lower-cased dependencies of reached ids that the
    registry knows. *)
Inductive reaches (reg : Registry) (componentNames : list string)
  : string -> Prop :=
| reaches_requested (nm : string) :
    In nm componentNames -> reaches reg componentNames (toLowerCase nm)
| reaches_dependency (k dep : string) (def : ComponentDefinition) :
    reaches reg componentNames k ->
    lookup reg k = Some def ->
    In dep (internalDependencies def) ->
    reaches reg componentNames (toLowerCase dep).

(** The line [console.warn] gets for an unknown name. *)
Definition unknownWarning (nm : string) : string :=
  ("Unknown component: " ++ nm)%string.

(** What holds of the visited set all along the loop of the resolver. *)
Definition visited_ok (reg : Registry) (componentNames : list string)
  (st : ResolveState) : Prop :=
  NoDup (resolved st)
  /\ forall k, In k (resolved st) ->
               lookup reg k <> None /\ toLowerCase k = k
               /\ reaches reg componentNames k.

(** What holds of the stack all along the loop. *)
Definition stack_ok (reg : Registry) (componentNames : list string)
  (st : ResolveState) : Prop :=
  forall x, In x (toProcess st) ->
            In x componentNames
            \/ exists k def, reaches reg componentNames k
                             /\ lookup reg k = Some def
                             /\ In x (internalDependencies def).

(** Every dependency of a visited id is visited, waiting, or unknown. *)
Definition dependencies_ok (reg : Registry) (st : ResolveState) : Prop :=
  forall k def dep,
    In k (resolved st) -> lookup reg k = Some def ->
    In dep (internalDependencies def) ->
    In (toLowerCase dep) (resolved st) \/ In dep (toProcess st)
    \/ lookup reg (toLowerCase dep) = None.

(** The manifest's list as the data model wants it: sorted, without
    duplicates. *)
Definition validList (l : list string) : Prop := ordered l /\ NoDup l.

(** The ids [remove] goes on with: the valid requested ids whose first file
    is on disk. *)
Definition requestedOnDisk (reg : Registry) (config : DiamantConfig)
  (d : list (string * string)) (components : list string) : list string :=
  filter (firstFilePresent reg (aliases_components config) d)
    (map toLowerCase (filter (known reg) components)).

(** The manifest list after the removing loop went through [removed]. *)
Definition withoutAll (removed l : list string) : list string :=
  fold_left (fun acc nm => remove_first nm acc) removed l.

(** [w'] is [w] but for the console and for the files at [paths]. *)
Definition sameExcept (paths : list string) (w w' : World) : Prop :=
  manifest w' = manifest w
  /\ configWrites w' = configWrites w
  /\ readOnly w' = readOnly w
  /\ projectType w' = projectType w
  /\ forall q, ~ In q paths -> disk_find (disk w') q = disk_find (disk w) q.

(** The files of the named entries, in order. *)
Definition filesOf (reg : Registry) (names : list string) : list string :=
  flat_map
    (fun nm =>
       match lookup reg nm with
       | Some def => files def
       | None => []
       end)
    names.

(** The import path a command computes from the manifest. *)
Definition importPathOf (w : World) (config : DiamantConfig) : string :=
  getUtilsImportPath (projectType w) (aliases_components config)
    (aliases_utils config).

(** The names [update] goes through: the arguments, or the manifest's list
    when there are none. *)
Definition updateList (config : DiamantConfig) (components : list string)
  : list string :=
  if Nat.eqb (List.length components) 0 then installedComponents config
  else components.

(** The components the checking loop of [update] finds changed. *)
Definition modifiedComponents (reg : Registry) (w : World)
  (config : DiamantConfig) (components : list string) : list string :=
  map fst
    (filter snd
       (flat_map
          (checkLine reg (aliases_components config) getComponentsSourceDir
             (importPathOf w config) (disk w))
          (updateList config components))).

(** A relative path that [path.join] leaves as it is: its segments are
    not empty (no slash at either end, none doubled) and none is [.] or
    [..]. *)
Definition normalSegment (segment : string) : bool :=
  negb (String.eqb segment "") && negb (String.eqb segment ".")
  && negb (String.eqb segment "..").

Definition normalPath (p : string) : bool :=
  forallb normalSegment (split_char "/" p).

(** No template path is a path under the components directory. *)
Definition separate (src dir : string) : Prop :=
  forall f g, path_join src f <> path_join dir g.

(** Every file of [fs] has its template and can be written under [dir]. *)
Definition copyable (src dir : string) (w : World) (fs : list string) : Prop :=
  forall f, In f fs ->
            disk_find (disk w) (path_join src f) <> None
            /\ has (readOnly w) (path_join dir f) = false.

(** The rewritten template of [f], as the copying loops write it. *)
Definition freshCopy (w : World) (config : DiamantConfig) (f : string)
  : option string :=
  match disk_find (disk w) (path_join getComponentsSourceDir f) with
  | Some c => Some (rewriteImports c (importPathOf w config))
  | None => None
  end.

(** The part of [update] after the checking loop found [updateable]. *)
Definition applyUpdates (reg : Registry) (config : DiamantConfig)
  (utilsImportPath : string) (updateable : list (string * bool))
  (yes answer : bool) : M unit :=
  names <- mapM (displayName reg) (map fst updateable) ;;
  print (UpdatesAvailable names) ;;
  confirmed <-
    (if negb yes then
       if negb answer then print UpdateCancelled ;; ret false
       else ret true
     else ret true) ;;
  if negb confirmed then ret tt
  else
    forEach updateable
      (fun c =>
         match lookup reg (fst c) with
         | None => throw
         | Some componentDef =>
             overwriteFiles (aliases_components config) getComponentsSourceDir
               utilsImportPath componentDef
         end) ;;
    print (Updated (List.length updateable)).

(** A project whose button was edited after it was added. *)
Definition editedButton : World :=
  sampleWorld ["button"]
    [("/diamant/dist/templates/components/Button.tsx",
      "import { cn } from '../../lib/utils'; fresh");
     ("src/components/ui/Button.tsx", "edited")].

(** The manifest list after [addInstalledComponent nm]. *)
Definition addTo (nm : string) (l : list string) : list string :=
  if has l nm then l else sort (l ++ [nm]).

(** The manifest list after the copying loop went through [added]. *)
Definition withAll (added l : list string) : list string :=
  fold_left (fun acc nm => addTo nm acc) added l.

(** [w'] has the files of [w] but for those at [paths]; the manifest and the
    console may differ. *)
Definition sameFilesExcept (paths : list string) (w w' : World) : Prop :=
  readOnly w' = readOnly w
  /\ projectType w' = projectType w
  /\ forall q, ~ In q paths -> disk_find (disk w') q = disk_find (disk w) q.

(** The part of [add] that follows the choice of [options.overwrite]. *)
Definition addSettled (reg : Registry) (config : DiamantConfig)
  (components resolvedComponents existingComponents newComponents : list string)
  (overwrite : bool) (answers : AddAnswers) : M unit :=
  let componentsToAdd :=
    if overwrite then resolvedComponents else newComponents in
  if Nat.eqb (List.length componentsToAdd) 0 then print AllAlreadyInstalled
  else
    lines <-
      mapM
        (fun nm =>
           display <- displayName reg nm ;;
           let isNew := negb (has existingComponents nm) in
           let isDep := negb (has (map toLowerCase components) nm) in
           ret (isNew, display, isDep))
        componentsToAdd ;;
    print (Adding lines) ;;
    let npmDeps := getNpmDependencies reg componentsToAdd in
    when (negb (Nat.eqb (List.length npmDeps) 0))
      (if installSucceeds answers then print (InstalledDeps npmDeps)
       else print ManualInstallNeeded) ;;
    copyComponents reg config componentsToAdd ;;
    print (AddedSuccessfully (List.length componentsToAdd)).

(** The names [add] resolves: all of the registry with [--all], the
    arguments, or what was ticked when there are no arguments. *)
Definition requestedNames (reg : Registry) (components : list string)
  (options : AddOptions) (answers : AddAnswers) : list string :=
  let components :=
    if opt_all options then getAllComponentNames reg else components in
  if Nat.eqb (List.length components) 0 then selection answers
  else components.

(** A project just initialised, with the templates of Button and Carousel
    in the package and no component copied yet. *)
Definition freshProject : World :=
  sampleWorld []
    [("/diamant/dist/templates/components/Button.tsx",
      "import { cn } from '../../lib/utils'; button");
     ("/diamant/dist/templates/components/Carousel.tsx",
      "import { cn } from '../../lib/utils'; carousel")].

(** What [add] resolves from its arguments. *)
Definition addClosure (reg : Registry) (components : list string)
  (options : AddOptions) (answers : AddAnswers) : list string :=
  resolveComponentDependencies reg
    (requestedNames reg components options answers).

(** The components [add] goes on to copy: all it resolved when it
    overwrites ([--overwrite], or a positive answer to the question it asks
    when some are on disk and [--yes] is not given), else those whose first
    file is not on disk. *)
Definition componentsCopied (reg : Registry) (config : DiamantConfig)
  (w : World) (options : AddOptions) (answers : AddAnswers)
  (resolved : list string) : list string :=
  let dir := aliases_components config in
  let existing := filter (firstFilePresent reg dir (disk w)) resolved in
  let new :=
    filter (fun nm => negb (firstFilePresent reg dir (disk w) nm)) resolved in
  if opt_overwrite options
     || (negb (Nat.eqb (List.length existing) 0) && negb (opt_yes options)
         && overwriteAnswer answers)
  then resolved
  else new.

(** [add] copies all of what it resolved: [--overwrite] is given, or none
    of the resolved components has its first file on disk. *)
Definition copiesAll (reg : Registry) (config : DiamantConfig) (w : World)
  (options : AddOptions) (resolved : list string) : Prop :=
  opt_overwrite options = true
  \/ forall nm, In nm resolved ->
       firstFilePresent reg (aliases_components config) (disk w) nm = false.

(** No import of [../../lib/utils] starts anywhere in [s]. *)
Fixpoint noUtilsImport (s : string) : bool :=
  match s with
  | EmptyString => true
  | String c r =>
      match matchImport s with
      | Some _ => false
      | None => noUtilsImport r
      end
  end.

(* ===================================================================== *)
(** ** commands/list.ts *)

(** What [list] prints, empty lines left out. *)
Inductive ListLine :=
| NoComponentsInstalledYet
| RunAddHint
| NoComponentsAvailable
| ListHeader (installedOnly : bool)
| ListItem (isInstalled : bool) (display description : string)
| InstalledCount (installedCount totalCount : nat)
| Legend
| Usage.

(** One turn of the loop of [list]; [registry[name].name] is a [TypeError]
    when the entry is undefined. *)
Definition listItem (reg : Registry) (installedComponents : list string)
  (nm : string) : M ListLine :=
  match lookup reg nm with
  | Some component =>
      let isInstalled := has installedComponents nm in
      ret (ListItem isInstalled (name component) (description component))
  | None => throw
  end.

(** [list(options)].  The command only reads the manifest; the lines it
    prints are the value of the computation, first line first. *)
Definition list_cmd (reg : Registry) (installedOnly : bool)
  : M (list ListLine) :=
  let allComponents := getAllComponentNames reg in
  present <- configExists ;;
  installedComponents <-
    (if present then
       config <- readConfig ;;
       match config with
       | Some c => ret (installedComponents c)
       | None => ret []
       end
     else ret []) ;;
  let componentsToShow :=
    if installedOnly then filter (has installedComponents) allComponents
    else allComponents in
  if Nat.eqb (List.length componentsToShow) 0 then
    ret (if installedOnly then [NoComponentsInstalledYet; RunAddHint]
         else [NoComponentsAvailable])
  else
    items <- mapM (listItem reg installedComponents) componentsToShow ;;
    ret (ListHeader installedOnly :: items
         ++ (if negb installedOnly
             then [InstalledCount (List.length installedComponents)
                     (List.length allComponents); Legend]
             else [])
         ++ [Usage]).

(** The manifest's list as [list] reads it. *)
Definition manifestList (w : World) : list string :=
  match manifest w with
  | Parsed c => installedComponents c
  | _ => []
  end.

(** The names [diff] looks up: its argument, or the manifest's list. *)
Definition diffNames (component : option string) (w : World) : list string :=
  match given component with
  | Some c => [c]
  | None => manifestList w
  end.

(** The line of [list] for the registry key [nm]. *)
Definition itemOf (reg : Registry) (installed : list string) (nm : string)
  : ListLine :=
  match lookup reg nm with
  | Some component =>
      ListItem (has installed nm) (name component) (description component)
  | None => ListItem false EmptyString EmptyString
  end.

(** A line of [list] showing a component as installed. *)
Definition marked (line : ListLine) : bool :=
  match line with
  | ListItem true _ _ => true
  | _ => false
  end.

(* ===================================================================== *)
(** * Properties *)

(** ** Sets of strings *)

Lemma has_In (s : list string) (x : string) : has s x = true <-> In x s.
Proof.
  unfold has. rewrite existsb_exists. split.
  - intros [y [Hin Heq]]. apply String.eqb_eq in Heq. now subst.
  - intros Hin. exists x. split; [assumption | apply String.eqb_refl].
Qed.

Lemma has_false_In (s : list string) (x : string) :
  has s x = false <-> ~ In x s.
Proof.
  rewrite <- has_In. destruct (has s x); split; congruence.
Qed.

Lemma has_app (s t : list string) (x : string) :
  has (s ++ t) x = has s x || has t x.
Proof. unfold has. apply existsb_app. Qed.

Lemma add_elem_In (s : list string) (x y : string) :
  In y (add_elem s x) <-> In y s \/ y = x.
Proof.
  unfold add_elem. destruct (has s x) eqn:H.
  - apply has_In in H. split; [tauto | intros [?| ->]; assumption].
  - rewrite in_app_iff. simpl. split; intros [?|?]; auto; try tauto.
    destruct H0; auto. contradiction.
Qed.

Lemma add_elem_NoDup (s : list string) (x : string) :
  NoDup s -> NoDup (add_elem s x).
Proof.
  intros Hs. unfold add_elem. destruct (has s x) eqn:H; [assumption|].
  apply has_false_In in H.
  apply NoDup_rev in Hs. rewrite <- (rev_involutive (s ++ [x])).
  apply NoDup_rev. rewrite rev_app_distr. simpl. constructor.
  - now rewrite <- in_rev.
  - assumption.
Qed.

Lemma fold_add_elem_In (l acc : list string) (y : string) :
  In y (fold_left add_elem l acc) <-> In y acc \/ In y l.
Proof.
  revert acc. induction l as [|x l IH]; intros acc; simpl.
  - tauto.
  - rewrite IH, add_elem_In. intuition (subst; auto).
Qed.

Lemma fold_add_elem_NoDup (l acc : list string) :
  NoDup acc -> NoDup (fold_left add_elem l acc).
Proof.
  revert acc. induction l as [|x l IH]; intros acc H; simpl; auto.
  apply IH, add_elem_NoDup, H.
Qed.

(** ** The registry *)

Lemma lookup_In (reg : Registry) (k : string) (def : ComponentDefinition) :
  lookup reg k = Some def -> In (k, def) reg.
Proof.
  induction reg as [|[k' d'] reg IH]; simpl; [discriminate|].
  destruct (String.eqb k' k) eqn:E.
  - apply String.eqb_eq in E. intros [= ->]. left. now subst.
  - intros H. right. now apply IH.
Qed.

Lemma registry_keys_lowercase :
  Forall (fun e => toLowerCase (fst e) = fst e) registry.
Proof. repeat constructor. Qed.

Lemma registry_lookup_lowercase (k : string) (def : ComponentDefinition) :
  lookup registry k = Some def -> toLowerCase k = k.
Proof.
  intros H. apply lookup_In in H.
  pose proof registry_keys_lowercase as F.
  rewrite Forall_forall in F. exact (F _ H).
Qed.

(** ** The dependency resolver *)

Section Resolver.

Variable reg : Registry.

Lemma resolve_loop_more_fuel (n m : nat) (st r : ResolveState) :
  resolve_loop n reg st = Some r -> n <= m -> resolve_loop m reg st = Some r.
Proof.
  revert m st. induction n as [|n IH]; intros m st H Hle; simpl in H.
  - discriminate.
  - destruct m as [|m]; [lia|]. simpl.
    destruct (resolve_step reg st) as [st'|]; [|assumption].
    apply IH; [assumption | lia].
Qed.

Lemma resolve_loop_deterministic (n m : nat) (st r r' : ResolveState) :
  resolve_loop n reg st = Some r -> resolve_loop m reg st = Some r' -> r = r'.
Proof.
  intros H1 H2.
  apply resolve_loop_more_fuel with (m := Nat.max n m) in H1; [|lia].
  apply resolve_loop_more_fuel with (m := Nat.max n m) in H2; [|lia].
  congruence.
Qed.

Lemma pushDependencies_length (res deps stack : list string) :
  List.length (pushDependencies res deps stack)
  <= List.length deps + List.length stack.
Proof.
  unfold pushDependencies. revert stack.
  induction deps as [|d deps IH]; intros stack; simpl; [lia|].
  destruct (has res d).
  - specialize (IH stack). lia.
  - specialize (IH (d :: stack)). simpl in IH. lia.
Qed.

Lemma unvisited_cost_mono (all : Registry) (res : list string) (k : string) :
  unvisited_cost reg all (res ++ [k]) <= unvisited_cost reg all res.
Proof.
  induction all as [|[k' d'] all IH]; simpl; [lia|].
  rewrite has_app. destruct (has res k'); cbn [orb]; [lia|].
  destruct (has [k] k'); lia.
Qed.

Lemma unvisited_cost_visit (all : Registry) (res : list string) (k : string)
  (def d' : ComponentDefinition) :
  lookup reg k = Some def -> lookup all k = Some d' -> has res k = false ->
  unvisited_cost reg all (res ++ [k]) + S (List.length (internalDependencies def))
  <= unvisited_cost reg all res.
Proof.
  intros Hreg Hall Hres. revert Hall.
  induction all as [|[k' d''] all IH]; simpl; [discriminate|].
  destruct (String.eqb k' k) eqn:E.
  - apply String.eqb_eq in E. subst k'. intros _.
    rewrite has_app, Hres, Hreg. simpl. rewrite String.eqb_refl. simpl.
    pose proof (unvisited_cost_mono all res k). lia.
  - intros Hall. specialize (IH Hall).
    rewrite has_app. destruct (has res k'); cbn [orb]; [lia|].
    destruct (has [k] k'); lia.
Qed.

(** Every iteration lowers the measure: the popped name is either dropped,
    or visited for the first time. *)
Lemma resolve_step_decreases (st st' : ResolveState) :
  resolve_step reg st = Some st' ->
  resolve_measure reg st' < resolve_measure reg st.
Proof.
  unfold resolve_step, resolve_measure.
  destruct (toProcess st) as [|nm rest]; [discriminate|].
  cbv zeta.
  destruct (has (resolved st) (toLowerCase nm)) eqn:Hhas.
  - intros [= <-]. simpl. lia.
  - destruct (lookup reg (toLowerCase nm)) as [def|] eqn:Hlook.
    + intros [= <-]. simpl.
      unfold add_elem. rewrite Hhas.
      pose proof (pushDependencies_length (resolved st ++ [toLowerCase nm])
                    (internalDependencies def) rest).
      pose proof (unvisited_cost_visit reg (resolved st) (toLowerCase nm)
                    def def Hlook Hlook Hhas).
      lia.
    + intros [= <-]. simpl. lia.
Qed.

Lemma resolve_loop_enough_fuel (n : nat) (st : ResolveState) :
  resolve_measure reg st < n ->
  exists r, resolve_loop n reg st = Some r /\ toProcess r = [].
Proof.
  revert st. induction n as [|n IH]; intros st Hlt; [lia|].
  simpl. destruct (resolve_step reg st) as [st'|] eqn:Hstep.
  - apply IH. apply resolve_step_decreases in Hstep. lia.
  - exists st. split; [reflexivity|].
    unfold resolve_step in Hstep.
    destruct (toProcess st) as [|nm rest]; [reflexivity|].
    cbv zeta in Hstep.
    destruct (has (resolved st) (toLowerCase nm)); [discriminate|].
    destruct (lookup reg (toLowerCase nm)); discriminate.
Qed.

Lemma resolve_run_total (componentNames : list string) :
  exists r, resolve_run reg componentNames = Some r /\ toProcess r = [].
Proof.
  apply resolve_loop_enough_fuel. unfold resolve_fuel. lia.
Qed.

(** Whatever fuel shows the loop ending gives the function's result. *)
Lemma resolve_run_from_loop (n : nat) (componentNames : list string)
  (r : ResolveState) :
  resolve_loop n reg (resolve_init componentNames) = Some r ->
  resolve_run reg componentNames = Some r.
Proof.
  intros H. destruct (resolve_run_total componentNames) as [r' [Hr' _]].
  rewrite Hr'. f_equal. unfold resolve_run in Hr'.
  exact (resolve_loop_deterministic _ _ _ _ _ Hr' H).
Qed.

(** A property kept by every iteration holds when the loop is left. *)
Lemma resolve_loop_invariant (P : ResolveState -> Prop) :
  (forall st st', P st -> resolve_step reg st = Some st' -> P st') ->
  forall n st r, P st -> resolve_loop n reg st = Some r -> P r.
Proof.
  intros Hstep. induction n as [|n IH]; intros st r HP H; simpl in H.
  - discriminate.
  - destruct (resolve_step reg st) as [st'|] eqn:E.
    + eapply IH; [|exact H]. eapply Hstep; eassumption.
    + now injection H as <-.
Qed.

Lemma pushDependencies_keeps (res deps stack : list string) (x : string) :
  In x stack -> In x (pushDependencies res deps stack).
Proof.
  unfold pushDependencies. revert stack.
  induction deps as [|d deps IH]; intros stack H; simpl; [assumption|].
  destruct (has res d); apply IH; simpl; auto.
Qed.

(** A requested name stays on the stack until it is popped, and a known one
    is visited when it is popped. *)
Lemma resolve_step_keeps_requested (nm : string) (st st' : ResolveState) :
  lookup reg (toLowerCase nm) <> None ->
  In (toLowerCase nm) (resolved st) \/ In nm (toProcess st) ->
  resolve_step reg st = Some st' ->
  In (toLowerCase nm) (resolved st') \/ In nm (toProcess st').
Proof.
  intros Hknown Hinv. unfold resolve_step.
  destruct (toProcess st) as [|top rest] eqn:Hstack; [discriminate|].
  cbv zeta.
  destruct (has (resolved st) (toLowerCase top)) eqn:Hhas.
  - intros [= <-]. simpl. destruct Hinv as [H|[H|H]]; auto.
    subst top. left. now apply has_In.
  - destruct (lookup reg (toLowerCase top)) as [def|] eqn:Hlook.
    + intros [= <-]. simpl. destruct Hinv as [H|[H|H]].
      * left. apply add_elem_In. auto.
      * subst top. left. apply add_elem_In. auto.
      * right. now apply pushDependencies_keeps.
    + intros [= <-]. simpl. destruct Hinv as [H|[H|H]]; auto.
      subst top. contradiction.
Qed.

Lemma resolve_contains_requested (componentNames : list string) (nm : string) :
  In nm componentNames -> lookup reg (toLowerCase nm) <> None ->
  In (toLowerCase nm) (resolveComponentDependencies reg componentNames).
Proof.
  intros Hin Hknown.
  destruct (resolve_run_total componentNames) as [r [Hr Hempty]].
  unfold resolveComponentDependencies. rewrite Hr.
  assert (H : In (toLowerCase nm) (resolved r) \/ In nm (toProcess r)).
  { unfold resolve_run in Hr.
    eapply (resolve_loop_invariant
              (fun st => In (toLowerCase nm) (resolved st) \/ In nm (toProcess st)));
      [| |exact Hr].
    - intros st st' HP Hs.
      eapply resolve_step_keeps_requested; eassumption.
    - right. simpl. now rewrite <- in_rev. }
  rewrite Hempty in H. destruct H as [H|[]]. exact H.
Qed.

(** A component with one dependency that has none itself. *)
Lemma resolve_single_dependency (a b : string) (defA defB : ComponentDefinition) :
  toLowerCase a = a -> toLowerCase b = b ->
  lookup reg a = Some defA -> internalDependencies defA = [b] ->
  lookup reg b = Some defB -> internalDependencies defB = [] ->
  resolve_run reg [a] = Some (mkResolve [a; b] [] []).
Proof.
  intros La Lb HA HdA HB HdB.
  assert (Hab : String.eqb b a = false).
  { destruct (String.eqb b a) eqn:E; [|reflexivity].
    apply String.eqb_eq in E. subst b. congruence. }
  apply resolve_run_from_loop with (n := 3).
  unfold resolve_init. simpl.
  unfold resolve_step at 1. simpl. rewrite La, HA, HdA. simpl.
  rewrite Hab. simpl.
  unfold resolve_step at 1. simpl. rewrite Lb, Hab, HB, HdB. simpl.
  unfold add_elem. simpl. rewrite Hab. reflexivity.
Qed.

Lemma getNpmDependencies_pair (a b : string) (defA defB : ComponentDefinition) :
  toLowerCase a = a -> toLowerCase b = b ->
  lookup reg a = Some defA -> lookup reg b = Some defB ->
  let deps := getNpmDependencies reg [a; b] in
  NoDup deps
  /\ forall p, In p deps <-> In p (dependencies defA) \/ In p (dependencies defB).
Proof.
  intros La Lb HA HB. unfold getNpmDependencies. simpl.
  rewrite La, Lb, HA, HB. split.
  - apply fold_add_elem_NoDup, fold_add_elem_NoDup. constructor.
  - intros p. rewrite !fold_add_elem_In. simpl. tauto.
Qed.

End Resolver.

(** A registry whose two entries depend on each other. *)
Example resolve_cyclic_registry :
  let cyclic :=
    [ ("a", mkComponent "A" "" [] ["b"] ["A.tsx"]);
      ("b", mkComponent "B" "" [] ["a"] ["B.tsx"]) ] in
  resolve_run cyclic ["a"] = Some (mkResolve ["a"; "b"] [] []).
Proof. vm_compute. reflexivity. Qed.

(** C1.  For every two entries A and B of the registry where A's
    [internalDependencies] is exactly [B] and B's is empty, resolving [A]
    gives A and B (A first), and [getNpmDependencies] on that result is the
    union of A's and B's [dependencies], every package once.  Resolving
    ["carousel"] gives ["carousel"; "button"]. *)
Theorem dependency_closure_of_one_dependency :
  (forall (a b : string) (defA defB : ComponentDefinition),
      lookup registry a = Some defA -> internalDependencies defA = [b] ->
      lookup registry b = Some defB -> internalDependencies defB = [] ->
      resolveComponentDependencies registry [a] = [a; b]
      /\ NoDup (getNpmDependencies registry
                  (resolveComponentDependencies registry [a]))
      /\ forall p,
           In p (getNpmDependencies registry
                   (resolveComponentDependencies registry [a]))
           <-> In p (dependencies defA) \/ In p (dependencies defB))
  /\ resolveComponentDependencies registry ["carousel"] = ["carousel"; "button"].
Proof.
  split.
  - intros a b defA defB HA HdA HB HdB.
    pose proof (registry_lookup_lowercase _ _ HA) as La.
    pose proof (registry_lookup_lowercase _ _ HB) as Lb.
    pose proof (resolve_single_dependency registry a b defA defB
                  La Lb HA HdA HB HdB) as Hrun.
    unfold resolveComponentDependencies. rewrite Hrun. cbn [resolved].
    split; [reflexivity|].
    exact (getNpmDependencies_pair registry a b defA defB La Lb HA HB).
  - vm_compute. reflexivity.
Qed.

Lemma dependency_closure_of_one_dependency_witness :
  resolveComponentDependencies registry ["alertdialog"]
  = ["alertdialog"; "button"]
  /\ NoDup (getNpmDependencies registry
              (resolveComponentDependencies registry ["alertdialog"])).
Proof.
  destruct (proj1 dependency_closure_of_one_dependency
              "alertdialog" "button"
              (mkComponent "AlertDialog"
                 "A modal dialog that interrupts the user with important content"
                 ["lucide-react"] ["button"] ["AlertDialog.tsx"])
              (mkComponent "Button"
                 "A clickable button with multiple variants and ripple effect"
                 [] [] ["Button.tsx"])
              eq_refl eq_refl eq_refl eq_refl) as [H1 [H2 _]].
  split; assumption.
Defined.

(** ** Inherited names in the resolver *)

(** On a name that is not an inherited property name, [registry[key]] is
    what [lookup] finds among the own keys. *)
Lemma property_plain (reg : Registry) (nm : string) :
  plainNames [nm] = true ->
  property reg (toLowerCase nm)
  = match lookup reg (toLowerCase nm) with
    | Some component => Own component
    | None => Undefined
    end.
Proof.
  cbn [plainNames forallb]. rewrite andb_true_r, negb_true_iff.
  intros H. unfold property. now rewrite H.
Qed.

Lemma resolve_turn_cases (reg : Registry) (st : ResolveState) :
  resolve_turn reg st = TypeError
  \/ resolve_turn reg st
     = match resolve_step reg st with
       | Some st' => Turned st'
       | None => LoopLeft
       end.
Proof.
  unfold resolve_turn, resolve_step, property.
  destruct (toProcess st) as [|nm rest]; [now right|]. cbv zeta.
  destruct (has (resolved st) (toLowerCase nm)); [now right|].
  destruct (lookup reg (toLowerCase nm)); [now right|].
  destruct (inheritedKey (toLowerCase nm)); [now left | now right].
Qed.

Lemma resolve_turn_plain (reg : Registry) (st : ResolveState) :
  plainNames (toProcess st) = true ->
  resolve_turn reg st
  = match resolve_step reg st with
    | Some st' => Turned st'
    | None => LoopLeft
    end.
Proof.
  unfold resolve_turn, resolve_step, property.
  destruct (toProcess st) as [|nm rest]; [reflexivity|]. cbv zeta.
  cbn [plainNames forallb]. intros H. apply andb_prop in H.
  destruct H as [H _]. apply negb_true_iff in H.
  destruct (has (resolved st) (toLowerCase nm)); [reflexivity|].
  destruct (lookup reg (toLowerCase nm)); [reflexivity|]. now rewrite H.
Qed.

Lemma pushDependencies_plain (res deps stack : list string) :
  plainNames deps = true -> plainNames stack = true ->
  plainNames (pushDependencies res deps stack) = true.
Proof.
  unfold pushDependencies. revert stack.
  induction deps as [|d deps IH]; intros stack Hd Hs; [exact Hs|].
  cbn [plainNames forallb] in Hd. apply andb_prop in Hd.
  destruct Hd as [Hd1 Hd2]. cbn [fold_left]. apply IH; [exact Hd2|].
  destruct (has res d); [exact Hs|].
  cbn [plainNames forallb]. now rewrite Hd1.
Qed.

Lemma resolve_step_plain (reg : Registry) (st st' : ResolveState) :
  plainDependencies reg = true ->
  plainNames (toProcess st) = true ->
  resolve_step reg st = Some st' ->
  plainNames (toProcess st') = true.
Proof.
  intros Hreg Hst. unfold resolve_step.
  destruct (toProcess st) as [|nm rest]; [discriminate|]. cbv zeta.
  cbn [plainNames forallb] in Hst. apply andb_prop in Hst.
  destruct Hst as [_ Hrest].
  destruct (has (resolved st) (toLowerCase nm)).
  - intros [= <-]. exact Hrest.
  - destruct (lookup reg (toLowerCase nm)) as [component|] eqn:E.
    + intros [= <-]. cbn [toProcess].
      apply pushDependencies_plain; [|exact Hrest].
      apply lookup_In in E. unfold plainDependencies in Hreg.
      rewrite forallb_forall in Hreg. exact (Hreg _ E).
    + intros [= <-]. exact Hrest.
Qed.

Lemma resolve_turns_plain (reg : Registry) :
  plainDependencies reg = true ->
  forall (fuel : nat) (st : ResolveState),
    plainNames (toProcess st) = true ->
    resolve_turns fuel reg st
    = match resolve_loop fuel reg st with
      | Some st' => Some (Returned (resolved st') (warned st'))
      | None => None
      end.
Proof.
  intros Hreg. induction fuel as [|fuel IH]; intros st Hst; [reflexivity|].
  cbn [resolve_turns resolve_loop]. rewrite (resolve_turn_plain reg st Hst).
  destruct (resolve_step reg st) as [st'|] eqn:E; [|reflexivity].
  apply IH. exact (resolve_step_plain reg st st' Hreg Hst E).
Qed.

Lemma plainNames_rev (names : list string) :
  plainNames names = true -> plainNames (rev names) = true.
Proof.
  unfold plainNames. rewrite !forallb_forall.
  intros H x Hx. apply H. now apply in_rev.
Qed.

(** Without inherited names the call returns, and [resolveComponentDependencies]
    and [resolveWarnings] are what it returns and what it warns. *)
Lemma resolveOutcome_plain (reg : Registry) (componentNames : list string) :
  plainNames componentNames = true -> plainDependencies reg = true ->
  resolveOutcome reg componentNames
  = Some (Returned (resolveComponentDependencies reg componentNames)
            (resolveWarnings reg componentNames)).
Proof.
  intros Hnames Hreg. unfold resolveOutcome.
  rewrite (resolve_turns_plain reg Hreg)
    by (cbn [resolve_init toProcess]; now apply plainNames_rev).
  destruct (resolve_run_total reg componentNames) as [st [Hrun _]].
  unfold resolveComponentDependencies, resolveWarnings. rewrite Hrun.
  unfold resolve_run in Hrun. now rewrite Hrun.
Qed.

Lemma resolve_turns_total (reg : Registry) (fuel : nat) :
  forall st st',
    resolve_loop fuel reg st = Some st' ->
    exists out, resolve_turns fuel reg st = Some out.
Proof.
  induction fuel as [|fuel IH]; intros st st' H; [discriminate|].
  cbn [resolve_turns resolve_loop] in *.
  destruct (resolve_turn_cases reg st) as [E|E]; rewrite E.
  - eexists. reflexivity.
  - destruct (resolve_step reg st) as [st1|].
    + exact (IH st1 st' H).
    + eexists. reflexivity.
Qed.

Lemma registry_plainDependencies : plainDependencies registry = true.
Proof. vm_compute. reflexivity. Qed.

(** C4, where the code departs from it.  The call of the resolver always
    ends, and for names that are not inherited property names it does what
    C4 says: it returns, its result holds every requested id the registry
    knows, and resolving ["button"; "not-a-real-component"] gives exactly
    ["button"] and one diagnostic.  But [constructor] is an unknown id too,
    and on it the call raises a [TypeError] instead of warning: the valid
    [button] beside it is not returned, whether it is processed before or
    after.  The same holds of [__proto__]. *)
Theorem unknown_inherited_id_raises :
  (forall (reg : Registry) (componentNames : list string),
      exists out, resolveOutcome reg componentNames = Some out)
  /\ (forall (reg : Registry) (componentNames : list string),
         plainNames componentNames = true -> plainDependencies reg = true ->
         resolveOutcome reg componentNames
         = Some (Returned (resolveComponentDependencies reg componentNames)
                   (resolveWarnings reg componentNames))
         /\ forall nm, In nm componentNames ->
                       lookup reg (toLowerCase nm) <> None ->
                       In (toLowerCase nm)
                          (resolveComponentDependencies reg componentNames))
  /\ resolveOutcome registry ["button"; "not-a-real-component"]
     = Some (Returned ["button"] ["Unknown component: not-a-real-component"])
  /\ lookup registry "constructor" = None
  /\ resolveOutcome registry ["button"; "constructor"] = Some (Raised [])
  /\ resolveOutcome registry ["constructor"; "button"] = Some (Raised [])
  /\ resolveOutcome registry ["constructor"; "not-a-real-component"]
     = Some (Raised ["Unknown component: not-a-real-component"])
  /\ resolveOutcome registry ["button"; "__proto__"] = Some (Raised []).
Proof.
  split; [|split; [|repeat split; vm_compute; reflexivity]].
  - intros reg componentNames.
    destruct (resolve_run_total reg componentNames) as [st [Hrun _]].
    exact (resolve_turns_total reg _ _ st Hrun).
  - intros reg componentNames Hnames Hreg. split.
    + now apply resolveOutcome_plain.
    + intros nm Hin Hknown. now apply resolve_contains_requested.
Qed.

Lemma unknown_inherited_id_raises_witness :
  resolveOutcome registry ["Card"; "nope"; "no-such"]
  = Some (Returned (resolveComponentDependencies registry
                      ["Card"; "nope"; "no-such"])
            (resolveWarnings registry ["Card"; "nope"; "no-such"]))
  /\ In "card" (resolveComponentDependencies registry ["Card"; "nope"; "no-such"]).
Proof.
  destruct (proj1 (proj2 unknown_inherited_id_raises) registry
              ["Card"; "nope"; "no-such"] eq_refl registry_plainDependencies)
    as [H1 H2].
  split; [exact H1|].
  apply (H2 "Card").
  - simpl. auto.
  - vm_compute. discriminate.
Defined.

(** C5.  The loop of [resolveComponentDependencies] ends for every list of
    names and every registry, cyclic or not: with [resolve_fuel] tests of
    its condition, or any larger number, it is left with an empty stack, and
    the state it is left in holds the function's result. *)
Theorem resolve_terminates (reg : Registry) (componentNames : list string) :
  exists st,
    (forall n, resolve_fuel reg componentNames <= n ->
               resolve_loop n reg (resolve_init componentNames) = Some st)
    /\ toProcess st = []
    /\ resolveComponentDependencies reg componentNames = resolved st
    /\ resolveWarnings reg componentNames = warned st.
Proof.
  destruct (resolve_run_total reg componentNames) as [st [Hrun Hempty]].
  exists st. repeat split.
  - intros n Hn. eapply resolve_loop_more_fuel; [exact Hrun | exact Hn].
  - exact Hempty.
  - unfold resolveComponentDependencies. now rewrite Hrun.
  - unfold resolveWarnings. now rewrite Hrun.
Qed.

(** ** The manifest *)

Lemma insert_sorted_perm (x : string) (l : list string) :
  Permutation (x :: l) (insert_sorted x l).
Proof.
  induction l as [|y l IH]; simpl; [reflexivity|].
  destruct (String.leb x y); [reflexivity|].
  rewrite perm_swap. now constructor.
Qed.

Lemma sort_perm (l : list string) : Permutation l (sort l).
Proof.
  induction l as [|x l IH]; simpl; [constructor|].
  rewrite <- insert_sorted_perm. now constructor.
Qed.

Lemma insert_sorted_ordered (x : string) (l : list string) :
  ordered l -> ordered (insert_sorted x l).
Proof.
  unfold ordered. induction l as [|y l IH]; intros H; simpl.
  - repeat constructor.
  - destruct (String.leb x y) eqn:E.
    + constructor; [assumption | now constructor].
    + inversion H as [|? ? Hs Hh]; subst. constructor; [now apply IH|].
      destruct l as [|z l]; simpl.
      * constructor. destruct (String.leb_total x y); congruence.
      * destruct (String.leb x z).
        -- constructor. destruct (String.leb_total x y); congruence.
        -- constructor. now inversion Hh.
Qed.

Lemma sort_ordered (l : list string) : ordered (sort l).
Proof.
  induction l as [|x l IH]; simpl.
  - constructor.
  - now apply insert_sorted_ordered.
Qed.

Lemma count_once (l : list string) (x : string) :
  NoDup l -> In x l -> count_occ string_dec l x = 1.
Proof.
  intros Hnd Hin.
  pose proof (proj1 (NoDup_count_occ string_dec l) Hnd x).
  pose proof (proj1 (count_occ_In string_dec l x) Hin). lia.
Qed.

Lemma NoDup_snoc (l : list string) (x : string) :
  NoDup l -> ~ In x l -> NoDup (l ++ [x]).
Proof.
  intros Hnd Hin. apply (Permutation_NoDup (l := x :: l)).
  - apply Permutation_cons_append.
  - now constructor.
Qed.

(** What [addInstalledComponent] does on a readable manifest. *)
Lemma addInstalledComponent_present (id : string) (w : World)
  (config : DiamantConfig) :
  manifest w = Parsed config -> In id (installedComponents config) ->
  addInstalledComponent id w = (Ok tt, w).
Proof.
  intros Hm Hin. unfold addInstalledComponent, bind, readConfig. rewrite Hm.
  apply has_In in Hin. rewrite Hin. reflexivity.
Qed.

Lemma addInstalledComponent_absent (id : string) (w : World)
  (config : DiamantConfig) :
  manifest w = Parsed config -> ~ In id (installedComponents config) ->
  addInstalledComponent id w
  = writeConfig
      (set_installed config (sort (installedComponents config ++ [id]))) w.
Proof.
  intros Hm Hin. unfold addInstalledComponent, bind, readConfig. rewrite Hm.
  apply has_false_In in Hin. rewrite Hin. reflexivity.
Qed.

(** C3.  [addInstalledComponent] is idempotent.  On a manifest without
    duplicates, two calls leave the id exactly once in
    [installedComponents] and the second call changes nothing; a call on an
    id already listed writes nothing; a call on an id not yet listed writes
    one document, whose list is the old one with the id, sorted. *)
Theorem addInstalledComponent_idempotent (id : string) (w : World)
  (config : DiamantConfig) :
  manifest w = Parsed config ->
  NoDup (installedComponents config) ->
  let once := addInstalledComponent id w in
  let twice := addInstalledComponent id (snd once) in
  fst once = Ok tt /\ fst twice = Ok tt
  /\ (exists config', manifest (snd twice) = Parsed config'
        /\ count_occ string_dec (installedComponents config') id = 1)
  /\ snd twice = snd once
  /\ (In id (installedComponents config) -> snd once = w)
  /\ (~ In id (installedComponents config) ->
      exists l,
        Permutation (installedComponents config ++ [id]) l /\ ordered l
        /\ manifest (snd once) = Parsed (set_installed config l)
        /\ configWrites (snd once) = configWrites w ++ [set_installed config l]
        /\ disk (snd once) = disk w /\ console (snd once) = console w).
Proof.
  intros Hm Hnd once twice.
  destruct (in_dec string_dec id (installedComponents config)) as [Hin|Hout].
  - assert (E1 : once = (Ok tt, w))
      by exact (addInstalledComponent_present id w config Hm Hin).
    assert (E2 : twice = (Ok tt, w)).
    { unfold twice. rewrite E1.
      exact (addInstalledComponent_present id w config Hm Hin). }
    rewrite E1, E2. simpl. repeat split; auto.
    + exists config. split; [assumption | now apply count_once].
    + intros Hn. contradiction.
  - set (l := sort (installedComponents config ++ [id])).
    assert (Hperm : Permutation (installedComponents config ++ [id]) l)
      by apply sort_perm.
    assert (Hl : In id l).
    { apply (Permutation_in _ Hperm), in_app_iff. right. simpl. auto. }
    assert (E1 : once = writeConfig (set_installed config l) w)
      by exact (addInstalledComponent_absent id w config Hm Hout).
    assert (E2 : twice = (Ok tt, snd once)).
    { unfold twice. rewrite E1.
      apply (addInstalledComponent_present id _ (set_installed config l));
        [reflexivity | exact Hl]. }
    rewrite E2, E1. simpl. repeat split; auto.
    + exists (set_installed config l). split; [reflexivity|]. simpl.
      apply count_once; [|exact Hl].
      apply (Permutation_NoDup Hperm), NoDup_snoc; assumption.
    + intros Hn. contradiction.
    + intros _. exists l. repeat split; auto. apply sort_ordered.
Qed.

Lemma addInstalledComponent_idempotent_witness :
  exists config',
    manifest
      (snd (addInstalledComponent "button"
              (snd (addInstalledComponent "button"
                      (mkWorld
                         (Parsed (mkConfig true "tailwind.config.js"
                                    "src/app/globals.css" "src/components/ui"
                                    "src/lib" ["card"; "dialog"]))
                         [] [] nextjs [] [])))))
    = Parsed config'
    /\ count_occ string_dec (installedComponents config') "button" = 1.
Proof.
  refine (proj1 (proj2 (proj2
    (addInstalledComponent_idempotent "button"
       (mkWorld
          (Parsed (mkConfig true "tailwind.config.js" "src/app/globals.css"
                     "src/components/ui" "src/lib" ["card"; "dialog"]))
          [] [] nextjs [] [])
       (mkConfig true "tailwind.config.js" "src/app/globals.css"
          "src/components/ui" "src/lib" ["card"; "dialog"])
       eq_refl _)))).
  repeat constructor; simpl; intuition discriminate.
Defined.

(** C10.  When [readConfig] gives [null] (no manifest, or one that does not
    parse), [addInstalledComponent] and [removeInstalledComponent] return
    normally for every id and leave the world as it is: nothing is written
    and nothing is raised. *)
Theorem manifest_helpers_skip_missing_manifest (id : string) (w : World) :
  fst (readConfig w) = Ok None ->
  addInstalledComponent id w = (Ok tt, w)
  /\ removeInstalledComponent id w = (Ok tt, w).
Proof.
  unfold addInstalledComponent, removeInstalledComponent, bind, readConfig.
  simpl. destruct (manifest w); intros H; try discriminate; split; reflexivity.
Qed.

Lemma manifest_helpers_skip_missing_manifest_witness :
  addInstalledComponent "button" (mkWorld Unparseable [] [] unknown [] [])
  = (Ok tt, mkWorld Unparseable [] [] unknown [] [])
  /\ removeInstalledComponent "button" (mkWorld Unparseable [] [] unknown [] [])
     = (Ok tt, mkWorld Unparseable [] [] unknown [] []).
Proof.
  apply (manifest_helpers_skip_missing_manifest "button"
           (mkWorld Unparseable [] [] unknown [] [])).
  reflexivity.
Defined.

(** ** The command monad *)

Lemma bind_Ok {A B} (m : M A) (k : A -> M B) (w w' : World) (a : A) :
  m w = (Ok a, w') -> bind m k w = k a w'.
Proof. intros H. unfold bind. now rewrite H. Qed.

Lemma add_console_nil (w : World) : add_console w [] = w.
Proof. destruct w. unfold add_console. simpl. now rewrite app_nil_r. Qed.

Lemma add_console_app (w : World) (a b : list Msg) :
  add_console (add_console w a) b = add_console w (a ++ b).
Proof. unfold add_console. simpl. now rewrite app_assoc. Qed.

Lemma print_eq (m : Msg) (w : World) : print m w = (Ok tt, add_console w [m]).
Proof. reflexivity. Qed.

Lemma set_disk_same (w : World) : set_disk w (disk w) = w.
Proof. now destruct w. Qed.

Lemma set_installed_same (c : DiamantConfig) :
  set_installed c (installedComponents c) = c.
Proof. now destruct c. Qed.

Lemma loadConfig_parsed (w : World) (config : DiamantConfig) :
  manifest w = Parsed config -> loadConfig w = (Ok config, w).
Proof.
  intros H. unfold loadConfig, bind, configExists, readConfig.
  cbn. rewrite H. cbn. rewrite H. reflexivity.
Qed.

(** ** Files *)

Lemma disk_find_remove (d : list (string * string)) (p q : string) :
  disk_find (disk_remove d p) q
  = if String.eqb q p then None else disk_find d q.
Proof.
  induction d as [|[k c] d IH]; simpl.
  - now destruct (String.eqb q p).
  - destruct (String.eqb k p) eqn:E; simpl.
    + apply String.eqb_eq in E. subst k. rewrite IH.
      rewrite (String.eqb_sym p q). now destruct (String.eqb q p).
    + destruct (String.eqb k q) eqn:E'; [|exact IH].
      apply String.eqb_eq in E'. rewrite <- E', E. reflexivity.
Qed.

Lemma disk_remove_absent (d : list (string * string)) (p : string) :
  disk_find d p = None -> disk_remove d p = d.
Proof.
  induction d as [|[k c] d IH]; simpl; [reflexivity|].
  destruct (String.eqb k p); [discriminate|]. intros H. simpl.
  now rewrite IH.
Qed.

Lemma deleteFile_eq (p : string) (w : World) :
  deleteFile p w = (Ok tt, set_disk w (disk_remove (disk w) p)).
Proof.
  unfold deleteFile, bind, fileExists.
  destruct (disk_find (disk w) p) eqn:E; [reflexivity|].
  unfold ret. now rewrite disk_remove_absent, set_disk_same.
Qed.

Lemma path_join_inj (dir f g : string) :
  path_join dir f = path_join dir g -> f = g.
Proof.
  unfold path_join. induction dir as [|c dir IH]; simpl.
  - now intros [= ->].
  - intros [= H]. now apply IH.
Qed.

(** The inner loop of the deleting pass. *)
Lemma delete_files_spec (dir : string) (fs : list string) (w : World) :
  exists w',
    forEach fs (fun file => deleteFile (path_join dir file)) w = (Ok tt, w')
    /\ manifest w' = manifest w /\ console w' = console w
    /\ configWrites w' = configWrites w
    /\ forall q, disk_find (disk w') q
                 = if has (map (path_join dir) fs) q then None
                   else disk_find (disk w) q.
Proof.
  revert w. induction fs as [|f fs IH]; intros w; simpl.
  - exists w. repeat split; reflexivity.
  - unfold bind at 1. rewrite deleteFile_eq.
    destruct (IH (set_disk w (disk_remove (disk w) (path_join dir f))))
      as [w' (Hrun & Hm & Hc & Hw & Hd)].
    exists w'. rewrite Hrun. repeat split; try assumption.
    intros q. rewrite Hd. simpl. rewrite disk_find_remove.
    destruct (String.eqb q (path_join dir f)); simpl;
      now destruct (has (map (path_join dir) fs) q).
Qed.

(** ** The manifest list under removals *)

Lemma remove_first_In (x y : string) (l : list string) :
  In x l -> x <> y -> In x (remove_first y l).
Proof.
  induction l as [|z l IH]; simpl; [tauto|].
  intros H Hne. destruct (String.eqb z y) eqn:E.
  - apply String.eqb_eq in E. subst z. destruct H; [congruence | assumption].
  - destruct H; [left; assumption | right; now apply IH].
Qed.

Lemma remove_first_incl (x y : string) (l : list string) :
  In x (remove_first y l) -> In x l.
Proof.
  induction l as [|z l IH]; simpl; [tauto|].
  destruct (String.eqb z y); simpl; intuition.
Qed.

Lemma remove_first_NoDup (y : string) (l : list string) :
  NoDup l -> NoDup (remove_first y l).
Proof.
  induction l as [|z l IH]; simpl; intros H; [constructor|].
  inversion H as [|? ? Hz Hl]; subst.
  destruct (String.eqb z y); [assumption|].
  constructor; [|now apply IH].
  intros Hin. apply Hz. eapply remove_first_incl, Hin.
Qed.

Lemma remove_first_gone (y : string) (l : list string) :
  NoDup l -> ~ In y (remove_first y l).
Proof.
  induction l as [|z l IH]; simpl; intros H; [tauto|].
  inversion H as [|? ? Hz Hl]; subst.
  destruct (String.eqb z y) eqn:E.
  - apply String.eqb_eq in E. now subst z.
  - simpl. intros [->|Hin]; [now rewrite String.eqb_refl in E|].
    now apply IH.
Qed.

Lemma remove_all_keeps (x : string) (rm l : list string) :
  In x l -> ~ In x rm ->
  In x (fold_left (fun acc nm => remove_first nm acc) rm l).
Proof.
  revert l. induction rm as [|y rm IH]; intros l Hl Hrm; simpl; [assumption|].
  apply IH.
  - apply remove_first_In; [assumption|]. intros ->. apply Hrm. now left.
  - intros H. apply Hrm. now right.
Qed.

Lemma remove_all_gone (x : string) (rm l : list string) :
  NoDup l -> In x rm ->
  ~ In x (fold_left (fun acc nm => remove_first nm acc) rm l).
Proof.
  assert (Hstay : forall rm l, ~ In x l ->
            ~ In x (fold_left (fun acc nm => remove_first nm acc) rm l)).
  { clear. induction rm as [|y rm IH]; intros l Hl; simpl; [assumption|].
    apply IH. intros H. apply Hl. eapply remove_first_incl, H. }
  revert l. induction rm as [|y rm IH]; intros l Hnd Hin; simpl; [destruct Hin|].
  destruct (string_dec y x) as [->|Hne].
  - apply Hstay. now apply remove_first_gone.
  - apply IH; [now apply remove_first_NoDup|].
    destruct Hin; [congruence | assumption].
Qed.

Lemma removeInstalledComponent_spec (nm : string) (w : World)
  (config : DiamantConfig) :
  manifest w = Parsed config ->
  exists w',
    removeInstalledComponent nm w = (Ok tt, w')
    /\ manifest w'
       = Parsed (set_installed config
                   (remove_first nm (installedComponents config)))
    /\ disk w' = disk w /\ console w' = console w.
Proof.
  intros Hm. unfold removeInstalledComponent, bind, readConfig. rewrite Hm.
  destruct (has (installedComponents config) nm) eqn:E.
  - eexists. split; [reflexivity|]. simpl. auto.
  - exists w. split; [reflexivity|]. split; [|auto].
    rewrite Hm. f_equal.
    assert (R : remove_first nm (installedComponents config)
                = installedComponents config).
    { apply has_false_In in E. revert E.
      induction (installedComponents config) as [|z l IH]; simpl; auto.
      intros Hn. destruct (String.eqb z nm) eqn:E'.
      - apply String.eqb_eq in E'. subst. tauto.
      - f_equal. apply IH. tauto. }
    rewrite R. symmetry. apply set_installed_same.
Qed.

(** ** remove *)

Section Remove.

Variable reg : Registry.

Lemma In_lookup (k : string) (def : ComponentDefinition) :
  In (k, def) reg -> lookup reg k <> None.
Proof.
  induction reg as [|[k' d'] r IH]; simpl; [tauto|].
  intros [[= -> ->]|H].
  - now rewrite String.eqb_refl.
  - destruct (String.eqb k' k); [discriminate | now apply IH].
Qed.

Lemma validate_spec (components : list string) :
  validate reg components
  = (map toLowerCase (filter (known reg) components),
     filter (fun nm => negb (known reg nm)) components).
Proof.
  unfold validate.
  assert (G : forall l v i,
             fold_left
               (fun acc nm =>
                  match lookup reg (toLowerCase nm) with
                  | Some _ => (fst acc ++ [toLowerCase nm], snd acc)
                  | None => (fst acc, snd acc ++ [nm])
                  end) l (v, i)
             = (v ++ map toLowerCase (filter (known reg) l),
                i ++ filter (fun nm => negb (known reg nm)) l)).
  { induction l as [|x l IH]; intros v i; simpl.
    - now rewrite !app_nil_r.
    - destruct (known reg x) eqn:K; unfold known in K;
        destruct (lookup reg (toLowerCase x)); try discriminate; simpl;
        rewrite IH; now rewrite <- app_assoc. }
  apply G.
Qed.

Lemma valid_known (components : list string) (nm : string) :
  In nm (map toLowerCase (filter (known reg) components)) ->
  lookup reg nm <> None.
Proof.
  rewrite in_map_iff. intros [x [<- Hx]]. apply filter_In in Hx.
  destruct Hx as [_ Hk]. unfold known in Hk.
  now destruct (lookup reg (toLowerCase x)).
Qed.

Lemma onDisk_spec (dir : string) (valid : list string) (w : World) :
  hasFiles reg ->
  (forall nm, In nm valid -> lookup reg nm <> None) ->
  onDisk reg dir valid w
  = (Ok (filter (firstFilePresent reg dir (disk w)) valid), w).
Proof.
  intros Hfiles. unfold onDisk.
  assert (G : forall l acc,
             (forall nm, In nm l -> lookup reg nm <> None) ->
             forEachAcc l acc
               (fun installed nm =>
                  match lookup reg nm with
                  | None => throw
                  | Some componentDef =>
                      componentPath <- firstFilePath dir componentDef ;;
                      present <- fileExists componentPath ;;
                      ret (if present then installed ++ [nm] else installed)
                  end) w
             = (Ok (acc ++ filter (firstFilePresent reg dir (disk w)) l), w)).
  { induction l as [|nm l IH]; intros acc Hknown; simpl.
    - unfold ret. now rewrite app_nil_r.
    - assert (Hnm : lookup reg nm <> None) by (apply Hknown; now left).
      unfold firstFilePresent at 1.
      destruct (lookup reg nm) as [def|] eqn:E; [|contradiction].
      pose proof (Hfiles nm def (lookup_In _ _ _ E)) as Hf.
      unfold bind at 1. unfold firstFilePath, fileExists, bind, ret, onDiskAt.
      destruct (files def) as [|f fs]; [contradiction|].
      destruct (disk_find (disk w) (path_join dir f)).
      + rewrite IH by (intros; apply Hknown; now right).
        now rewrite <- app_assoc.
      + rewrite IH by (intros; apply Hknown; now right). reflexivity. }
  intros Hknown. now rewrite G.
Qed.

Lemma displayName_known (nm : string) (w : World) :
  lookup reg nm <> None -> displayName reg nm w = (Ok (displayOf reg nm), w).
Proof.
  unfold displayName, displayOf. now destruct (lookup reg nm).
Qed.

Lemma mapM_displayName (l : list string) (w : World) :
  (forall nm, In nm l -> lookup reg nm <> None) ->
  mapM (displayName reg) l w = (Ok (map (displayOf reg) l), w).
Proof.
  induction l as [|nm l IH]; intros H; simpl; [reflexivity|].
  rewrite (bind_Ok _ _ _ _ _ (displayName_known nm w (H nm (or_introl eq_refl)))).
  rewrite (bind_Ok _ _ _ _ _ (IH (fun x Hx => H x (or_intror Hx)))).
  reflexivity.
Qed.

Lemma dependents_known (allInstalled removing : list string) (x : string) :
  In x (dependents reg allInstalled removing) -> lookup reg x <> None.
Proof.
  unfold dependents. rewrite in_flat_map. intros [nm [_ H]].
  rewrite in_map_iff in H. destruct H as [[k d] [<- H]].
  apply filter_In in H. destruct H as [H _]. simpl.
  eapply In_lookup, H.
Qed.

Lemma dependents_In (allInstalled removing : list string) (c x : string)
  (defX : ComponentDefinition) :
  In c removing -> lookup reg x = Some defX ->
  In c (internalDependencies defX) -> In x allInstalled ->
  ~ In x removing ->
  In x (dependents reg allInstalled removing).
Proof.
  intros Hc Hx Hdep Hall Hrm. unfold dependents. rewrite in_flat_map.
  exists c. split; [assumption|]. rewrite in_map_iff.
  exists (x, defX). split; [reflexivity|]. apply filter_In. split.
  - now apply lookup_In.
  - simpl. apply has_In in Hdep. apply has_In in Hall.
    apply has_false_In in Hrm. now rewrite Hdep, Hall, Hrm.
Qed.

(** The deleting loop: the files of the removed components go, the manifest
    loses the removed ids, nothing is printed. *)
Lemma delete_loop_spec (dir : string) (installed : list string) :
  (forall nm, In nm installed -> lookup reg nm <> None) ->
  forall (w : World) (config : DiamantConfig),
    manifest w = Parsed config ->
    exists w' config',
      forEach installed
        (fun nm =>
           match lookup reg nm with
           | None => throw
           | Some componentDef =>
               forEach (files componentDef)
                 (fun file => deleteFile (path_join dir file)) ;;
               removeInstalledComponent nm
           end) w = (Ok tt, w')
      /\ manifest w' = Parsed config'
      /\ installedComponents config'
         = fold_left (fun acc nm => remove_first nm acc) installed
             (installedComponents config)
      /\ console w' = console w
      /\ forall q, disk_find (disk w') q
                   = if has (deletedPaths reg dir installed) q then None
                     else disk_find (disk w) q.
Proof.
  induction installed as [|nm installed IH]; intros Hknown w config Hm.
  - exists w, config. simpl. repeat split; auto.
  - assert (Hnm : lookup reg nm <> None) by (apply Hknown; now left).
    simpl. destruct (lookup reg nm) as [def|] eqn:E; [|contradiction].
    destruct (delete_files_spec dir (files def) w)
      as [w1 (Hrun1 & Hm1 & Hc1 & _ & Hd1)].
    destruct (removeInstalledComponent_spec nm w1 config)
      as [w2 (Hrun2 & Hm2 & Hd2 & Hc2)]; [congruence|].
    destruct (IH (fun x Hx => Hknown x (or_intror Hx)) w2 _ Hm2)
      as [w' [config' (Hrun & Hm' & Hl & Hc & Hd)]].
    exists w', config'. split; [|repeat split].
    + unfold bind at 1. unfold bind at 1. rewrite Hrun1, Hrun2. exact Hrun.
    + exact Hm'.
    + rewrite Hl. reflexivity.
    + congruence.
    + intros q. rewrite Hd, Hd2, Hd1. rewrite has_app.
      destruct (has (map (path_join dir) (files def)) q); simpl;
        now destruct (has (deletedPaths reg dir installed) q).
Qed.

(** What [removeOnDisk] does when the removal is confirmed. *)
Lemma removeOnDisk_spec (config : DiamantConfig) (installed : list string)
  (yes answer : bool) (w : World) :
  (forall nm, In nm installed -> lookup reg nm <> None) ->
  manifest w = Parsed config ->
  yes = true \/ answer = true ->
  exists w' config',
    removeOnDisk reg config installed yes answer w = (Ok tt, w')
    /\ manifest w' = Parsed config'
    /\ installedComponents config'
       = fold_left (fun acc nm => remove_first nm acc) installed
           (installedComponents config)
    /\ (forall names,
           names = map (displayOf reg)
                     (dependents reg (installedComponents config) installed) ->
           names <> [] -> In (DependOnRemoved names) (console w'))
    /\ forall q, disk_find (disk w') q
                 = if has (deletedPaths reg (aliases_components config) installed) q
                   then None
                   else disk_find (disk w) q.
Proof.
  intros Hknown Hm Hconfirm. unfold removeOnDisk.
  set (deps := dependents reg (installedComponents config) installed).
  set (w1 := add_console w
               (match deps with
                | [] => []
                | _ => [DependOnRemoved (map (displayOf reg) deps)]
                end)).
  assert (H1 : when (negb (Nat.eqb (List.length deps) 0))
                 (names <- mapM (displayName reg) deps ;;
                  print (DependOnRemoved names)) w = (Ok tt, w1)).
  { unfold w1. destruct deps as [|d ds] eqn:Ed.
    - simpl. unfold ret. now rewrite add_console_nil.
    - cbn [List.length Nat.eqb negb when]. unfold bind.
      rewrite mapM_displayName; [reflexivity|].
      intros nm Hnm. apply (dependents_known (installedComponents config) installed).
      fold deps. now rewrite Ed. }
  set (w2 := add_console w1
               (if yes then []
                else [WillBeRemoved (map (displayOf reg) installed)])).
  assert (H2 : (if negb yes then
                  names <- mapM (displayName reg) installed ;;
                  print (WillBeRemoved names) ;;
                  (if negb answer then print RemovalCancelled ;; ret false
                   else ret true)
                else ret true) w1 = (Ok true, w2)).
  { unfold w2. destruct yes; simpl.
    - unfold ret. now rewrite add_console_nil.
    - destruct Hconfirm as [?| ->]; [discriminate|].
      unfold bind. rewrite mapM_displayName by assumption. reflexivity. }
  assert (Hm2 : manifest w2 = Parsed config) by exact Hm.
  destruct (delete_loop_spec (aliases_components config) installed Hknown
              w2 config Hm2) as [w3 [config' (Hrun & Hm3 & Hl & Hc & Hd)]].
  exists (add_console w3 [Removed (List.length installed)]), config'.
  split; [|repeat split].
  - rewrite (bind_Ok _ _ _ _ _ H1). rewrite (bind_Ok _ _ _ _ _ H2).
    cbn [negb]. rewrite (bind_Ok _ _ _ _ _ Hrun). reflexivity.
  - exact Hm3.
  - exact Hl.
  - intros names -> Hne. cbn [console add_console]. rewrite Hc.
    apply in_or_app. left. unfold w2. cbn [console add_console].
    apply in_or_app. left. unfold w1. cbn [console add_console].
    apply in_or_app. right. fold deps in Hne |- *.
    destruct deps; [contradiction Hne; reflexivity|]. now left.
  - intros q. cbn [disk add_console]. exact (Hd q).
Qed.

(** [remove] on a readable manifest, with the results of its first two
    loops written out. *)
Lemma remove_unfold (components : list string) (yes answer : bool) (w : World)
  (config : DiamantConfig) :
  hasFiles reg -> manifest w = Parsed config ->
  let valid := map toLowerCase (filter (known reg) components) in
  let invalid := filter (fun nm => negb (known reg nm)) components in
  let installed :=
    filter (firstFilePresent reg (aliases_components config) (disk w)) valid in
  let w1 := add_console w (unknownNotice invalid) in
  remove reg components yes answer w
  = if Nat.eqb (List.length valid) 0 then print NoValidComponents w1
    else if Nat.eqb (List.length installed) 0 then print NoneInstalled w1
         else removeOnDisk reg config installed yes answer w1.
Proof.
  intros Hfiles Hm valid invalid installed w1. unfold remove.
  rewrite (bind_Ok _ _ _ _ _ (loadConfig_parsed w config Hm)).
  rewrite validate_spec. fold valid invalid.
  assert (H1 : when (negb (Nat.eqb (List.length invalid) 0))
                 (print (UnknownComponents invalid)) w = (Ok tt, w1)).
  { unfold w1, unknownNotice. destruct invalid; simpl.
    - unfold ret. now rewrite add_console_nil.
    - reflexivity. }
  rewrite (bind_Ok _ _ _ _ _ H1).
  destruct (Nat.eqb (List.length valid) 0); [reflexivity|].
  assert (H2 : onDisk reg (aliases_components config) valid w1
               = (Ok installed, w1)).
  { apply onDisk_spec; [assumption|]. apply valid_known. }
  rewrite (bind_Ok _ _ _ _ _ H2).
  now destruct (Nat.eqb (List.length installed) 0).
Qed.

End Remove.

Lemma registry_hasFiles : hasFiles registry.
Proof.
  assert (F : Forall (fun e => files (snd e) <> []) registry)
    by (repeat constructor; discriminate).
  rewrite Forall_forall in F. intros k def H. exact (F _ H).
Qed.

Lemma NoDup_app_disjoint {A} (l1 l2 : list A) :
  NoDup (l1 ++ l2) -> NoDup l2 /\ forall a, In a l1 -> ~ In a l2.
Proof.
  induction l1 as [|x l1 IH]; simpl; intros H.
  - split; [assumption | tauto].
  - inversion H as [|? ? Hx Hl]; subst. destruct (IH Hl) as [H2 Hd].
    split; [assumption|]. intros a [->|Ha]; [|now apply Hd].
    intros Hin. apply Hx, in_or_app. now right.
Qed.

Lemma flat_map_NoDup_owner {A B} (g : A -> list B) (l : list A) (e1 e2 : A)
  (y : B) :
  NoDup (flat_map g l) -> In e1 l -> In e2 l -> In y (g e1) -> In y (g e2) ->
  e1 = e2.
Proof.
  induction l as [|e l IH]; simpl; [tauto|].
  intros Hnd H1 H2 Hy1 Hy2.
  apply NoDup_app_disjoint in Hnd. destruct Hnd as (Ht & Hdisj).
  destruct H1 as [->|H1], H2 as [->|H2]; auto.
  - exfalso. apply (Hdisj y Hy1). apply in_flat_map. eauto.
  - exfalso. apply (Hdisj y Hy2). apply in_flat_map. eauto.
Qed.

Lemma registry_files_NoDup : NoDup (flat_map (fun e => files (snd e)) registry).
Proof.
  apply (NoDup_count_occ string_dec). intros x.
  destruct (in_dec string_dec x (flat_map (fun e => files (snd e)) registry))
    as [Hin|Hout].
  - simpl in Hin.
    repeat (destruct Hin as [<-|Hin]; [vm_compute; lia|]). destruct Hin.
  - apply (count_occ_not_In string_dec) in Hout. lia.
Qed.

(** In the registry a file belongs to one component. *)
Lemma registry_file_owner (k1 k2 f : string) (d1 d2 : ComponentDefinition) :
  lookup registry k1 = Some d1 -> lookup registry k2 = Some d2 ->
  In f (files d1) -> In f (files d2) -> k1 = k2.
Proof.
  intros H1 H2 F1 F2. apply lookup_In in H1. apply lookup_In in H2.
  pose proof (flat_map_NoDup_owner (fun e => files (snd e)) registry
                (k1, d1) (k2, d2) f registry_files_NoDup H1 H2 F1 F2) as E.
  now injection E.
Qed.

Lemma requested_valid (reg : Registry) (components : list string) (c : string) :
  In c (map toLowerCase components) -> lookup reg c <> None ->
  In c (map toLowerCase (filter (known reg) components)).
Proof.
  rewrite !in_map_iff. intros [nm [<- Hnm]] Hk. exists nm.
  split; [reflexivity|]. apply filter_In. split; [assumption|].
  unfold known. now destruct (lookup reg (toLowerCase nm)).
Qed.

Lemma valid_requested (reg : Registry) (components : list string) (c : string) :
  In c (map toLowerCase (filter (known reg) components)) ->
  In c (map toLowerCase components).
Proof.
  rewrite !in_map_iff. intros [nm [<- Hnm]]. exists nm.
  split; [reflexivity|]. now apply filter_In in Hnm.
Qed.

Lemma deletedPaths_In (reg : Registry) (dir : string) (installed : list string)
  (c f : string) (def : ComponentDefinition) :
  In c installed -> lookup reg c = Some def -> In f (files def) ->
  In (path_join dir f) (deletedPaths reg dir installed).
Proof.
  intros Hc Hl Hf. unfold deletedPaths. apply in_flat_map. exists c.
  split; [assumption|]. rewrite Hl. now apply in_map.
Qed.

Lemma length_zero_false {A} (l : list A) (x : A) :
  In x l -> Nat.eqb (List.length l) 0 = false.
Proof. destruct l; simpl; [tauto | reflexivity]. Qed.



(** ** Components requested for removal but absent from disk *)

Lemma filter_keep_invalid (reg : Registry) (dir : string)
  (d : list (string * string)) (l : list string) :
  filter (fun nm => negb (known reg nm))
    (filter (fun nm => negb (knownButAbsent reg dir d nm)) l)
  = filter (fun nm => negb (known reg nm)) l.
Proof.
  induction l as [|x l IH]; simpl; [reflexivity|].
  unfold knownButAbsent at 1.
  destruct (known reg x) eqn:K; simpl.
  - destruct (firstFilePresent reg dir d (toLowerCase x)); simpl;
      [rewrite K; simpl|]; exact IH.
  - rewrite K. simpl. now rewrite IH.
Qed.

Lemma filter_keep_present (reg : Registry) (dir : string)
  (d : list (string * string)) (l : list string) :
  filter (firstFilePresent reg dir d)
    (map toLowerCase
       (filter (known reg)
          (filter (fun nm => negb (knownButAbsent reg dir d nm)) l)))
  = filter (firstFilePresent reg dir d) (map toLowerCase (filter (known reg) l)).
Proof.
  induction l as [|x l IH]; simpl; [reflexivity|].
  unfold knownButAbsent at 1.
  destruct (known reg x) eqn:K; simpl.
  - destruct (firstFilePresent reg dir d (toLowerCase x)) eqn:P; simpl.
    + rewrite K. simpl. rewrite P. now rewrite IH.
    + exact IH.
  - rewrite K. exact IH.
Qed.

(** C7, as the code has it, for a request without inherited property names
    in a project whose components directory is given in normal form.  A
    valid requested id whose first file is not on disk is left out of the
    deletions, without a message of its own.  When
    some requested id is on disk, [remove] runs exactly as if the absent ones
    had not been requested, and, once confirmed, leaves their manifest
    entries in place.  When none is, the command prints its notice that none
    of the components is installed, and changes nothing else. *)
Theorem remove_leaves_out_absent_components
  (components : list string) (yes answer : bool) (w : World)
  (config : DiamantConfig) :
  manifest w = Parsed config ->
  plainNames components = true ->
  normalPath (aliases_components config) = true ->
  let dir := aliases_components config in
  let requestedOnDisk :=
    filter (firstFilePresent registry dir (disk w))
      (map toLowerCase (filter (known registry) components)) in
  let out := remove registry components yes answer w in
  (requestedOnDisk <> [] ->
   out = remove registry
           (filter (fun nm => negb (knownButAbsent registry dir (disk w) nm))
              components)
           yes answer w
   /\ (yes = true \/ answer = true ->
       exists config',
         fst out = Ok tt /\ manifest (snd out) = Parsed config'
         /\ forall id, In id components ->
                       knownButAbsent registry dir (disk w) id = true ->
                       In (toLowerCase id) (installedComponents config) ->
                       In (toLowerCase id) (installedComponents config')))
  /\ (requestedOnDisk = [] ->
      existsb (known registry) components = true ->
      out = (Ok tt,
             add_console w
               (unknownNotice
                  (filter (fun nm => negb (known registry nm)) components)
                ++ [NoneInstalled]))).
Proof.
  intros Hm _ _ dir requestedOnDisk out. unfold out.
  rewrite (remove_unfold registry components yes answer w config
             registry_hasFiles Hm).
  fold dir. fold requestedOnDisk. split.
  - intros Hne. split.
    + rewrite (remove_unfold registry _ yes answer w config
                 registry_hasFiles Hm).
      fold dir. rewrite filter_keep_invalid, filter_keep_present.
      fold requestedOnDisk.
      destruct requestedOnDisk as [|r rs] eqn:E; [contradiction|].
      assert (Hr : In r requestedOnDisk) by (rewrite E; now left).
      unfold requestedOnDisk in Hr.
      assert (Hr' := Hr).
      rewrite <- (filter_keep_present registry dir (disk w)) in Hr'.
      apply filter_In in Hr. destruct Hr as [Hr _].
      apply filter_In in Hr'. destruct Hr' as [Hr' _].
      rewrite (length_zero_false _ r Hr), (length_zero_false _ r Hr').
      reflexivity.
    + intros Hconfirm.
      destruct requestedOnDisk as [|r rs] eqn:E; [contradiction|].
      assert (Hr : In r requestedOnDisk) by (rewrite E; now left).
      unfold requestedOnDisk in Hr. apply filter_In in Hr. destruct Hr as [Hr _].
      rewrite (length_zero_false _ r Hr). cbn [List.length Nat.eqb].
      rewrite <- E.
      assert (Hknown : forall nm, In nm requestedOnDisk ->
                                  lookup registry nm <> None).
      { intros nm H. apply filter_In in H. destruct H as [H _].
        eapply valid_known, H. }
      destruct (removeOnDisk_spec registry config requestedOnDisk yes answer
                  (add_console w
                     (unknownNotice
                        (filter (fun nm => negb (known registry nm)) components)))
                  Hknown Hm Hconfirm)
        as [w' [config' (Hrun & Hm' & Hl & _ & _)]].
      exists config'. rewrite Hrun. cbn [fst snd].
      split; [reflexivity|]. split; [assumption|].
      intros id Hid Habs Hin. rewrite Hl. apply remove_all_keeps; [assumption|].
      intros H. apply filter_In in H. destruct H as [_ H].
      unfold knownButAbsent in Habs. fold dir in Habs. rewrite H in Habs.
      now rewrite andb_false_r in Habs.
  - intros Hnone Hsome. rewrite Hnone. cbn [List.length Nat.eqb].
    assert (Hv : Nat.eqb (List.length
                   (map toLowerCase (filter (known registry) components))) 0
                 = false).
    { apply existsb_exists in Hsome. destruct Hsome as [nm [Hnm Hk]].
      apply (length_zero_false _ (toLowerCase nm)).
      apply in_map, filter_In. auto. }
    rewrite Hv. rewrite print_eq, add_console_app. reflexivity.
Qed.

Lemma remove_leaves_out_absent_components_witness :
  remove registry ["button"; "card"] true false
    (sampleWorld ["button"; "card"]
       [("src/components/ui/Button.tsx", "button source")])
  = remove registry ["button"] true false
      (sampleWorld ["button"; "card"]
         [("src/components/ui/Button.tsx", "button source")]).
Proof.
  refine (proj1 (proj1 (remove_leaves_out_absent_components
                          ["button"; "card"] true false
                          (sampleWorld ["button"; "card"]
                             [("src/components/ui/Button.tsx", "button source")])
                          (sampleConfig ["button"; "card"]) eq_refl eq_refl
                          eq_refl) _)).
  vm_compute. discriminate.
Defined.

(** C7, as stated, fails: with button on disk and card not, [remove] of both
    prints one line, the count of removed components, and nothing about
    card. *)
Lemma remove_says_nothing_about_absent_component :
  let w := sampleWorld ["button"; "card"]
             [("src/components/ui/Button.tsx", "button source")] in
  let out := remove registry ["button"; "card"] true false w in
  known registry "card" = true
  /\ firstFilePresent registry "src/components/ui" (disk w) "card" = false
  /\ fst out = Ok tt
  /\ console (snd out) = [Removed 1]
  /\ manifest (snd out) = Parsed (sampleConfig ["card"]).
Proof. vm_compute. repeat split; reflexivity. Qed.

(** ** update and diff *)

Section Reconcile.

Variable diffLines : string -> string -> list Change.
Variable reg : Registry.
Hypothesis reg_hasFiles : hasFiles reg.
Variables componentsDir sourceDir utilsImportPath : string.

Lemma checkOne_spec (acc : list (string * bool)) (nm : string) (w : World) :
  checkOne reg componentsDir sourceDir utilsImportPath acc nm w
  = (Ok (acc ++ checkLine reg componentsDir sourceDir utilsImportPath
                  (disk w) nm), w).
Proof.
  unfold checkOne, checkLine. cbv zeta.
  destruct (lookup reg (toLowerCase nm)) as [def|] eqn:E.
  - pose proof (reg_hasFiles _ _ (lookup_In _ _ _ E)) as Hf.
    unfold firstFilePath, fileExists, readFile, try_catch, bind, ret.
    destruct (files def) as [|f fs]; [contradiction|]. cbv beta iota.
    destruct (disk_find (disk w) (path_join componentsDir f)) eqn:L;
      cbn [negb]; cbv beta iota; [|now rewrite app_nil_r].
    rewrite L.
    destruct (disk_find (disk w) (path_join sourceDir f)) eqn:S;
      [reflexivity | now rewrite app_nil_r].
  - unfold ret. now rewrite app_nil_r.
Qed.

Lemma checkForUpdates_spec (components : list string) (w : World) :
  checkForUpdates reg componentsDir sourceDir utilsImportPath components w
  = (Ok (flat_map
           (checkLine reg componentsDir sourceDir utilsImportPath (disk w))
           components), w).
Proof.
  unfold checkForUpdates.
  change (flat_map
            (checkLine reg componentsDir sourceDir utilsImportPath (disk w))
            components)
    with ([] ++ flat_map
            (checkLine reg componentsDir sourceDir utilsImportPath (disk w))
            components).
  generalize (@nil (string * bool)) as acc.
  induction components as [|nm l IH]; intros acc; simpl.
  - unfold ret. now rewrite app_nil_r.
  - rewrite (bind_Ok _ _ _ _ _ (checkOne_spec acc nm w)).
    rewrite IH. now rewrite <- app_assoc.
Qed.

Lemma statusOne_spec (acc : bool) (nm : string) (w : World) :
  exists hasModified,
    statusOne diffLines reg componentsDir sourceDir utilsImportPath acc nm w
    = (Ok hasModified,
       add_console w
         (statusLine diffLines reg componentsDir sourceDir utilsImportPath
            (disk w) nm)).
Proof.
  unfold statusOne, statusLine.
  destruct (lookup reg nm) as [def|] eqn:E.
  - pose proof (reg_hasFiles _ _ (lookup_In _ _ _ E)) as Hf.
    unfold firstFilePath, fileExists, readFile, try_catch, bind, ret.
    destruct (files def) as [|f fs]; [contradiction|]. cbv beta iota.
    destruct (disk_find (disk w) (path_join componentsDir f)) as [lc|] eqn:L;
      cbn [negb]; cbv beta iota; [|eexists; reflexivity].
    rewrite L.
    destruct (disk_find (disk w) (path_join sourceDir f)) as [sc|] eqn:S;
      [|eexists; reflexivity].
    cbv zeta.
    destruct (negb (differs lc (rewriteImports sc utilsImportPath)));
      eexists; reflexivity.
  - exists acc. unfold ret. now rewrite add_console_nil.
Qed.

Lemma statusLoop_spec (installed : list string) (w : World) :
  exists hasModified,
    statusLoop diffLines reg componentsDir sourceDir utilsImportPath installed w
    = (Ok hasModified,
       add_console w
         (flat_map
            (statusLine diffLines reg componentsDir sourceDir utilsImportPath
               (disk w)) installed)).
Proof.
  unfold statusLoop. generalize false as acc.
  assert (G : forall l w0 acc, disk w0 = disk w ->
             exists hasModified,
               forEachAcc l acc
                 (statusOne diffLines reg componentsDir sourceDir
                    utilsImportPath) w0
               = (Ok hasModified,
                  add_console w0
                    (flat_map
                       (statusLine diffLines reg componentsDir sourceDir
                          utilsImportPath (disk w)) l))).
  { induction l as [|nm l IH]; intros w0 acc Hd; simpl.
    - exists acc. unfold ret. now rewrite add_console_nil.
    - destruct (statusOne_spec acc nm w0) as [h1 H1]. rewrite Hd in H1.
      rewrite (bind_Ok _ _ _ _ _ H1).
      destruct (IH (add_console w0
                      (statusLine diffLines reg componentsDir sourceDir
                         utilsImportPath (disk w) nm)) h1 Hd) as [h Hh].
      exists h. rewrite Hh, add_console_app. reflexivity. }
  intros acc. apply G. reflexivity.
Qed.

End Reconcile.

Section Commands.

Variable diffLines : string -> string -> list Change.
Variable reg : Registry.
Hypothesis reg_hasFiles : hasFiles reg.

Variables (w : World) (config : DiamantConfig).
Hypothesis manifest_parsed : manifest w = Parsed config.

Let componentsDir := aliases_components config.
Let utilsImportPath :=
  getUtilsImportPath (projectType w) (aliases_components config)
    (aliases_utils config).

(** The summary of [diff]: a header, one line for each installed id the
    registry knows, and the hint when something is modified. *)
Lemma diff_summary :
  installedComponents config <> [] ->
  exists hasModified : bool,
    diff diffLines reg None w
    = (Ok tt,
       add_console w
         ([StatusHeader]
          ++ flat_map
               (statusLine diffLines reg componentsDir getComponentsSourceDir
                  utilsImportPath (disk w))
               (installedComponents config)
          ++ (if hasModified then [RunDiffHint] else []))).
Proof.
  intros Hne. unfold diff.
  rewrite (bind_Ok _ _ _ _ _ (loadConfig_parsed w config manifest_parsed)).
  unfold bind at 1. unfold detectProjectType. cbn [given].
  destruct (installedComponents config) as [|i1 il] eqn:E; [contradiction|].
  cbn [List.length Nat.eqb].
  unfold bind at 1. rewrite print_eq.
  destruct (statusLoop_spec diffLines reg reg_hasFiles componentsDir
              getComponentsSourceDir utilsImportPath (i1 :: il)
              (add_console w [StatusHeader])) as [hm Hhm].
  exists hm. fold componentsDir utilsImportPath.
  rewrite (bind_Ok _ _ _ _ _ Hhm). rewrite add_console_app.
  change (disk (add_console w [StatusHeader])) with (disk w).
  destruct hm; cbn [when].
  - rewrite print_eq, add_console_app. now rewrite <- app_assoc.
  - unfold ret. now rewrite app_nil_r.
Qed.

Lemma diff_one_absent (nm f : string) (def : ComponentDefinition) :
  nm <> EmptyString ->
  lookup reg (toLowerCase nm) = Some def ->
  hd_error (files def) = Some f ->
  disk_find (disk w) (path_join componentsDir f) = None ->
  diff diffLines reg (Some nm) w
  = (Ok tt, add_console w [NotInstalled (name def) (toLowerCase nm)]).
Proof.
  intros Hnm Hl Hf Habs. unfold diff.
  rewrite (bind_Ok _ _ _ _ _ (loadConfig_parsed w config manifest_parsed)).
  unfold bind at 1. unfold detectProjectType.
  destruct nm as [|c r]; [contradiction|]. cbn [given]. rewrite Hl.
  unfold firstFilePath, fileExists, bind, ret.
  destruct (files def) as [|f0 fs]; [discriminate|]. injection Hf as ->.
  fold componentsDir. rewrite Habs. reflexivity.
Qed.

Lemma diff_one_same (nm f lc sc : string) (def : ComponentDefinition) :
  nm <> EmptyString ->
  lookup reg (toLowerCase nm) = Some def ->
  hd_error (files def) = Some f ->
  disk_find (disk w) (path_join componentsDir f) = Some lc ->
  disk_find (disk w) (path_join getComponentsSourceDir f) = Some sc ->
  differs lc (rewriteImports sc utilsImportPath) = false ->
  diff diffLines reg (Some nm) w = (Ok tt, add_console w [UpToDate (name def)]).
Proof.
  intros Hnm Hl Hf Hlc Hsc Hsame. unfold diff.
  rewrite (bind_Ok _ _ _ _ _ (loadConfig_parsed w config manifest_parsed)).
  unfold bind at 1. unfold detectProjectType.
  destruct nm as [|c r]; [contradiction|]. cbn [given]. rewrite Hl.
  unfold showDiff. rewrite Hl.
  unfold firstFilePath, fileExists, readFile, try_catch, bind, ret.
  destruct (files def) as [|f0 fs]; [discriminate|]. injection Hf as ->.
  unfold componentsDir, utilsImportPath in *.
  cbv beta iota. rewrite Hlc. cbn [negb]. cbv beta iota.
  rewrite Hlc, Hsc, Hsame. reflexivity.
Qed.

Lemma checkForUpdates_here (components : list string) :
  checkForUpdates reg componentsDir getComponentsSourceDir utilsImportPath
    components w
  = (Ok (flat_map
           (checkLine reg componentsDir getComponentsSourceDir utilsImportPath
              (disk w)) components), w).
Proof. now apply checkForUpdates_spec. Qed.

(** [update] when no checked component differs from its source. *)
Lemma update_nothing_to_do (components : list string) (yes answer : bool) :
  components <> [] ->
  filter snd
    (flat_map
       (checkLine reg componentsDir getComponentsSourceDir utilsImportPath
          (disk w)) components) = [] ->
  update reg components yes answer w = (Ok tt, add_console w [AllUpToDate]).
Proof.
  intros Hne Hnone. unfold update.
  rewrite (bind_Ok _ _ _ _ _ (loadConfig_parsed w config manifest_parsed)).
  destruct components as [|c cs]; [contradiction|].
  cbn [List.length Nat.eqb]. unfold bind at 1. unfold detectProjectType.
  fold componentsDir utilsImportPath.
  rewrite (bind_Ok _ _ _ _ _ (checkForUpdates_here (c :: cs))).
  rewrite Hnone. reflexivity.
Qed.

End Commands.

Lemma registry_key_not_empty (nm : string) (def : ComponentDefinition) :
  lookup registry nm = Some def -> nm <> EmptyString.
Proof. intros H ->. vm_compute in H. discriminate. Qed.

Lemma differs_same (s : string) : differs s s = false.
Proof. unfold differs. now rewrite String.eqb_refl. Qed.

Lemma checkLine_absent (reg : Registry) (dir src utils : string)
  (d : list (string * string)) (c f : string) (def : ComponentDefinition) :
  lookup reg (toLowerCase c) = Some def -> hd_error (files def) = Some f ->
  disk_find d (path_join dir f) = None ->
  checkLine reg dir src utils d c = [].
Proof.
  intros Hl Hf Habs. unfold checkLine. rewrite Hl.
  destruct (files def) as [|f0 fs]; [reflexivity|]. injection Hf as ->.
  now rewrite Habs.
Qed.

Lemma checkLine_fst (reg : Registry) (dir src utils : string)
  (d : list (string * string)) (c : string) (e : string * bool) :
  In e (checkLine reg dir src utils d c) -> fst e = toLowerCase c.
Proof.
  unfold checkLine.
  destruct (lookup reg (toLowerCase c)) as [def|]; [|intros []].
  destruct (files def) as [|f fs]; [intros []|].
  destruct (disk_find d (path_join dir f)); [|intros []].
  destruct (disk_find d (path_join src f)); [|intros []].
  intros [<-|[]]. reflexivity.
Qed.






(* ===================================================================== *)
(** * Further properties *)

(** ** Lower case *)

Lemma lowerChar_idempotent (c : ascii) : lowerChar (lowerChar c) = lowerChar c.
Proof.
  destruct c as [[] [] [] [] [] [] [] []]; vm_compute; reflexivity.
Qed.

Lemma toLowerCase_idempotent (s : string) :
  toLowerCase (toLowerCase s) = toLowerCase s.
Proof.
  induction s as [|c s IH]; simpl; [reflexivity|].
  now rewrite lowerChar_idempotent, IH.
Qed.

(** ** The result of the resolver *)

Section ResolverResult.

Variable reg : Registry.
Variable componentNames : list string.

Lemma pushDependencies_pushes (res deps stack : list string) (d : string) :
  In d deps -> has res d = false -> In d (pushDependencies res deps stack).
Proof.
  unfold pushDependencies. revert stack.
  induction deps as [|x deps IH]; intros stack Hin Hres; simpl in *;
    [destruct Hin|]. destruct Hin as [->|Hin].
  - rewrite Hres. apply (pushDependencies_keeps res deps (d :: stack) d).
    now left.
  - destruct (has res x); now apply IH.
Qed.

Lemma pushDependencies_from (res deps stack : list string) (d : string) :
  In d (pushDependencies res deps stack) -> In d deps \/ In d stack.
Proof.
  unfold pushDependencies. revert stack.
  induction deps as [|x deps IH]; intros stack H; simpl in *; [now right|].
  destruct (has res x).
  - destruct (IH _ H); auto.
  - destruct (IH _ H) as [?|[->|?]]; auto.
Qed.

Lemma resolve_step_sound (st st' : ResolveState) :
  visited_ok reg componentNames st /\ stack_ok reg componentNames st ->
  resolve_step reg st = Some st' ->
  visited_ok reg componentNames st' /\ stack_ok reg componentNames st'.
Proof.
  unfold visited_ok, stack_ok.
  intros [[Hnd Hvis] Hstack]. unfold resolve_step.
  destruct (toProcess st) as [|top rest] eqn:E; [discriminate|].
  assert (Hrest : forall x, In x rest ->
            In x componentNames
            \/ exists k def, reaches reg componentNames k
                             /\ lookup reg k = Some def
                             /\ In x (internalDependencies def)).
  { intros x Hx. apply Hstack. now right. }
  assert (Htop : reaches reg componentNames (toLowerCase top)).
  { destruct (Hstack top (or_introl eq_refl)) as [H|[k [def (Hk & Hl & Hd)]]].
    - now apply reaches_requested.
    - eapply reaches_dependency; eassumption. }
  cbv zeta. destruct (has (resolved st) (toLowerCase top)) eqn:Hhas.
  - intros [= <-]. split; [split|]; assumption.
  - destruct (lookup reg (toLowerCase top)) as [def|] eqn:Hl.
    + intros [= <-]. split; [split|]; cbn [resolved toProcess].
      * now apply add_elem_NoDup.
      * intros k Hk. apply add_elem_In in Hk. destruct Hk as [Hk| ->].
        -- now apply Hvis.
        -- split; [congruence|]. split; [apply toLowerCase_idempotent|].
           assumption.
      * intros x Hx. apply pushDependencies_from in Hx.
        destruct Hx as [Hx|Hx]; [|now apply Hrest].
        right. exists (toLowerCase top), def. auto.
    + intros [= <-]. split; [split|]; assumption.
Qed.

Lemma resolve_step_closed (st st' : ResolveState) :
  visited_ok reg componentNames st /\ dependencies_ok reg st ->
  resolve_step reg st = Some st' ->
  dependencies_ok reg st'.
Proof.
  unfold visited_ok, dependencies_ok.
  intros [[_ Hvis] Hdeps]. unfold resolve_step.
  destruct (toProcess st) as [|top rest] eqn:E; [discriminate|].
  cbv zeta. destruct (has (resolved st) (toLowerCase top)) eqn:Hhas.
  - intros [= <-] k def dep Hk Hl Hd. cbn [resolved toProcess] in *.
    destruct (Hdeps k def dep Hk Hl Hd) as [H|[H|H]]; auto.
    try rewrite E in H. destruct H as [<-|H]; auto.
    left. now apply has_In.
  - destruct (lookup reg (toLowerCase top)) as [def0|] eqn:Hl0.
    + intros [= <-] k def dep Hk Hl Hd. cbn [resolved toProcess] in *.
      apply add_elem_In in Hk. destruct Hk as [Hk| ->].
      * destruct (Hdeps k def dep Hk Hl Hd) as [H|[H|H]]; auto.
        -- left. apply add_elem_In. auto.
        -- try rewrite E in H. destruct H as [<-|H].
           ++ left. apply add_elem_In. auto.
           ++ right. left. now apply pushDependencies_keeps.
      * rewrite Hl0 in Hl. injection Hl as <-.
        destruct (has (add_elem (resolved st) (toLowerCase top)) dep) eqn:Hd'.
        -- left. apply has_In in Hd'.
           assert (Hfix : toLowerCase dep = dep).
           { apply add_elem_In in Hd'. destruct Hd' as [Hd'| ->].
             - now apply Hvis.
             - apply toLowerCase_idempotent. }
           now rewrite Hfix.
        -- right. left. now apply pushDependencies_pushes.
    + intros [= <-] k def dep Hk Hl Hd. cbn [resolved toProcess] in *.
      destruct (Hdeps k def dep Hk Hl Hd) as [H|[H|H]]; auto.
      try rewrite E in H. destruct H as [<-|H]; auto.
Qed.

Lemma resolve_final_state :
  exists st,
    resolve_run reg componentNames = Some st /\ toProcess st = []
    /\ visited_ok reg componentNames st /\ dependencies_ok reg st.
Proof.
  destruct (resolve_run_total reg componentNames) as [st [Hrun Hempty]].
  exists st. split; [assumption|]. split; [assumption|].
  assert (H : (visited_ok reg componentNames st
               /\ stack_ok reg componentNames st)
              /\ dependencies_ok reg st).
  { unfold resolve_run in Hrun.
    eapply (resolve_loop_invariant reg
              (fun s => (visited_ok reg componentNames s
                         /\ stack_ok reg componentNames s)
                        /\ dependencies_ok reg s));
      [| |exact Hrun].
    - intros s s' [Hs Hd] Hstep. split.
      + eapply resolve_step_sound; eassumption.
      + eapply resolve_step_closed; [|eassumption]. tauto.
    - unfold visited_ok, stack_ok, dependencies_ok. split; [split|].
      + split; [constructor | intros k []].
      + intros x Hx. left. simpl in Hx. now apply in_rev.
      + intros k def dep []. }
  tauto.
Qed.

End ResolverResult.

Lemma resolved_sound (reg : Registry) (componentNames : list string) :
  NoDup (resolveComponentDependencies reg componentNames)
  /\ forall k,
       In k (resolveComponentDependencies reg componentNames) ->
       reaches reg componentNames k /\ lookup reg k <> None.
Proof.
  destruct (resolve_final_state reg componentNames)
    as [st (Hrun & Hempty & [Hnd Hvis] & Hdeps)].
  unfold resolveComponentDependencies at 1 2. rewrite Hrun.
  split; [assumption|]. intros k Hk.
  destruct (Hvis k Hk) as (H1 & _ & H3). auto.
Qed.

Lemma resolved_complete (reg : Registry) (componentNames : list string)
  (k : string) :
  reaches reg componentNames k -> lookup reg k <> None ->
  In k (resolveComponentDependencies reg componentNames).
Proof.
  destruct (resolve_final_state reg componentNames)
    as [st (Hrun & Hempty & [Hnd Hvis] & Hdeps)].
  unfold dependencies_ok in Hdeps.
  unfold resolveComponentDependencies. rewrite Hrun.
  intros Hreach Hknown.
  induction Hreach as [nm Hnm|k dep def Hk IH Hl Hd].
  - pose proof (resolve_contains_requested reg componentNames nm Hnm Hknown)
      as H.
    unfold resolveComponentDependencies in H. now rewrite Hrun in H.
  - assert (Hin : In k (resolved st)) by (apply IH; congruence).
    destruct (Hdeps k def dep Hin Hl Hd) as [H|[H|H]]; auto.
    + rewrite Hempty in H. destruct H.
    + contradiction.
Qed.

(** X1.  The resolver's result is exactly the closure of the request.  When
    no requested name and no dependency listed in the registry is an
    inherited property name, the call returns, and an id is returned if and
    only if the registry knows it and it can be reached from the requested
    names through the dependencies of known components; no id is returned
    twice. *)
Theorem resolve_is_the_reachable_closure (reg : Registry)
  (componentNames : list string) :
  plainNames componentNames = true -> plainDependencies reg = true ->
  resolveOutcome reg componentNames
  = Some (Returned (resolveComponentDependencies reg componentNames)
            (resolveWarnings reg componentNames))
  /\ NoDup (resolveComponentDependencies reg componentNames)
  /\ forall k,
       In k (resolveComponentDependencies reg componentNames)
       <-> reaches reg componentNames k /\ lookup reg k <> None.
Proof.
  intros Hnames Hreg. split; [now apply resolveOutcome_plain|].
  destruct (resolved_sound reg componentNames) as [Hnd Hsound].
  split; [assumption|]. intros k. split.
  - apply Hsound.
  - intros [Hreach Hknown]. now apply resolved_complete.
Qed.

Lemma resolve_is_the_reachable_closure_witness :
  resolveOutcome registry ["Carousel"; "nope"]
  = Some (Returned (resolveComponentDependencies registry ["Carousel"; "nope"])
            (resolveWarnings registry ["Carousel"; "nope"]))
  /\ NoDup (resolveComponentDependencies registry ["Carousel"; "nope"]).
Proof.
  destruct (resolve_is_the_reachable_closure registry ["Carousel"; "nope"]
              eq_refl registry_plainDependencies) as (H1 & H2 & _).
  split; assumption.
Defined.

(** ** The diagnostics of the resolver *)

Section ResolverWarnings.

Variable reg : Registry.
Variable componentNames : list string.

Lemma resolve_step_warnings (st st' : ResolveState) :
  visited_ok reg componentNames st ->
  (forall line, In line (warned st) ->
     exists nm, line = unknownWarning nm /\ lookup reg (toLowerCase nm) = None) ->
  (forall nm, In nm componentNames -> lookup reg (toLowerCase nm) = None ->
     In nm (toProcess st) \/ In (unknownWarning nm) (warned st)) ->
  resolve_step reg st = Some st' ->
  (forall line, In line (warned st') ->
     exists nm, line = unknownWarning nm /\ lookup reg (toLowerCase nm) = None)
  /\ (forall nm, In nm componentNames -> lookup reg (toLowerCase nm) = None ->
        In nm (toProcess st') \/ In (unknownWarning nm) (warned st')).
Proof.
  unfold visited_ok. intros [_ Hvis] Hlines Hpending. unfold resolve_step.
  destruct (toProcess st) as [|top rest] eqn:E; [discriminate|].
  cbv zeta. destruct (has (resolved st) (toLowerCase top)) eqn:Hhas.
  - intros [= <-]. cbn [toProcess warned]. split; [assumption|].
    intros nm Hnm Hunk. destruct (Hpending nm Hnm Hunk) as [H|H]; auto.
    try rewrite E in H. destruct H as [<-|H]; auto.
    apply has_In in Hhas. destruct (Hvis _ Hhas) as [Hk _]. contradiction.
  - destruct (lookup reg (toLowerCase top)) as [def|] eqn:Hl.
    + intros [= <-]. cbn [toProcess warned]. split; [assumption|].
      intros nm Hnm Hunk. destruct (Hpending nm Hnm Hunk) as [H|H]; auto.
      try rewrite E in H. destruct H as [<-|H]; [congruence|].
      left. now apply pushDependencies_keeps.
    + intros [= <-]. cbn [toProcess warned]. split.
      * intros line Hline. apply in_app_or in Hline.
        destruct Hline as [Hline|[<-|[]]]; [now apply Hlines|].
        exists top. auto.
      * intros nm Hnm Hunk. destruct (Hpending nm Hnm Hunk) as [H|H].
        -- try rewrite E in H. destruct H as [<-|H]; auto.
           right. apply in_or_app. right. now left.
        -- right. apply in_or_app. now left.
Qed.

End ResolverWarnings.

(** X2.  The resolver warns about unknown names and only about them.  When
    no requested name and no dependency listed in the registry is an
    inherited property name, the call returns, every requested name the
    registry does not know gets its warning line, and every warning line is
    the one of a name the registry does not know. *)
Theorem resolve_warns_about_unknown_names (reg : Registry)
  (componentNames : list string) :
  plainNames componentNames = true -> plainDependencies reg = true ->
  resolveOutcome reg componentNames
  = Some (Returned (resolveComponentDependencies reg componentNames)
            (resolveWarnings reg componentNames))
  /\ (forall nm, In nm componentNames -> lookup reg (toLowerCase nm) = None ->
        In (unknownWarning nm) (resolveWarnings reg componentNames))
  /\ (forall line, In line (resolveWarnings reg componentNames) ->
        exists nm, line = unknownWarning nm
                   /\ lookup reg (toLowerCase nm) = None).
Proof.
  intros Hnames Hreg. split; [now apply resolveOutcome_plain|].
  destruct (resolve_run_total reg componentNames) as [st [Hrun Hempty]].
  unfold resolveWarnings. rewrite Hrun.
  assert (H : (visited_ok reg componentNames st
               /\ stack_ok reg componentNames st)
              /\ (forall line, In line (warned st) ->
                    exists nm, line = unknownWarning nm
                               /\ lookup reg (toLowerCase nm) = None)
              /\ (forall nm, In nm componentNames ->
                    lookup reg (toLowerCase nm) = None ->
                    In nm (toProcess st) \/ In (unknownWarning nm) (warned st))).
  { unfold resolve_run in Hrun.
    eapply (resolve_loop_invariant reg
              (fun s => (visited_ok reg componentNames s
                         /\ stack_ok reg componentNames s)
                        /\ (forall line, In line (warned s) ->
                              exists nm, line = unknownWarning nm
                                         /\ lookup reg (toLowerCase nm) = None)
                        /\ (forall nm, In nm componentNames ->
                              lookup reg (toLowerCase nm) = None ->
                              In nm (toProcess s)
                              \/ In (unknownWarning nm) (warned s))));
      [| |exact Hrun].
    - intros s s' [Hs [Hl Hp]] Hstep. split.
      + eapply resolve_step_sound; eassumption.
      + eapply resolve_step_warnings; try eassumption. tauto.
    - split; [split|split].
      + split; [constructor | intros k []].
      + intros x Hx. left. simpl in Hx. now apply in_rev.
      + intros line [].
      + intros nm Hnm _. left. simpl. now apply in_rev in Hnm. }
  destruct H as (_ & Hl & Hp). split; [|assumption].
  intros nm Hnm Hunk. destruct (Hp nm Hnm Hunk) as [H|H]; [|assumption].
  rewrite Hempty in H. destruct H.
Qed.

Lemma resolve_warns_about_unknown_names_witness :
  In (unknownWarning "Nope") (resolveWarnings registry ["button"; "Nope"]).
Proof.
  apply (proj1 (proj2 (resolve_warns_about_unknown_names registry
                         ["button"; "Nope"] eq_refl
                         registry_plainDependencies))).
  - simpl. auto.
  - reflexivity.
Defined.

Lemma resolve_loop_all_unknown (reg : Registry) (stack warned0 : list string) :
  (forall nm, In nm stack -> lookup reg (toLowerCase nm) = None) ->
  resolve_loop (S (List.length stack)) reg (mkResolve [] stack warned0)
  = Some (mkResolve [] [] (warned0 ++ map unknownWarning stack)).
Proof.
  revert warned0. induction stack as [|nm stack IH]; intros warned0 Hunk.
  - simpl. now rewrite app_nil_r.
  - cbn [List.length]. change (resolve_loop (S (S (List.length stack))) reg
                                 (mkResolve [] (nm :: stack) warned0))
      with (match resolve_step reg (mkResolve [] (nm :: stack) warned0) with
            | None => Some (mkResolve [] (nm :: stack) warned0)
            | Some st' => resolve_loop (S (List.length stack)) reg st'
            end).
    unfold resolve_step. cbn [toProcess resolved warned has existsb].
    rewrite (Hunk nm (or_introl eq_refl)).
    rewrite IH by (intros x Hx; apply Hunk; now right).
    cbn [map]. now rewrite <- app_assoc.
Qed.

(** X3.  When the registry knows none of the requested names, and none of
    them (nor a dependency listed in the registry) is an inherited property
    name, the resolver returns nothing and warns once for each requested
    name, duplicates included, from the last requested to the first. *)
Theorem resolve_of_unknown_names_only (reg : Registry)
  (componentNames : list string) :
  plainNames componentNames = true -> plainDependencies reg = true ->
  (forall nm, In nm componentNames -> lookup reg (toLowerCase nm) = None) ->
  resolveOutcome reg componentNames
  = Some (Returned [] (map unknownWarning (rev componentNames)))
  /\ resolveComponentDependencies reg componentNames = []
  /\ resolveWarnings reg componentNames
     = map unknownWarning (rev componentNames).
Proof.
  intros Hnames Hreg Hunk.
  assert (G : resolveComponentDependencies reg componentNames = []
              /\ resolveWarnings reg componentNames
                 = map unknownWarning (rev componentNames));
    [|destruct G as [G1 G2]; split; [|split; assumption];
      rewrite (resolveOutcome_plain reg componentNames Hnames Hreg);
      now rewrite G1, G2].
  assert (Hrun : resolve_run reg componentNames
                 = Some (mkResolve [] []
                           ([] ++ map unknownWarning (rev componentNames)))).
  { apply resolve_run_from_loop with (n := S (List.length (rev componentNames))).
    apply resolve_loop_all_unknown. intros nm Hnm. apply Hunk.
    now apply in_rev. }
  unfold resolveComponentDependencies, resolveWarnings. rewrite Hrun.
  split; reflexivity.
Qed.

Lemma resolve_of_unknown_names_only_witness :
  resolveWarnings registry ["first"; "second"; "first"]
  = [unknownWarning "first"; unknownWarning "second"; unknownWarning "first"].
Proof.
  apply (proj2 (proj2 (resolve_of_unknown_names_only registry
                         ["first"; "second"; "first"] eq_refl
                         registry_plainDependencies
                         ltac:(intros nm [<-|[<-|[<-|[]]]]; reflexivity)))).
Defined.

(** ** Package dependencies *)

Lemma getNpmDependencies_fold (reg : Registry) (l acc : list string) :
  NoDup acc ->
  let deps :=
    fold_left
      (fun deps nm =>
         match lookup reg (toLowerCase nm) with
         | Some component => fold_left add_elem (dependencies component) deps
         | None => deps
         end) l acc in
  NoDup deps
  /\ forall p, In p deps
               <-> In p acc
                   \/ exists nm def, In nm l
                                     /\ lookup reg (toLowerCase nm) = Some def
                                     /\ In p (dependencies def).
Proof.
  revert acc. induction l as [|nm l IH]; intros acc Hnd; simpl.
  - split; [assumption|]. intros p. split; [auto|].
    intros [H|[x [d [[] _]]]]. assumption.
  - destruct (lookup reg (toLowerCase nm)) as [def|] eqn:E.
    + destruct (IH (fold_left add_elem (dependencies def) acc)
                  (fold_add_elem_NoDup _ _ Hnd)) as [H1 H2].
      split; [exact H1|]. intros p. rewrite H2, fold_add_elem_In. split.
      * intros [[H|H]|[x [d (Hx & Hl & Hp)]]]; auto.
        -- right. exists nm, def. auto.
        -- right. exists x, d. auto.
      * intros [H|[x [d ([<-|Hx] & Hl & Hp)]]]; auto.
        -- left. right. congruence.
        -- right. exists x, d. auto.
    + destruct (IH acc Hnd) as [H1 H2]. split; [exact H1|].
      intros p. rewrite H2. split.
      * intros [H|[x [d (Hx & Hl & Hp)]]]; auto.
        right. exists x, d. auto.
      * intros [H|[x [d ([<-|Hx] & Hl & Hp)]]]; auto; [congruence|].
        right. exists x, d. auto.
Qed.

Lemma getNpmDependenciesOutcome_plain (reg : Registry)
  (componentNames : list string) :
  plainNames componentNames = true ->
  getNpmDependenciesOutcome reg componentNames
  = Some (getNpmDependencies reg componentNames).
Proof.
  unfold getNpmDependenciesOutcome, getNpmDependencies.
  generalize (@nil string) as deps.
  induction componentNames as [|nm rest IH]; intros deps H; [reflexivity|].
  cbn [plainNames forallb] in H. apply andb_prop in H. destruct H as [H1 H2].
  cbn [fold_left]. apply negb_true_iff in H1.
  assert (Hp : property reg (toLowerCase nm)
               = match lookup reg (toLowerCase nm) with
                 | Some component => Own component
                 | None => Undefined
                 end) by (unfold property; now rewrite H1).
  rewrite Hp. destruct (lookup reg (toLowerCase nm)); exact (IH _ H2).
Qed.

(** X4.  For names none of which is an inherited property name,
    [getNpmDependencies] returns, and gives the union of the [dependencies]
    of the named components the registry knows, each package once; names it
    does not know add nothing. *)
Theorem getNpmDependencies_is_the_union (reg : Registry)
  (componentNames : list string) :
  plainNames componentNames = true ->
  getNpmDependenciesOutcome reg componentNames
  = Some (getNpmDependencies reg componentNames)
  /\ NoDup (getNpmDependencies reg componentNames)
  /\ forall p,
       In p (getNpmDependencies reg componentNames)
       <-> exists nm def, In nm componentNames
                          /\ lookup reg (toLowerCase nm) = Some def
                          /\ In p (dependencies def).
Proof.
  intros Hnames. split; [now apply getNpmDependenciesOutcome_plain|].
  destruct (getNpmDependencies_fold reg componentNames [] (NoDup_nil _))
    as [H1 H2].
  split; [exact H1|]. intros p. unfold getNpmDependencies. rewrite H2.
  split; [intros [[]|H]; exact H | auto].
Qed.

Lemma getNpmDependencies_is_the_union_witness :
  NoDup (getNpmDependencies registry ["Carousel"; "accordion"; "nope"]).
Proof.
  exact (proj1 (proj2 (getNpmDependencies_is_the_union registry
                         ["Carousel"; "accordion"; "nope"] eq_refl))).
Defined.


Lemma registry_keys_NoDup : NoDup (getAllComponentNames registry).
Proof.
  apply (NoDup_count_occ string_dec). intros x.
  destruct (in_dec string_dec x (getAllComponentNames registry)) as [Hin|Hout].
  - simpl in Hin.
    repeat (destruct Hin as [<-|Hin]; [vm_compute; lia|]). destruct Hin.
  - apply (count_occ_not_In string_dec) in Hout. lia.
Qed.

Lemma registry_keys_fixed (k : string) :
  In k (getAllComponentNames registry) -> toLowerCase k = k.
Proof.
  unfold getAllComponentNames. rewrite in_map_iff.
  intros [[k' d] [<- Hin]].
  pose proof registry_keys_lowercase as F. rewrite Forall_forall in F.
  exact (F _ Hin).
Qed.


(** ** The order of strings *)

Lemma leb_cons (a b : ascii) (s t : string) :
  String.leb (String a s) (String b t) = true
  <-> (N_of_ascii a < N_of_ascii b)%N \/ (a = b /\ String.leb s t = true).
Proof.
  unfold String.leb. simpl. unfold Ascii.compare.
  destruct (N.compare_spec (N_of_ascii a) (N_of_ascii b)) as [E|L|G].
  - assert (a = b).
    { rewrite <- (ascii_N_embedding a), <- (ascii_N_embedding b). now rewrite E. }
    subst b. split; [auto|]. intros [H|[_ H]]; [|exact H].
    exfalso. revert H. apply N.lt_irrefl.
  - split; auto.
  - split; [discriminate|]. intros [H|[-> _]].
    + exfalso. eapply N.lt_irrefl, N.lt_trans; eassumption.
    + exfalso. revert G. apply N.lt_irrefl.
Qed.

Lemma leb_trans (s t u : string) :
  String.leb s t = true -> String.leb t u = true -> String.leb s u = true.
Proof.
  revert t u. induction s as [|a s IH]; intros t u Hst Htu.
  - now destruct u.
  - destruct t as [|b t]; [discriminate|]. destruct u as [|c u]; [discriminate|].
    apply leb_cons in Hst. apply leb_cons in Htu. apply leb_cons.
    destruct Hst as [H1|[-> H1]], Htu as [H2|[-> H2]]; auto.
    + left. eapply N.lt_trans; eassumption.
    + right. split; [reflexivity|]. eapply IH; eassumption.
Qed.

Lemma ordered_all (x : string) (l : list string) :
  ordered (x :: l) -> forall y, In y l -> String.leb x y = true.
Proof.
  unfold ordered. intros H.
  apply Sorted_StronglySorted in H.
  - inversion H as [|? ? _ Hall]; subst. now rewrite Forall_forall in Hall.
  - intros a b c. apply leb_trans.
Qed.

Lemma ordered_tail (x : string) (l : list string) :
  ordered (x :: l) -> ordered l.
Proof. unfold ordered. now inversion 1. Qed.

Lemma ordered_cons (x : string) (l : list string) :
  ordered l -> (forall y, In y l -> String.leb x y = true) -> ordered (x :: l).
Proof.
  unfold ordered. intros Hl Hx. constructor; [assumption|].
  destruct l as [|y l]; constructor. apply Hx. now left.
Qed.

Lemma remove_first_ordered (y : string) (l : list string) :
  ordered l -> ordered (remove_first y l).
Proof.
  induction l as [|z l IH]; simpl; intros H; [assumption|].
  destruct (String.eqb z y).
  - eapply ordered_tail, H.
  - apply ordered_cons.
    + eapply IH, ordered_tail, H.
    + intros x Hx. apply (ordered_all z l H). eapply remove_first_incl, Hx.
Qed.

Lemma insert_sorted_head (x : string) (l : list string) :
  ordered (x :: l) -> insert_sorted x l = x :: l.
Proof.
  intros H. destruct l as [|y l]; simpl; [reflexivity|].
  now rewrite (ordered_all x (y :: l) H y (or_introl eq_refl)).
Qed.

(** Inserting into [id] the elements of a sorted list that does not hold
    [id], then taking [id] out, gives the list back. *)
Lemma remove_first_after_inserts (id : string) (l : list string) :
  ordered l -> ~ In id l ->
  remove_first id (fold_right insert_sorted [id] l) = l.
Proof.
  induction l as [|x l IH]; intros Hord Hout.
  - simpl. now rewrite String.eqb_refl.
  - assert (Hx : x <> id) by (intros ->; apply Hout; now left).
    assert (Hl : ~ In id l) by (intros H; apply Hout; now right).
    specialize (IH (ordered_tail _ _ Hord) Hl).
    cbn [fold_right].
    assert (Hperm : Permutation (id :: l) (fold_right insert_sorted [id] l)).
    { clear. induction l as [|y l IH]; simpl; [reflexivity|].
      rewrite <- insert_sorted_perm. rewrite perm_swap. now constructor. }
    destruct (fold_right insert_sorted [id] l) as [|h m] eqn:Em.
    + apply Permutation_sym, Permutation_nil in Hperm. discriminate.
    + simpl. destruct (String.leb x h) eqn:Exh.
      * simpl. apply String.eqb_neq in Hx. rewrite Hx. f_equal. exact IH.
      * assert (Hh : h = id).
        { assert (Hin : In h (id :: l)).
          { apply (Permutation_in _ (Permutation_sym Hperm)). now left. }
          destruct Hin as [<-|Hin]; [reflexivity|].
          rewrite (ordered_all x l Hord h Hin) in Exh. discriminate. }
        subst h. simpl. rewrite String.eqb_refl.
        simpl in IH. rewrite String.eqb_refl in IH. subst m.
        now apply insert_sorted_head.
Qed.

Lemma sort_snoc (l : list string) (id : string) :
  sort (l ++ [id]) = fold_right insert_sorted [id] l.
Proof. unfold sort. now rewrite fold_right_app. Qed.

(** ** The manifest helpers *)

Lemma removeInstalledComponent_present (id : string) (w : World)
  (config : DiamantConfig) :
  manifest w = Parsed config -> In id (installedComponents config) ->
  removeInstalledComponent id w
  = writeConfig
      (set_installed config (remove_first id (installedComponents config))) w.
Proof.
  intros Hm Hin. unfold removeInstalledComponent, bind, readConfig. rewrite Hm.
  apply has_In in Hin. rewrite Hin. reflexivity.
Qed.

Lemma removeInstalledComponent_absent (id : string) (w : World)
  (config : DiamantConfig) :
  manifest w = Parsed config -> ~ In id (installedComponents config) ->
  removeInstalledComponent id w = (Ok tt, w).
Proof.
  intros Hm Hin. unfold removeInstalledComponent, bind, readConfig. rewrite Hm.
  apply has_false_In in Hin. rewrite Hin. reflexivity.
Qed.

(** X6.  The manifest helpers keep the manifest's list sorted and free of
    duplicates: from a readable manifest whose list is so, both
    [addInstalledComponent] and [removeInstalledComponent] end normally and
    leave a manifest that differs at most in its list, which is again sorted
    and free of duplicates. *)
Theorem manifest_helpers_keep_list_valid (id : string) (w : World)
  (config : DiamantConfig) :
  manifest w = Parsed config ->
  validList (installedComponents config) ->
  (exists l, addInstalledComponent id w
             = (Ok tt, snd (addInstalledComponent id w))
             /\ manifest (snd (addInstalledComponent id w))
                = Parsed (set_installed config l)
             /\ validList l /\ In id l)
  /\ (exists l, removeInstalledComponent id w
                = (Ok tt, snd (removeInstalledComponent id w))
                /\ manifest (snd (removeInstalledComponent id w))
                   = Parsed (set_installed config l)
                /\ validList l /\ ~ In id l).
Proof.
  intros Hm [Hord Hnd]. split.
  - destruct (in_dec string_dec id (installedComponents config)) as [Hin|Hout].
    + exists (installedComponents config).
      rewrite (addInstalledComponent_present id w config Hm Hin).
      cbn [snd]. rewrite set_installed_same. repeat split; auto.
    + exists (sort (installedComponents config ++ [id])).
      rewrite (addInstalledComponent_absent id w config Hm Hout).
      cbn [snd writeConfig manifest]. repeat split.
      * apply sort_ordered.
      * apply (Permutation_NoDup (sort_perm _)), NoDup_snoc; assumption.
      * apply (Permutation_in _ (sort_perm _)), in_or_app. right. now left.
  - destruct (in_dec string_dec id (installedComponents config)) as [Hin|Hout].
    + exists (remove_first id (installedComponents config)).
      rewrite (removeInstalledComponent_present id w config Hm Hin).
      cbn [snd writeConfig manifest]. repeat split.
      * now apply remove_first_ordered.
      * now apply remove_first_NoDup.
      * now apply remove_first_gone.
    + exists (installedComponents config).
      rewrite (removeInstalledComponent_absent id w config Hm Hout).
      cbn [snd]. rewrite set_installed_same. repeat split; auto.
Qed.

Lemma manifest_helpers_keep_list_valid_witness :
  exists l,
    manifest (snd (removeInstalledComponent "card"
                     (sampleWorld ["button"; "card"; "dialog"] [])))
    = Parsed (set_installed (sampleConfig ["button"; "card"; "dialog"]) l)
    /\ validList l.
Proof.
  assert (Hvalid : validList ["button"; "card"; "dialog"]).
  { split.
    - repeat constructor.
    - repeat constructor; simpl; intuition discriminate. }
  destruct (proj2 (manifest_helpers_keep_list_valid "card"
                     (sampleWorld ["button"; "card"; "dialog"] [])
                     (sampleConfig ["button"; "card"; "dialog"])
                     eq_refl Hvalid)) as [l (_ & H2 & H3 & _)].
  exists l. split; assumption.
Defined.

(** X7.  Adding an id that a sorted manifest does not list, then removing
    it, gives back the manifest document as it was; the two calls write two
    documents. *)
Theorem add_then_remove_restores_manifest (id : string) (w : World)
  (config : DiamantConfig) :
  manifest w = Parsed config ->
  ordered (installedComponents config) ->
  ~ In id (installedComponents config) ->
  let added := snd (addInstalledComponent id w) in
  let removed := snd (removeInstalledComponent id added) in
  manifest removed = Parsed config
  /\ disk removed = disk w
  /\ List.length (configWrites removed) = 2 + List.length (configWrites w).
Proof.
  intros Hm Hord Hout added removed. unfold removed, added.
  rewrite (addInstalledComponent_absent id w config Hm Hout).
  cbn [snd].
  rewrite (removeInstalledComponent_present id _
             (set_installed config (sort (installedComponents config ++ [id])))).
  - cbn [snd writeConfig manifest disk configWrites set_installed
           installedComponents typescript tailwind_config tailwind_css
           aliases_components aliases_utils].
    rewrite sort_snoc, remove_first_after_inserts by assumption.
    split; [|split].
    + f_equal. now destruct config.
    + reflexivity.
    + rewrite !length_app. simpl. lia.
  - reflexivity.
  - cbn [set_installed installedComponents].
    apply (Permutation_in _ (sort_perm _)), in_or_app. right. now left.
Qed.

Lemma add_then_remove_restores_manifest_witness :
  manifest
    (snd (removeInstalledComponent "card"
            (snd (addInstalledComponent "card"
                    (sampleWorld ["button"; "dialog"] [])))))
  = Parsed (sampleConfig ["button"; "dialog"]).
Proof.
  refine (proj1 (add_then_remove_restores_manifest "card"
                   (sampleWorld ["button"; "dialog"] [])
                   (sampleConfig ["button"; "dialog"]) eq_refl _ _)).
  - repeat constructor.
  - simpl. intuition discriminate.
Defined.

(** X8.  [isComponentInstalled] follows the helpers: on a readable manifest
    it answers true for an id right after [addInstalledComponent], false
    right after [removeInstalledComponent] when the list has no duplicates,
    and its answer for any other id is what it was; without a readable
    manifest it answers false. *)
Theorem isComponentInstalled_follows_helpers (id other : string) (w : World) :
  (forall config,
      manifest w = Parsed config ->
      fst (isComponentInstalled id (snd (addInstalledComponent id w))) = Ok true
      /\ (NoDup (installedComponents config) ->
          fst (isComponentInstalled id (snd (removeInstalledComponent id w)))
          = Ok false)
      /\ (other <> id ->
          fst (isComponentInstalled other (snd (addInstalledComponent id w)))
          = fst (isComponentInstalled other w)
          /\ fst (isComponentInstalled other
                    (snd (removeInstalledComponent id w)))
             = fst (isComponentInstalled other w)))
  /\ (fst (readConfig w) = Ok None ->
      isComponentInstalled id w = (Ok false, w)).
Proof.
  split.
  - intros config Hm.
    assert (Hread : fst (isComponentInstalled other w)
                    = Ok (has (installedComponents config) other)).
    { unfold isComponentInstalled, bind, readConfig. now rewrite Hm. }
    assert (Hafter : forall x l (w' : World),
               manifest w' = Parsed (set_installed config l) ->
               fst (isComponentInstalled x w') = Ok (has l x)).
    { intros x l w' Hm'. unfold isComponentInstalled, bind, readConfig.
      now rewrite Hm'. }
    destruct (in_dec string_dec id (installedComponents config)) as [Hin|Hout].
    + rewrite (addInstalledComponent_present id w config Hm Hin).
      rewrite (removeInstalledComponent_present id w config Hm Hin).
      cbn [snd]. split; [|split].
      * unfold isComponentInstalled, bind, readConfig. rewrite Hm.
        apply has_In in Hin. now rewrite Hin.
      * intros Hnd. erewrite (Hafter id) by reflexivity. f_equal.
        apply has_false_In. now apply remove_first_gone.
      * intros Hne. split; [reflexivity|].
        erewrite (Hafter other) by reflexivity. rewrite Hread. f_equal.
        destruct (has (installedComponents config) other) eqn:E.
        -- apply has_In. apply has_In in E. now apply remove_first_In.
        -- apply has_false_In. apply has_false_In in E. intros H. apply E.
           eapply remove_first_incl, H.
    + rewrite (addInstalledComponent_absent id w config Hm Hout).
      rewrite (removeInstalledComponent_absent id w config Hm Hout).
      cbn [snd]. split; [|split].
      * erewrite (Hafter id) by reflexivity. f_equal. apply has_In.
        apply (Permutation_in _ (sort_perm _)), in_or_app. right. now left.
      * intros _. unfold isComponentInstalled, bind, readConfig. rewrite Hm.
        apply has_false_In in Hout. now rewrite Hout.
      * intros Hne. split; [|reflexivity].
        erewrite (Hafter other) by reflexivity. rewrite Hread. f_equal.
        destruct (has (installedComponents config) other) eqn:E.
        -- apply has_In. apply has_In in E.
           apply (Permutation_in _ (sort_perm _)), in_or_app. now left.
        -- apply has_false_In. apply has_false_In in E. intros H. apply E.
           apply (Permutation_in _ (Permutation_sym (sort_perm _))) in H.
           apply in_app_or in H. destruct H as [H|[H|[]]]; [assumption|].
           congruence.
  - unfold isComponentInstalled, bind, readConfig. simpl.
    destruct (manifest w); intros H; try discriminate; reflexivity.
Qed.

Lemma isComponentInstalled_follows_helpers_witness :
  fst (isComponentInstalled "card"
         (snd (addInstalledComponent "card" (sampleWorld ["button"] []))))
  = Ok true
  /\ isComponentInstalled "card" (mkWorld Absent [] [] unknown [] [])
     = (Ok false, mkWorld Absent [] [] unknown [] []).
Proof.
  split.
  - exact (proj1 (proj1 (isComponentInstalled_follows_helpers "card" "button"
                           (sampleWorld ["button"] []))
                    (sampleConfig ["button"]) eq_refl)).
  - exact (proj2 (isComponentInstalled_follows_helpers "card" "button"
                    (mkWorld Absent [] [] unknown [] [])) eq_refl).
Defined.

(** X9.  [removeInstalledComponent] writes only when it has something to
    remove: for an id the manifest does not list it leaves the world as it
    is; for a listed id it writes one document, the list without the first
    occurrence of the id and otherwise in the same order; and on a list
    without duplicates a second call changes nothing. *)
Theorem removeInstalledComponent_idempotent (id : string) (w : World)
  (config : DiamantConfig) :
  manifest w = Parsed config ->
  let once := removeInstalledComponent id w in
  let twice := removeInstalledComponent id (snd once) in
  (~ In id (installedComponents config) -> once = (Ok tt, w))
  /\ (In id (installedComponents config) ->
      exists before after,
        installedComponents config = before ++ id :: after
        /\ ~ In id before
        /\ fst once = Ok tt
        /\ manifest (snd once) = Parsed (set_installed config (before ++ after))
        /\ configWrites (snd once)
           = configWrites w ++ [set_installed config (before ++ after)]
        /\ disk (snd once) = disk w)
  /\ (NoDup (installedComponents config) -> twice = (Ok tt, snd once)).
Proof.
  intros Hm once twice.
  assert (Hsplit : forall l, In id l ->
            exists before after,
              l = before ++ id :: after /\ ~ In id before
              /\ remove_first id l = before ++ after).
  { induction l as [|x l IH]; intros Hin; [destruct Hin|].
    simpl. destruct (String.eqb x id) eqn:E.
    - apply String.eqb_eq in E. subst x. exists [], l. simpl. auto.
    - apply String.eqb_neq in E. destruct Hin as [->|Hin]; [congruence|].
      destruct (IH Hin) as [b [a (H1 & H2 & H3)]].
      exists (x :: b), a. simpl. rewrite H1 at 1. rewrite H3.
      repeat split; auto. intros [->|H]; auto. }
  split; [|split].
  - intros Hout. apply (removeInstalledComponent_absent id w config Hm Hout).
  - intros Hin. destruct (Hsplit _ Hin) as [b [a (H1 & H2 & H3)]].
    exists b, a. unfold once.
    rewrite (removeInstalledComponent_present id w config Hm Hin), H3.
    repeat split; auto.
  - intros Hnd. unfold twice, once.
    destruct (in_dec string_dec id (installedComponents config)) as [Hin|Hout].
    + rewrite (removeInstalledComponent_present id w config Hm Hin).
      apply (removeInstalledComponent_absent id _
               (set_installed config
                  (remove_first id (installedComponents config))));
        [reflexivity|].
      now apply remove_first_gone.
    + rewrite (removeInstalledComponent_absent id w config Hm Hout).
      apply (removeInstalledComponent_absent id w config Hm Hout).
Qed.

Lemma removeInstalledComponent_idempotent_witness :
  removeInstalledComponent "card" (sampleWorld ["button"] [])
  = (Ok tt, sampleWorld ["button"] []).
Proof.
  apply (proj1 (removeInstalledComponent_idempotent "card"
                  (sampleWorld ["button"] []) (sampleConfig ["button"])
                  eq_refl)).
  simpl. intuition discriminate.
Defined.

(** ** Commands on a project without a readable manifest *)

Lemma loadConfig_absent (w : World) :
  manifest w = Absent ->
  loadConfig w = (Exit 1, add_console w [NotInitialized]).
Proof.
  intros H. unfold loadConfig, bind, configExists. cbn. rewrite H. reflexivity.
Qed.

Lemma loadConfig_unparseable (w : World) :
  manifest w = Unparseable ->
  loadConfig w = (Exit 1, add_console w [FailedToReadConfig]).
Proof.
  intros H. unfold loadConfig, bind, configExists, readConfig. cbn.
  rewrite H. cbn. rewrite H. reflexivity.
Qed.

Lemma bind_Exit {A B} (m : M A) (k : A -> M B) (w w' : World) (c : nat) :
  m w = (Exit c, w') -> bind m k w = (Exit c, w').
Proof. intros H. unfold bind. now rewrite H. Qed.

(** X10.  Without a readable manifest [add], [remove], [update] and [diff]
    stop at once: each prints one message (not initialized when the manifest
    is absent, failed to read when it does not parse), exits with status 1,
    and touches neither files nor manifest. *)
Theorem commands_need_a_manifest
  (diffLines : string -> string -> list Change) (reg : Registry) (w : World)
  (components : list string) (component : option string)
  (options : AddOptions) (answers : AddAnswers) (yes answer : bool) :
  fst (readConfig w) = Ok None ->
  let notice :=
    match manifest w with
    | Absent => NotInitialized
    | _ => FailedToReadConfig
    end in
  add reg components options answers w = (Exit 1, add_console w [notice])
  /\ remove reg components yes answer w = (Exit 1, add_console w [notice])
  /\ update reg components yes answer w = (Exit 1, add_console w [notice])
  /\ diff diffLines reg component w = (Exit 1, add_console w [notice]).
Proof.
  intros Hnull notice.
  assert (H : loadConfig w = (Exit 1, add_console w [notice])).
  { unfold notice. unfold readConfig in Hnull. simpl in Hnull.
    destruct (manifest w) eqn:Hm; try discriminate.
    - now apply loadConfig_absent.
    - now apply loadConfig_unparseable. }
  unfold add, remove, update, diff.
  rewrite !(bind_Exit _ _ _ _ _ H). repeat split; reflexivity.
Qed.

Lemma commands_need_a_manifest_witness :
  remove registry ["button"] true true (mkWorld Absent [] [] unknown [] [])
  = (Exit 1, add_console (mkWorld Absent [] [] unknown [] []) [NotInitialized])
  /\ update registry [] true true (mkWorld Unparseable [] [] unknown [] [])
     = (Exit 1,
        add_console (mkWorld Unparseable [] [] unknown [] [])
          [FailedToReadConfig]).
Proof.
  split.
  - exact (proj1 (proj2 (commands_need_a_manifest wholeTextDiff registry
                           (mkWorld Absent [] [] unknown [] []) ["button"] None
                           (mkAddOptions true false false)
                           (mkAddAnswers [] false true) true true eq_refl))).
  - exact (proj1 (proj2 (proj2 (commands_need_a_manifest wholeTextDiff registry
                           (mkWorld Unparseable [] [] unknown [] []) [] None
                           (mkAddOptions true false false)
                           (mkAddAnswers [] false true) true true eq_refl)))).
Defined.

(** ** What [remove] changes *)

Section RemoveEffect.

Variable reg : Registry.

(** The deleting loop, with the manifest it leaves. *)
Lemma delete_loop_effect (dir : string) (installed : list string) :
  (forall nm, In nm installed -> lookup reg nm <> None) ->
  forall (w : World) (config : DiamantConfig),
    manifest w = Parsed config ->
    exists w',
      forEach installed
        (fun nm =>
           match lookup reg nm with
           | None => throw
           | Some componentDef =>
               forEach (files componentDef)
                 (fun file => deleteFile (path_join dir file)) ;;
               removeInstalledComponent nm
           end) w = (Ok tt, w')
      /\ manifest w'
         = Parsed (set_installed config
                     (withoutAll installed (installedComponents config)))
      /\ console w' = console w
      /\ forall q, disk_find (disk w') q
                   = if has (deletedPaths reg dir installed) q then None
                     else disk_find (disk w) q.
Proof.
  induction installed as [|nm installed IH]; intros Hknown w config Hm.
  - exists w. simpl. rewrite set_installed_same. repeat split; auto.
  - assert (Hnm : lookup reg nm <> None) by (apply Hknown; now left).
    simpl. destruct (lookup reg nm) as [def|] eqn:E; [|contradiction].
    destruct (delete_files_spec dir (files def) w)
      as [w1 (Hrun1 & Hm1 & Hc1 & _ & Hd1)].
    destruct (removeInstalledComponent_spec nm w1 config)
      as [w2 (Hrun2 & Hm2 & Hd2 & Hc2)]; [congruence|].
    destruct (IH (fun x Hx => Hknown x (or_intror Hx)) w2 _ Hm2)
      as [w' (Hrun & Hm' & Hc & Hd)].
    exists w'. split; [|repeat split].
    + unfold bind at 1. unfold bind at 1. rewrite Hrun1, Hrun2. exact Hrun.
    + exact Hm'.
    + congruence.
    + intros q. rewrite Hd, Hd2, Hd1. rewrite has_app.
      destruct (has (map (path_join dir) (files def)) q); simpl;
        now destruct (has (deletedPaths reg dir installed) q).
Qed.

(** [removeOnDisk] either removes nothing (the user declines) or goes
    through the whole of [installed]. *)
Lemma removeOnDisk_effect (config : DiamantConfig) (installed : list string)
  (yes answer : bool) (w : World) :
  (forall nm, In nm installed -> lookup reg nm <> None) ->
  manifest w = Parsed config ->
  let removed := if yes || answer then installed else [] in
  exists w' msgs,
    removeOnDisk reg config installed yes answer w = (Ok tt, w')
    /\ console w' = console w ++ msgs
    /\ manifest w'
       = Parsed (set_installed config
                   (withoutAll removed (installedComponents config)))
    /\ (yes || answer = false -> w' = add_console w msgs
                                 /\ In RemovalCancelled msgs)
    /\ (yes || answer = true -> In (Removed (List.length installed)) msgs)
    /\ forall q, disk_find (disk w') q
                 = if has (deletedPaths reg (aliases_components config) removed) q
                   then None
                   else disk_find (disk w) q.
Proof.
  intros Hknown Hm removed. unfold removeOnDisk.
  set (deps := dependents reg (installedComponents config) installed).
  set (m1 := match deps with
             | [] => []
             | _ => [DependOnRemoved (map (displayOf reg) deps)]
             end).
  assert (H1 : when (negb (Nat.eqb (List.length deps) 0))
                 (names <- mapM (displayName reg) deps ;;
                  print (DependOnRemoved names)) w = (Ok tt, add_console w m1)).
  { unfold m1. destruct deps as [|d ds] eqn:Ed.
    - simpl. unfold ret. now rewrite add_console_nil.
    - cbn [List.length Nat.eqb negb when]. unfold bind.
      rewrite mapM_displayName; [reflexivity|].
      intros nm Hnm.
      apply (dependents_known reg (installedComponents config) installed).
      fold deps. now rewrite Ed. }
  rewrite (bind_Ok _ _ _ _ _ H1).
  destruct yes; cbn [negb orb] in *.
  - unfold removed. unfold ret at 1. unfold bind at 1. cbn [negb].
    destruct (delete_loop_effect (aliases_components config) installed Hknown
                (add_console w m1) config Hm) as [w3 (Hrun & Hm3 & Hc & Hd)].
    exists (add_console w3 [Removed (List.length installed)]),
           (m1 ++ [Removed (List.length installed)]).
    rewrite (bind_Ok _ _ _ _ _ Hrun). rewrite print_eq.
    split; [reflexivity|]. split; [|split; [|split; [|split]]].
    + cbn [console add_console]. rewrite Hc. cbn [console add_console].
      now rewrite app_assoc.
    + exact Hm3.
    + discriminate.
    + intros _. apply in_or_app. right. now left.
    + exact Hd.
  - set (m2 := [WillBeRemoved (map (displayOf reg) installed)]).
    unfold bind at 1. unfold bind at 1.
    rewrite (mapM_displayName reg installed (add_console w m1) Hknown).
    unfold bind at 1. rewrite print_eq, add_console_app.
    destruct answer; cbn [negb] in *.
    + unfold removed. unfold ret at 1. cbn [negb].
      destruct (delete_loop_effect (aliases_components config) installed Hknown
                  (add_console w (m1 ++ m2)) config Hm)
        as [w3 (Hrun & Hm3 & Hc & Hd)].
      exists (add_console w3 [Removed (List.length installed)]),
             ((m1 ++ m2) ++ [Removed (List.length installed)]).
      rewrite (bind_Ok _ _ _ _ _ Hrun). rewrite print_eq.
      split; [reflexivity|]. split; [|split; [|split; [|split]]].
      * cbn [console add_console]. rewrite Hc. cbn [console add_console].
        now rewrite !app_assoc.
      * exact Hm3.
      * discriminate.
      * intros _. apply in_or_app. right. now left.
      * exact Hd.
    + unfold removed. unfold bind at 1. rewrite print_eq, add_console_app.
      unfold ret. cbn [negb].
      exists (add_console w ((m1 ++ m2) ++ [RemovalCancelled])),
             ((m1 ++ m2) ++ [RemovalCancelled]).
      split; [reflexivity|]. split; [reflexivity|].
      split; [|split; [|split]].
      * cbn [manifest add_console withoutAll fold_left].
        now rewrite set_installed_same.
      * intros _. split; [reflexivity|]. apply in_or_app. right. now left.
      * discriminate.
      * intros q. reflexivity.
Qed.

End RemoveEffect.

Section RemoveCommand.

Variable reg : Registry.
Hypothesis reg_hasFiles : hasFiles reg.

Lemma requestedOnDisk_known (config : DiamantConfig)
  (d : list (string * string)) (components : list string) (nm : string) :
  In nm (requestedOnDisk reg config d components) -> lookup reg nm <> None.
Proof.
  unfold requestedOnDisk. intros H. apply filter_In in H.
  destruct H as [H _]. eapply valid_known, H.
Qed.

(** What [remove] does on a readable manifest, whatever the request and the
    answer. *)
Lemma remove_effect (components : list string) (yes answer : bool) (w : World)
  (config : DiamantConfig) :
  manifest w = Parsed config ->
  let removed :=
    if yes || answer then requestedOnDisk reg config (disk w) components
    else [] in
  exists w' msgs,
    remove reg components yes answer w = (Ok tt, w')
    /\ console w' = console w ++ msgs
    /\ manifest w'
       = Parsed (set_installed config
                   (withoutAll removed (installedComponents config)))
    /\ (removed = [] -> w' = add_console w msgs)
    /\ forall q, disk_find (disk w') q
                 = if has (deletedPaths reg (aliases_components config) removed) q
                   then None
                   else disk_find (disk w) q.
Proof.
  intros Hm removed.
  rewrite (remove_unfold reg components yes answer w config reg_hasFiles Hm).
  fold (requestedOnDisk reg config (disk w) components).
  set (m0 := unknownNotice (filter (fun nm => negb (known reg nm)) components)).
  assert (Hnothing : forall m,
            exists w' msgs,
              print m (add_console w m0) = (Ok tt, w')
              /\ console w' = console w ++ msgs
              /\ manifest w'
                 = Parsed (set_installed config
                             (withoutAll [] (installedComponents config)))
              /\ w' = add_console w msgs
              /\ forall q, disk_find (disk w') q = disk_find (disk w) q).
  { intros m. exists (add_console w (m0 ++ [m])), (m0 ++ [m]).
    rewrite print_eq, add_console_app. repeat split.
    cbn [manifest add_console withoutAll fold_left].
    now rewrite set_installed_same. }
  destruct (Nat.eqb (List.length
              (map toLowerCase (filter (known reg) components))) 0) eqn:Ev.
  - assert (Hempty : requestedOnDisk reg config (disk w) components = []).
    { unfold requestedOnDisk.
      destruct (map toLowerCase (filter (known reg) components));
        [reflexivity | discriminate]. }
    destruct (Hnothing NoValidComponents) as [w' [msgs (H1 & H2 & H3 & H4 & H5)]].
    exists w', msgs. unfold removed. rewrite Hempty.
    destruct (yes || answer); repeat split; auto.
  - destruct (Nat.eqb (List.length
                (requestedOnDisk reg config (disk w) components)) 0) eqn:Ei.
    + assert (Hempty : requestedOnDisk reg config (disk w) components = []).
      { destruct (requestedOnDisk reg config (disk w) components);
          [reflexivity | discriminate]. }
      destruct (Hnothing NoneInstalled) as [w' [msgs (H1 & H2 & H3 & H4 & H5)]].
      exists w', msgs. unfold removed. rewrite Hempty.
      destruct (yes || answer); repeat split; auto.
    + destruct (removeOnDisk_effect reg config
                  (requestedOnDisk reg config (disk w) components)
                  yes answer (add_console w m0)
                  (requestedOnDisk_known config (disk w) components) Hm)
        as [w' [msgs (H1 & H2 & H3 & H4 & H5 & H6)]].
      exists w', (m0 ++ msgs). split; [exact H1|]. split; [|split; [|split]].
      * rewrite H2. cbn [console add_console]. now rewrite app_assoc.
      * exact H3.
      * unfold removed. intros Hr. destruct (yes || answer) eqn:Ec.
        -- rewrite Hr in Ei. discriminate.
        -- destruct (H4 eq_refl) as [-> _]. now rewrite add_console_app.
      * exact H6.
Qed.

End RemoveCommand.

Lemma withoutAll_incl (removed l : list string) (id : string) :
  In id (withoutAll removed l) -> In id l.
Proof.
  unfold withoutAll. revert l.
  induction removed as [|r removed IH]; intros l H; simpl in H; [assumption|].
  eapply remove_first_incl, IH, H.
Qed.

Lemma deletedPaths_from (reg : Registry) (dir : string)
  (installed : list string) (q : string) :
  In q (deletedPaths reg dir installed) ->
  exists nm def f,
    In nm installed /\ lookup reg nm = Some def /\ In f (files def)
    /\ q = path_join dir f.
Proof.
  unfold deletedPaths. rewrite in_flat_map. intros [nm [Hnm Hq]].
  destruct (lookup reg nm) as [def|] eqn:E; [|destruct Hq].
  apply in_map_iff in Hq. destruct Hq as [f [<- Hf]].
  exists nm, def, f. auto.
Qed.

(** X11.  [remove] changes nothing unless it is confirmed: without [--yes]
    and without a positive answer it ends normally and only prints, for
    every request without inherited property names; files and manifest are
    as they were. *)
Theorem remove_unconfirmed_changes_nothing (reg : Registry)
  (components : list string) (w : World) (config : DiamantConfig) :
  hasFiles reg -> manifest w = Parsed config ->
  plainNames components = true ->
  exists msgs,
    remove reg components false false w = (Ok tt, add_console w msgs).
Proof.
  intros Hfiles Hm _.
  destruct (remove_effect reg Hfiles components false false w config Hm)
    as [w' [msgs (H1 & _ & _ & H4 & _)]].
  exists msgs. rewrite H1. f_equal. now apply H4.
Qed.

Lemma remove_unconfirmed_changes_nothing_witness :
  exists msgs,
    remove registry ["button"; "card"] false false
      (sampleWorld ["button"; "card"]
         [("src/components/ui/Button.tsx", "button source")])
    = (Ok tt,
       add_console
         (sampleWorld ["button"; "card"]
            [("src/components/ui/Button.tsx", "button source")]) msgs).
Proof.
  exact (remove_unconfirmed_changes_nothing registry ["button"; "card"]
           (sampleWorld ["button"; "card"]
              [("src/components/ui/Button.tsx", "button source")])
           (sampleConfig ["button"; "card"]) registry_hasFiles eq_refl
           eq_refl).
Defined.

(** X12.  [remove] only takes away what was asked for.  On a readable
    manifest whose components directory is given in normal form, for a
    request without inherited property names, it ends normally; a file is
    afterwards either as it was or
    gone, and it can only be gone if it is a file of a requested component of
    the registry; the manifest keeps its other fields, lists no id it did
    not list before, and still lists every id that was not requested. *)
Theorem remove_only_takes_what_was_requested (reg : Registry)
  (components : list string) (yes answer : bool) (w : World)
  (config : DiamantConfig) :
  hasFiles reg -> manifest w = Parsed config ->
  plainNames components = true ->
  normalPath (aliases_components config) = true ->
  let out := remove reg components yes answer w in
  fst out = Ok tt
  /\ (forall q,
        disk_find (disk (snd out)) q = disk_find (disk w) q
        \/ (disk_find (disk (snd out)) q = None
            /\ exists nm def f,
                 In nm components /\ lookup reg (toLowerCase nm) = Some def
                 /\ In f (files def)
                 /\ q = path_join (aliases_components config) f))
  /\ exists l,
       manifest (snd out) = Parsed (set_installed config l)
       /\ (forall id, In id l -> In id (installedComponents config))
       /\ (forall id, In id (installedComponents config) ->
                      ~ In id (map toLowerCase components) -> In id l).
Proof.
  intros Hfiles Hm _ _ out. unfold out.
  destruct (remove_effect reg Hfiles components yes answer w config Hm)
    as [w' [msgs (H1 & _ & H3 & _ & H5)]].
  rewrite H1. cbn [fst snd]. split; [reflexivity|].
  set (removed := if yes || answer
                  then requestedOnDisk reg config (disk w) components
                  else []) in *.
  assert (Hsub : forall nm, In nm removed ->
            exists x, In x components /\ nm = toLowerCase x).
  { unfold removed. intros nm H. destruct (yes || answer); [|destruct H].
    unfold requestedOnDisk in H. apply filter_In in H. destruct H as [H _].
    apply valid_requested in H. apply in_map_iff in H.
    destruct H as [x [<- Hx]]. eauto. }
  split.
  - intros q. rewrite H5.
    destruct (has (deletedPaths reg (aliases_components config) removed) q)
      eqn:E; [|now left].
    right. split; [reflexivity|]. apply has_In in E.
    apply deletedPaths_from in E. destruct E as [nm [def [f (Hn & Hl & Hf & ->)]]].
    destruct (Hsub nm Hn) as [x [Hx ->]]. exists x, def, f. auto.
  - eexists. split; [exact H3|]. split.
    + intros id. apply withoutAll_incl.
    + intros id Hid Hreq. apply remove_all_keeps; [assumption|].
      intros H. destruct (Hsub id H) as [x [Hx ->]]. apply Hreq.
      now apply in_map.
Qed.

Lemma remove_only_takes_what_was_requested_witness :
  let w := sampleWorld ["button"; "card"]
             [("src/components/ui/Button.tsx", "button source");
              ("src/components/ui/Card.tsx", "card source")] in
  exists l,
    manifest (snd (remove registry ["button"] true false w))
    = Parsed (set_installed (sampleConfig ["button"; "card"]) l)
    /\ (forall id, In id ["button"; "card"] ->
                   ~ In id (map toLowerCase ["button"]) -> In id l).
Proof.
  intros w.
  destruct (remove_only_takes_what_was_requested registry ["button"] true false
              w (sampleConfig ["button"; "card"]) registry_hasFiles eq_refl
              eq_refl eq_refl)
    as (_ & _ & [l (H1 & _ & H3)]).
  exists l. split; assumption.
Defined.

Lemma filter_none {A} (p : A -> bool) (l : list A) :
  (forall x, In x l -> p x = false) -> filter p l = [].
Proof.
  induction l as [|x l IH]; intros H; simpl; [reflexivity|].
  rewrite (H x (or_introl eq_refl)). apply IH. intros y Hy. apply H. now right.
Qed.

(** X13.  A confirmed [remove] leaves nothing for a second one: after it,
    the same request, when it names a component of the registry and no
    inherited property name, in a project whose components directory is
    given in normal form, only prints that none of the components is
    installed, and changes nothing. *)
Theorem remove_twice_finds_nothing (reg : Registry) (components : list string)
  (yes answer yes' answer' : bool) (w : World) (config : DiamantConfig) :
  hasFiles reg -> manifest w = Parsed config ->
  plainNames components = true ->
  normalPath (aliases_components config) = true ->
  yes = true \/ answer = true ->
  existsb (known reg) components = true ->
  let first := snd (remove reg components yes answer w) in
  remove reg components yes' answer' first
  = (Ok tt,
     add_console first
       (unknownNotice (filter (fun nm => negb (known reg nm)) components)
        ++ [NoneInstalled])).
Proof.
  intros Hfiles Hm _ _ Hconfirm Hsome first. unfold first.
  destruct (remove_effect reg Hfiles components yes answer w config Hm)
    as [w' [msgs (H1 & _ & H3 & _ & H5)]].
  rewrite H1. cbn [snd].
  assert (Hc : yes || answer = true) by (destruct Hconfirm; subst; auto with bool).
  rewrite Hc in H3, H5.
  rewrite (remove_unfold reg components yes' answer' w' _ Hfiles H3).
  cbn [aliases_components set_installed].
  assert (Hv : Nat.eqb (List.length
                 (map toLowerCase (filter (known reg) components))) 0 = false).
  { apply existsb_exists in Hsome. destruct Hsome as [nm [Hnm Hk]].
    apply (length_zero_false _ (toLowerCase nm)).
    apply in_map, filter_In. auto. }
  rewrite Hv.
  assert (Hgone : filter (firstFilePresent reg (aliases_components config)
                            (disk w'))
                    (map toLowerCase (filter (known reg) components)) = []).
  { apply filter_none. intros nm Hnm.
    pose proof (valid_known reg components nm Hnm) as Hk.
    unfold firstFilePresent.
    destruct (lookup reg nm) as [def|] eqn:E; [|contradiction].
    pose proof (Hfiles nm def (lookup_In _ _ _ E)) as Hf.
    destruct (files def) as [|f fs] eqn:Ef; [contradiction|].
    unfold onDiskAt. rewrite H5.
    destruct (has (deletedPaths reg (aliases_components config)
                     (requestedOnDisk reg config (disk w) components))
                (path_join (aliases_components config) f)) eqn:Ed;
      [reflexivity|].
    destruct (firstFilePresent reg (aliases_components config) (disk w) nm)
      eqn:Ep.
    - exfalso. apply has_false_In in Ed. apply Ed.
      apply (deletedPaths_In reg _ _ nm f def); auto.
      + unfold requestedOnDisk. apply filter_In. auto.
      + rewrite Ef. now left.
    - unfold firstFilePresent in Ep. rewrite E, Ef in Ep.
      unfold onDiskAt in Ep.
      now destruct (disk_find (disk w) (path_join (aliases_components config) f)). }
  rewrite Hgone. cbn [List.length Nat.eqb].
  rewrite print_eq, add_console_app. reflexivity.
Qed.

Lemma remove_twice_finds_nothing_witness :
  let w := sampleWorld ["button"; "card"]
             [("src/components/ui/Button.tsx", "button source")] in
  remove registry ["button"; "zzz"] false false
    (snd (remove registry ["button"; "zzz"] true false w))
  = (Ok tt,
     add_console (snd (remove registry ["button"; "zzz"] true false w))
       (unknownNotice
          (filter (fun nm => negb (known registry nm)) ["button"; "zzz"])
        ++ [NoneInstalled])).
Proof.
  intros w.
  exact (remove_twice_finds_nothing registry ["button"; "zzz"] true false
           false false w (sampleConfig ["button"; "card"])
           registry_hasFiles eq_refl eq_refl eq_refl (or_introl eq_refl)
           eq_refl).
Defined.

(** ** Writing files *)

Lemma disk_find_write (d : list (string * string)) (p c q : string) :
  disk_find (disk_write d p c) q
  = if String.eqb q p then Some c else disk_find d q.
Proof.
  unfold disk_write.
  assert (G : forall l, disk_find (l ++ [(p, c)]) q
                        = match disk_find l q with
                          | Some x => Some x
                          | None => if String.eqb q p then Some c else None
                          end).
  { induction l as [|[k x] l IH]; simpl.
    - rewrite (String.eqb_sym p q). reflexivity.
    - destruct (String.eqb k q); [reflexivity | exact IH]. }
  rewrite G, disk_find_remove.
  destruct (String.eqb q p); [reflexivity|]. now destruct (disk_find d q).
Qed.

Lemma writeFile_eq (p c : string) (w : World) :
  writeFile p c w
  = if has (readOnly w) p then (Throw, w)
    else (Ok tt, set_disk w (disk_write (disk w) p c)).
Proof. reflexivity. Qed.

Lemma sameExcept_refl (paths : list string) (w : World) : sameExcept paths w w.
Proof. unfold sameExcept. auto. Qed.

Lemma sameExcept_trans (paths : list string) (w1 w2 w3 : World) :
  sameExcept paths w1 w2 -> sameExcept paths w2 w3 -> sameExcept paths w1 w3.
Proof.
  unfold sameExcept. intros (A1 & A2 & A3 & A4 & A5) (B1 & B2 & B3 & B4 & B5).
  repeat split; try congruence. intros q Hq. now rewrite B5, A5.
Qed.

Lemma sameExcept_console (paths : list string) (w : World) (msgs : list Msg) :
  sameExcept paths w (add_console w msgs).
Proof. unfold sameExcept. simpl. auto. Qed.

Lemma sameExcept_more (paths paths' : list string) (w w' : World) :
  (forall q, In q paths -> In q paths') ->
  sameExcept paths w w' -> sameExcept paths' w w'.
Proof.
  unfold sameExcept. intros Hsub (A1 & A2 & A3 & A4 & A5).
  repeat split; auto.
Qed.

Lemma sameExcept_write (p c : string) (w : World) :
  sameExcept [p] w (snd (writeFile p c w)).
Proof.
  rewrite writeFile_eq. destruct (has (readOnly w) p); cbn [snd].
  - apply sameExcept_refl.
  - unfold sameExcept. cbn. repeat split; auto.
    intros q Hq. rewrite disk_find_write.
    destruct (String.eqb q p) eqn:E; [|reflexivity].
    apply String.eqb_eq in E. subst q. exfalso. apply Hq. now left.
Qed.

(** A loop changes no more than its iterations do. *)
Lemma forEach_sameExcept {A} (paths : list string) (xs : list A)
  (body : A -> M unit) :
  (forall x w, In x xs -> sameExcept paths w (snd (body x w))) ->
  forall w, sameExcept paths w (snd (forEach xs body w)).
Proof.
  induction xs as [|x xs IH]; intros Hbody w; simpl.
  - apply sameExcept_refl.
  - unfold bind. pose proof (Hbody x w (or_introl eq_refl)) as H1.
    destruct (body x w) as [[[]| |c] w1]; cbn [snd] in *; try assumption.
    eapply sameExcept_trans; [exact H1|].
    apply IH. intros y w0 Hy. apply Hbody. now right.
Qed.

Lemma overwriteFiles_sameExcept (dir src utils : string)
  (def : ComponentDefinition) (w : World) :
  sameExcept (map (path_join dir) (files def)) w
    (snd (overwriteFiles dir src utils def w)).
Proof.
  unfold overwriteFiles. apply forEach_sameExcept. intros f w0 Hf.
  unfold bind, readFile.
  destruct (disk_find (disk w0) (path_join src f)) as [c|];
    [|apply sameExcept_refl].
  eapply sameExcept_more; [|apply sameExcept_write].
  intros q [<-|[]]. now apply in_map.
Qed.

(** ** diff only prints *)

Section DiffReadOnly.

Variable diffLines : string -> string -> list Change.
Variable reg : Registry.
Hypothesis reg_hasFiles : hasFiles reg.

Lemma showDiff_prints (nm localPath sourceDir utils : string) (w : World)
  (def : ComponentDefinition) :
  lookup reg nm = Some def ->
  exists msgs,
    showDiff diffLines reg nm localPath sourceDir utils w
    = (Ok tt, add_console w msgs).
Proof.
  intros Hl. unfold showDiff. rewrite Hl.
  pose proof (reg_hasFiles _ _ (lookup_In _ _ _ Hl)) as Hf.
  unfold firstFilePath, readFile, try_catch, bind, ret.
  destruct (files def) as [|f fs]; [contradiction|]. cbv beta iota.
  destruct (disk_find (disk w) localPath) as [lc|] eqn:L;
    [|eexists; apply print_eq].
  destruct (disk_find (disk w) (path_join sourceDir f)) as [sc|] eqn:S;
    [|eexists; apply print_eq].
  destruct (negb (differs lc (rewriteImports sc utils)));
    eexists; apply print_eq.
Qed.

End DiffReadOnly.



(** ** What [update] changes *)

Section UpdateEffect.

Variable reg : Registry.
Hypothesis reg_hasFiles : hasFiles reg.
Variables (w : World) (config : DiamantConfig).
Hypothesis manifest_parsed : manifest w = Parsed config.

(** [update] on a readable manifest, with the result of its checking loop
    written out. *)
Lemma update_unfold (components : list string) (yes answer : bool) :
  let comps := updateList config components in
  let checked :=
    flat_map
      (checkLine reg (aliases_components config) getComponentsSourceDir
         (importPathOf w config) (disk w)) comps in
  update reg components yes answer w
  = if Nat.eqb (List.length comps) 0 then print NoComponentsToUpdate w
    else if Nat.eqb (List.length (filter snd checked)) 0
         then print AllUpToDate w
         else applyUpdates reg config (importPathOf w config)
                (filter snd checked) yes answer w.
Proof.
  intros comps checked. unfold update.
  rewrite (bind_Ok _ _ _ _ _ (loadConfig_parsed w config manifest_parsed)).
  fold (updateList config components). fold comps.
  destruct (Nat.eqb (List.length comps) 0); [reflexivity|].
  unfold bind at 1. unfold detectProjectType.
  fold (importPathOf w config).
  rewrite (bind_Ok _ _ _ _ _
             (checkForUpdates_spec reg reg_hasFiles (aliases_components config)
                getComponentsSourceDir (importPathOf w config) comps w)).
  fold checked.
  destruct (Nat.eqb (List.length (filter snd checked)) 0); reflexivity.
Qed.

Lemma checked_known (components : list string) (e : string * bool) :
  In e (flat_map
          (checkLine reg (aliases_components config) getComponentsSourceDir
             (importPathOf w config) (disk w)) components) ->
  lookup reg (fst e) <> None.
Proof.
  rewrite in_flat_map. intros [nm [_ He]]. unfold checkLine in He.
  destruct (lookup reg (toLowerCase nm)) as [def|] eqn:E; [|destruct He].
  destruct (files def) as [|f fs]; [destruct He|].
  destruct (disk_find (disk w) (path_join (aliases_components config) f));
    [|destruct He].
  destruct (disk_find (disk w) (path_join getComponentsSourceDir f));
    [|destruct He].
  destruct He as [<-|[]]. simpl. congruence.
Qed.

End UpdateEffect.

Lemma filesOf_In (reg : Registry) (names : list string) (nm f : string)
  (def : ComponentDefinition) :
  In nm names -> lookup reg nm = Some def -> In f (files def) ->
  In f (filesOf reg names).
Proof.
  intros Hn Hl Hf. unfold filesOf. apply in_flat_map. exists nm.
  split; [assumption|]. now rewrite Hl.
Qed.

Lemma mapM_displayName_world (reg : Registry) (l : list string) (w : World) :
  exists r, mapM (displayName reg) l w = (r, w).
Proof.
  induction l as [|x l IH]; simpl.
  - exists (Ok []). reflexivity.
  - assert (H : displayName reg x w = (Ok (displayOf reg x), w)
                \/ displayName reg x w = (Throw, w)).
    { unfold displayName, displayOf. destruct (lookup reg x); auto. }
    destruct H as [H|H].
    + rewrite (bind_Ok _ _ _ _ _ H). destruct IH as [r Hr].
      unfold bind. rewrite Hr. destruct r; eexists; reflexivity.
    + unfold bind at 1. rewrite H. eexists. reflexivity.
Qed.

Lemma update_loop_sameExcept (reg : Registry) (dir src utils : string)
  (updateable : list (string * bool)) (w : World) :
  sameExcept (map (path_join dir) (filesOf reg (map fst updateable))) w
    (snd (forEach updateable
            (fun c =>
               match lookup reg (fst c) with
               | None => throw
               | Some componentDef => overwriteFiles dir src utils componentDef
               end) w)).
Proof.
  apply forEach_sameExcept. intros c w0 Hc.
  destruct (lookup reg (fst c)) as [def|] eqn:E; [|apply sameExcept_refl].
  eapply sameExcept_more; [|apply overwriteFiles_sameExcept].
  intros q Hq. apply in_map_iff in Hq. destruct Hq as [f [<- Hf]].
  apply in_map. apply (filesOf_In reg _ (fst c) f def); auto.
  now apply in_map.
Qed.

Lemma applyUpdates_sameExcept (reg : Registry) (config : DiamantConfig)
  (utils : string) (updateable : list (string * bool)) (yes answer : bool)
  (w : World) :
  exists r w',
    applyUpdates reg config utils updateable yes answer w = (r, w')
    /\ sameExcept
         (map (path_join (aliases_components config))
            (filesOf reg (map fst updateable))) w w'
    /\ (yes = false -> answer = false -> disk w' = disk w).
Proof.
  unfold applyUpdates.
  set (paths := map (path_join (aliases_components config))
                  (filesOf reg (map fst updateable))).
  destruct (mapM_displayName_world reg (map fst updateable) w) as [r Hr].
  unfold bind at 1. rewrite Hr.
  destruct r as [names| |c];
    [|exists Throw, w; split; [reflexivity|];
      split; [apply sameExcept_refl | reflexivity]
     |exists (Exit c), w; split; [reflexivity|];
      split; [apply sameExcept_refl | reflexivity]].
  unfold bind at 1. rewrite print_eq.
  set (w1 := add_console w [UpdatesAvailable names]).
  assert (H1 : sameExcept paths w w1) by apply sameExcept_console.
  assert (Hgo : exists r w',
             (forEach updateable
                (fun c =>
                   match lookup reg (fst c) with
                   | None => throw
                   | Some componentDef =>
                       overwriteFiles (aliases_components config)
                         getComponentsSourceDir utils componentDef
                   end) ;;
              print (Updated (List.length updateable))) w1 = (r, w')
             /\ sameExcept paths w w').
  { pose proof (update_loop_sameExcept reg (aliases_components config)
                  getComponentsSourceDir utils updateable w1) as HF.
    fold paths in HF. unfold bind.
    match goal with
    | |- context [forEach updateable ?b w1] =>
        destruct (forEach updateable b w1) as [[[]| |c] w2]
    end; cbn [snd] in HF.
    - rewrite print_eq. eexists. eexists. split; [reflexivity|].
      eapply sameExcept_trans; [exact H1|].
      eapply sameExcept_trans; [exact HF|]. apply sameExcept_console.
    - eexists. eexists. split; [reflexivity|].
      eapply sameExcept_trans; [exact H1 | exact HF].
    - eexists. eexists. split; [reflexivity|].
      eapply sameExcept_trans; [exact H1 | exact HF]. }
  destruct yes; cbn [negb].
  - unfold ret at 1. unfold bind at 1. cbn [negb].
    destruct Hgo as [r [w' [Hrun Hs]]]. exists r, w'.
    split; [exact Hrun|]. split; [exact Hs | discriminate].
  - destruct answer; cbn [negb].
    + unfold ret at 1. unfold bind at 1. cbn [negb].
      destruct Hgo as [r [w' [Hrun Hs]]]. exists r, w'.
      split; [exact Hrun|]. split; [exact Hs | discriminate].
    + unfold bind, ret. rewrite print_eq. cbn [negb].
      eexists. eexists. split; [reflexivity|]. split.
      * eapply sameExcept_trans; [exact H1|]. apply sameExcept_console.
      * reflexivity.
Qed.

(** X15.  [update] touches nothing but the files of the components it found
    changed.  On a readable manifest whose components directory is given in
    normal form, whatever the outcome, the manifest is
    as before and every file that is not a file of a component whose first
    file differs from its rewritten template is as before; without [--yes]
    and without a positive answer no file changes at all. *)
Theorem update_touches_only_modified_components (reg : Registry)
  (components : list string) (yes answer : bool) (w : World)
  (config : DiamantConfig) :
  hasFiles reg -> manifest w = Parsed config ->
  normalPath (aliases_components config) = true ->
  exists result w',
    update reg components yes answer w = (result, w')
    /\ sameExcept
         (map (path_join (aliases_components config))
            (filesOf reg (modifiedComponents reg w config components)))
         w w'
    /\ (yes = false -> answer = false -> disk w' = disk w).
Proof.
  intros Hfiles Hm _.
  rewrite (update_unfold reg Hfiles w config Hm components yes answer).
  destruct (Nat.eqb (List.length (updateList config components)) 0).
  - rewrite print_eq. eexists. eexists. split; [reflexivity|].
    split; [apply sameExcept_console | reflexivity].
  - match goal with
    | |- context [Nat.eqb (List.length ?l) 0] =>
        destruct (Nat.eqb (List.length l) 0)
    end.
    + rewrite print_eq. eexists. eexists. split; [reflexivity|].
      split; [apply sameExcept_console | reflexivity].
    + apply applyUpdates_sameExcept.
Qed.

Lemma update_touches_only_modified_components_witness :
  let w := sampleWorld ["button"]
             [("/diamant/dist/templates/components/Button.tsx", "fresh");
              ("src/components/ui/Button.tsx", "edited");
              ("src/components/ui/Card.tsx", "mine")] in
  exists result w',
    update registry [] true false w = (result, w')
    /\ manifest w' = manifest w
    /\ disk_find (disk w') "src/components/ui/Card.tsx" = Some "mine".
Proof.
  intros w.
  destruct (update_touches_only_modified_components registry [] true false w
              (sampleConfig ["button"]) registry_hasFiles eq_refl eq_refl)
    as [r [w' (Hrun & (H1 & _ & _ & _ & H5) & _)]].
  exists r, w'. split; [exact Hrun|]. split; [exact H1|].
  rewrite (H5 "src/components/ui/Card.tsx"); [reflexivity|].
  vm_compute. intuition discriminate.
Defined.

(** ** The copying loops when nothing fails *)

Lemma forEach_app {A} (xs ys : list A) (body : A -> M unit) (w : World) :
  forEach (xs ++ ys) body w = (forEach xs body ;; forEach ys body) w.
Proof.
  revert w. induction xs as [|x xs IH]; intros w; simpl.
  - reflexivity.
  - unfold bind. destruct (body x w) as [[[]| |c] w1]; try reflexivity.
    rewrite IH. reflexivity.
Qed.

Lemma copyable_after (src dir : string) (paths fs : list string) (w w' : World) :
  separate src dir ->
  (forall q, In q paths -> exists g, q = path_join dir g) ->
  sameExcept paths w w' -> copyable src dir w fs -> copyable src dir w' fs.
Proof.
  unfold copyable, sameExcept.
  intros Hsep Hpaths (_ & _ & Hro & _ & Hd) Hc f Hf.
  destruct (Hc f Hf) as [H1 H2]. rewrite Hro. split; [|assumption].
  rewrite Hd; [assumption|]. intros Hin.
  destruct (Hpaths _ Hin) as [g Hg]. exact (Hsep f g Hg).
Qed.

(** The writing loop of [update] over files that can all be copied. *)
Lemma write_loop_success (dir src utils : string) (fs : list string) (w : World) :
  separate src dir -> copyable src dir w fs ->
  exists w',
    forEach fs
      (fun file =>
         content <- readFile (path_join src file) ;;
         writeFile (path_join dir file) (rewriteImports content utils)) w
    = (Ok tt, w')
    /\ sameExcept (map (path_join dir) fs) w w'
    /\ console w' = console w
    /\ forall f c, In f fs -> disk_find (disk w) (path_join src f) = Some c ->
                   disk_find (disk w') (path_join dir f)
                   = Some (rewriteImports c utils).
Proof.
  intros Hsep. revert w. induction fs as [|f fs IH]; intros w Hcopy.
  - exists w. simpl. repeat split; auto. intros f c [].
  - destruct (Hcopy f (or_introl eq_refl)) as [Hsrc Hro].
    destruct (disk_find (disk w) (path_join src f)) as [c|] eqn:Ec;
      [|contradiction].
    set (w1 := set_disk w (disk_write (disk w) (path_join dir f)
                             (rewriteImports c utils))).
    assert (Hbody : (content <- readFile (path_join src f) ;;
                     writeFile (path_join dir f) (rewriteImports content utils)) w
                    = (Ok tt, w1)).
    { unfold bind, readFile. rewrite Ec. rewrite writeFile_eq, Hro.
      reflexivity. }
    assert (Hs1 : sameExcept [path_join dir f] w w1).
    { pose proof (sameExcept_write (path_join dir f) (rewriteImports c utils) w)
        as H. rewrite writeFile_eq, Hro in H. exact H. }
    assert (Hcopy1 : copyable src dir w1 fs).
    { apply (copyable_after src dir [path_join dir f] fs w w1 Hsep);
        [| exact Hs1 |].
      - intros q [<-|[]]. eauto.
      - intros g Hg. apply Hcopy. now right. }
    destruct (IH w1 Hcopy1) as [w' (Hrun & Hs & Hc & Hd)].
    exists w'. split; [|split; [|split]].
    + cbn [forEach]. rewrite (bind_Ok _ _ _ _ _ Hbody). exact Hrun.
    + eapply sameExcept_trans.
      * eapply sameExcept_more; [|exact Hs1]. intros q [<-|[]]. now left.
      * eapply sameExcept_more; [|exact Hs]. intros q Hq. now right.
    + rewrite Hc. reflexivity.
    + intros g cg Hg Hcg.
      assert (Hsrc1 : disk_find (disk w1) (path_join src g) = Some cg).
      { destruct Hs1 as (_ & _ & _ & _ & Hd1). rewrite Hd1; [assumption|].
        intros [Heq|[]]. exact (Hsep g f (eq_sym Heq)). }
      destruct (in_dec string_dec g fs) as [Hin|Hout].
      * now apply Hd.
      * destruct Hg as [<-|Hg]; [|contradiction].
        destruct Hs as (_ & _ & _ & _ & Hd'). rewrite Hd'.
        -- unfold w1. cbn [disk set_disk]. rewrite disk_find_write.
           rewrite String.eqb_refl. congruence.
        -- intros Hin. apply in_map_iff in Hin. destruct Hin as [g [Hg Hin]].
           apply path_join_inj in Hg. subst g. contradiction.
Qed.

Lemma update_loop_flat (reg : Registry) (dir src utils : string)
  (updateable : list (string * bool)) (w : World) :
  (forall c, In c updateable -> lookup reg (fst c) <> None) ->
  forEach updateable
    (fun c =>
       match lookup reg (fst c) with
       | None => throw
       | Some componentDef => overwriteFiles dir src utils componentDef
       end) w
  = forEach (filesOf reg (map fst updateable))
      (fun file =>
         content <- readFile (path_join src file) ;;
         writeFile (path_join dir file) (rewriteImports content utils)) w.
Proof.
  revert w. induction updateable as [|c cs IH]; intros w Hknown.
  - reflexivity.
  - assert (Hc : lookup reg (fst c) <> None) by (apply Hknown; now left).
    cbn [forEach map filesOf flat_map].
    destruct (lookup reg (fst c)) as [def|] eqn:E; [|contradiction].
    rewrite forEach_app. unfold overwriteFiles. unfold bind.
    match goal with
    | |- context [forEach (files def) ?b w] =>
        destruct (forEach (files def) b w) as [[[]| |x] w1]
    end; try reflexivity.
    apply IH. intros c' Hc'. apply Hknown. now right.
Qed.

(** ** update brings components up to date *)

Section UpdateSuccess.

Variable reg : Registry.
Hypothesis reg_hasFiles : hasFiles reg.
Variables (w : World) (config : DiamantConfig).
Hypothesis manifest_parsed : manifest w = Parsed config.
Variable components : list string.

Let dir := aliases_components config.
Let modified := modifiedComponents reg w config components.

Hypothesis paths_separate : separate getComponentsSourceDir dir.
Hypothesis modified_some : modified <> [].
Hypothesis modified_copyable :
  copyable getComponentsSourceDir dir w (filesOf reg modified).

Lemma update_success (yes answer : bool) :
  yes = true \/ answer = true ->
  exists w',
    update reg components yes answer w = (Ok tt, w')
    /\ sameExcept (map (path_join dir) (filesOf reg modified)) w w'
    /\ In (Updated (List.length modified)) (console w')
    /\ forall f c,
         In f (filesOf reg modified) ->
         disk_find (disk w) (path_join getComponentsSourceDir f) = Some c ->
         disk_find (disk w') (path_join dir f)
         = Some (rewriteImports c (importPathOf w config)).
Proof.
  intros Hconfirm.
  rewrite (update_unfold reg reg_hasFiles w config manifest_parsed
             components yes answer).
  unfold modified, modifiedComponents in *.
  set (checked := flat_map
                    (checkLine reg (aliases_components config)
                       getComponentsSourceDir (importPathOf w config) (disk w))
                    (updateList config components)) in *.
  set (updateable := filter snd checked) in *.
  assert (Hup : updateable <> []).
  { intros E. apply modified_some. now rewrite E. }
  assert (Hcomps : Nat.eqb (List.length (updateList config components)) 0
                   = false).
  { destruct (updateList config components); [|reflexivity].
    exfalso. apply Hup. reflexivity. }
  rewrite Hcomps.
  assert (Hlen : Nat.eqb (List.length updateable) 0 = false).
  { destruct updateable; [contradiction | reflexivity]. }
  rewrite Hlen.
  assert (Hknown : forall c, In c updateable -> lookup reg (fst c) <> None).
  { intros c Hc. apply filter_In in Hc. destruct Hc as [Hc _].
    eapply (checked_known reg w config), Hc. }
  unfold applyUpdates.
  rewrite (bind_Ok _ _ _ _ _
             (mapM_displayName reg (map fst updateable) w
                ltac:(intros nm Hnm; apply in_map_iff in Hnm;
                      destruct Hnm as [c [<- Hc]]; now apply Hknown))).
  unfold bind at 1. rewrite print_eq.
  set (w1 := add_console w
               [UpdatesAvailable (map (displayOf reg) (map fst updateable))]).
  assert (Hconf : (if negb yes then
                     if negb answer then print UpdateCancelled ;; ret false
                     else ret true
                   else ret true) w1 = (Ok true, w1)).
  { destruct yes; [reflexivity|]. destruct Hconfirm as [?| ->];
      [discriminate | reflexivity]. }
  rewrite (bind_Ok _ _ _ _ _ Hconf). cbn [negb].
  assert (Hcopy1 : copyable getComponentsSourceDir dir w1
                     (filesOf reg (map fst updateable)))
    by exact modified_copyable.
  destruct (write_loop_success dir getComponentsSourceDir
              (importPathOf w config) (filesOf reg (map fst updateable)) w1
              paths_separate Hcopy1) as [w2 (Hrun & Hs & Hc & Hd)].
  rewrite <- (update_loop_flat reg dir getComponentsSourceDir
                (importPathOf w config) updateable w1 Hknown) in Hrun.
  fold dir. rewrite (bind_Ok _ _ _ _ _ Hrun). rewrite print_eq.
  eexists. split; [reflexivity|]. split; [|split].
  - eapply sameExcept_trans; [apply sameExcept_console|].
    eapply sameExcept_trans; [exact Hs|]. apply sameExcept_console.
  - cbn [console add_console]. apply in_or_app. right.
    rewrite length_map. now left.
  - intros f c Hf Hsrc. cbn [disk add_console]. now apply Hd.
Qed.

(** After such an update the checking loop finds no change. *)
Lemma checked_after_update (w' : World) :
  sameExcept (map (path_join dir) (filesOf reg modified)) w w' ->
  (forall f c,
      In f (filesOf reg modified) ->
      disk_find (disk w) (path_join getComponentsSourceDir f) = Some c ->
      disk_find (disk w') (path_join dir f)
      = Some (rewriteImports c (importPathOf w config))) ->
  forall nm e,
    In nm (updateList config components) ->
    In e (checkLine reg dir getComponentsSourceDir (importPathOf w config)
            (disk w') nm) ->
    snd e = false.
Proof.
  intros (_ & _ & _ & _ & Hd) Hfresh nm e Hnm He.
  assert (Hsrc : forall f, disk_find (disk w')
                             (path_join getComponentsSourceDir f)
                           = disk_find (disk w)
                               (path_join getComponentsSourceDir f)).
  { intros f. apply Hd. intros Hin. apply in_map_iff in Hin.
    destruct Hin as [g [Hg _]]. exact (paths_separate f g (eq_sym Hg)). }
  unfold checkLine in He.
  destruct (lookup reg (toLowerCase nm)) as [def|] eqn:El; [|destruct He].
  destruct (files def) as [|f1 fs] eqn:Ef; [destruct He|].
  destruct (disk_find (disk w') (path_join dir f1)) as [lc'|] eqn:Elc;
    [|destruct He].
  rewrite Hsrc in He.
  destruct (disk_find (disk w) (path_join getComponentsSourceDir f1))
    as [sc|] eqn:Esc; [|destruct He].
  destruct He as [<-|[]]. cbn [snd].
  destruct (in_dec string_dec f1 (filesOf reg modified)) as [Hin|Hout].
  - rewrite (Hfresh f1 sc Hin Esc) in Elc. injection Elc as <-.
    apply differs_same.
  - assert (Hsame : disk_find (disk w') (path_join dir f1)
                    = disk_find (disk w) (path_join dir f1)).
    { apply Hd. intros Hin. apply in_map_iff in Hin.
      destruct Hin as [g [Hg Hin]]. apply path_join_inj in Hg. now subst g. }
    rewrite Hsame in Elc.
    destruct (differs lc' (rewriteImports sc (importPathOf w config))) eqn:Ediff;
      [|reflexivity].
    exfalso. apply Hout.
    apply (filesOf_In reg modified (toLowerCase nm) f1 def); auto.
    + unfold modified, modifiedComponents.
      apply in_map_iff. exists (toLowerCase nm, true). split; [reflexivity|].
      apply filter_In. split; [|reflexivity].
      apply in_flat_map. exists nm. split; [assumption|].
      unfold checkLine. rewrite El, Ef. fold dir. rewrite Elc, Esc, Ediff.
      now left.
    + rewrite Ef. now left.
Qed.

End UpdateSuccess.

Lemma sample_paths_separate :
  separate getComponentsSourceDir (aliases_components (sampleConfig [])).
Proof. intros f g H. discriminate H. Qed.


Lemma editedButton_copyable :
  copyable getComponentsSourceDir "src/components/ui" editedButton
    (filesOf registry
       (modifiedComponents registry editedButton (sampleConfig ["button"]) [])).
Proof.
  intros f Hf. vm_compute in Hf. destruct Hf as [<-|[]].
  split; [vm_compute; discriminate | reflexivity].
Qed.




(** ** The first steps of [add] *)

Section AddSteps.

Variable reg : Registry.
Hypothesis reg_hasFiles : hasFiles reg.

Lemma classifyExisting_spec (dir : string) (names : list string) (w : World) :
  (forall nm, In nm names -> lookup reg nm <> None) ->
  classifyExisting reg dir names w
  = (Ok (filter (firstFilePresent reg dir (disk w)) names,
         filter (fun nm => negb (firstFilePresent reg dir (disk w) nm)) names),
     w).
Proof.
  unfold classifyExisting.
  assert (G : forall l acc,
             (forall nm, In nm l -> lookup reg nm <> None) ->
             forEachAcc l acc
               (fun acc nm =>
                  match lookup reg nm with
                  | None => ret acc
                  | Some componentDef =>
                      componentPath <- firstFilePath dir componentDef ;;
                      present <- fileExists componentPath ;;
                      ret (if present then (fst acc ++ [nm], snd acc)
                           else (fst acc, snd acc ++ [nm]))
                  end) w
             = (Ok (fst acc ++ filter (firstFilePresent reg dir (disk w)) l,
                    snd acc
                    ++ filter (fun nm =>
                                 negb (firstFilePresent reg dir (disk w) nm)) l),
                w)).
  { induction l as [|nm l IH]; intros acc Hknown; simpl.
    - unfold ret. rewrite !app_nil_r. now destruct acc.
    - assert (Hnm : lookup reg nm <> None) by (apply Hknown; now left).
      destruct (lookup reg nm) as [def|] eqn:E; [|contradiction].
      pose proof (reg_hasFiles nm def (lookup_In _ _ _ E)) as Hf.
      destruct (files def) as [|f fs] eqn:Ef; [contradiction|].
      assert (Hp : firstFilePresent reg dir (disk w) nm
                   = match disk_find (disk w) (path_join dir f) with
                     | Some _ => true
                     | None => false
                     end).
      { unfold firstFilePresent, onDiskAt. now rewrite E, Ef. }
      rewrite Hp.
      unfold bind at 1. unfold firstFilePath, fileExists, bind, ret.
      rewrite Ef.
      destruct (disk_find (disk w) (path_join dir f)); cbn [negb];
        rewrite IH by (intros; apply Hknown; now right); cbn [fst snd];
        now rewrite <- app_assoc. }
  intros Hknown. rewrite G by assumption. reflexivity.
Qed.

Lemma forEach_print (lines : list string) (w : World) :
  forEach lines (fun l => print (Warned l)) w
  = (Ok tt, add_console w (map Warned lines)).
Proof.
  revert w. induction lines as [|l lines IH]; intros w; simpl.
  - unfold ret. now rewrite add_console_nil.
  - unfold bind. rewrite print_eq, IH, add_console_app. reflexivity.
Qed.

Lemma resolved_known (names : list string) (nm : string) :
  In nm (resolveComponentDependencies reg names) -> lookup reg nm <> None.
Proof.
  intros H. now apply (resolved_sound reg names) in H.
Qed.

(** [add] on a readable manifest, up to the choice of [options.overwrite]. *)
Lemma add_unfold (components : list string) (options : AddOptions)
  (answers : AddAnswers) (w : World) (config : DiamantConfig) :
  manifest w = Parsed config ->
  let names := requestedNames reg components options answers in
  let resolved := resolveComponentDependencies reg names in
  let dir := aliases_components config in
  let existing := filter (firstFilePresent reg dir (disk w)) resolved in
  let new :=
    filter (fun nm => negb (firstFilePresent reg dir (disk w) nm)) resolved in
  let w0 := add_console w (map Warned (resolveWarnings reg names)) in
  add reg components options answers w
  = if Nat.eqb (List.length names) 0 then print NoComponentsSelected w
    else
      (settled <- settleOverwrite reg options answers existing new ;;
       match settled with
       | None => ret tt
       | Some overwrite =>
           addSettled reg config names resolved existing new overwrite answers
       end) w0.
Proof.
  intros Hm names resolved dir existing new w0. unfold add.
  rewrite (bind_Ok _ _ _ _ _ (loadConfig_parsed w config Hm)).
  assert (Hgo : forall l,
             addResolved reg config l options answers w
             = (settled <-
                  settleOverwrite reg options answers
                    (filter (firstFilePresent reg dir (disk w))
                       (resolveComponentDependencies reg l))
                    (filter (fun nm =>
                               negb (firstFilePresent reg dir (disk w) nm))
                       (resolveComponentDependencies reg l)) ;;
                match settled with
                | None => ret tt
                | Some overwrite =>
                    addSettled reg config l (resolveComponentDependencies reg l)
                      (filter (firstFilePresent reg dir (disk w))
                         (resolveComponentDependencies reg l))
                      (filter (fun nm =>
                                 negb (firstFilePresent reg dir (disk w) nm))
                         (resolveComponentDependencies reg l))
                      overwrite answers
                end)
                 (add_console w (map Warned (resolveWarnings reg l)))).
  { intros l. unfold addResolved.
    rewrite (bind_Ok _ _ _ _ _ (forEach_print (resolveWarnings reg l) w)).
    rewrite (bind_Ok _ _ _ _ _
               (classifyExisting_spec dir (resolveComponentDependencies reg l)
                  _ (resolved_known l))).
    reflexivity. }
  unfold names, requestedNames in *. unfold resolved, existing, new, w0.
  destruct (Nat.eqb
              (List.length
                 (if opt_all options then getAllComponentNames reg
                  else components)) 0) eqn:E.
  - destruct (Nat.eqb (List.length (selection answers)) 0); [reflexivity|].
    apply Hgo.
  - rewrite E. apply Hgo.
Qed.

End AddSteps.

(** ** The copying pass of [add] *)

Lemma addTo_In (nm id : string) (l : list string) :
  In id (addTo nm l) <-> In id l \/ id = nm.
Proof.
  unfold addTo. destruct (has l nm) eqn:E.
  - apply has_In in E. split; [auto|]. intros [H| ->]; assumption.
  - split.
    + intros H. apply (Permutation_in _ (Permutation_sym (sort_perm _))) in H.
      apply in_app_or in H. destruct H as [H|[H|[]]]; auto.
    + intros H. apply (Permutation_in _ (sort_perm _)), in_or_app.
      destruct H as [H| ->]; [now left | right; now left].
Qed.

Lemma addTo_again (nm : string) (l : list string) :
  addTo nm (addTo nm l) = addTo nm l.
Proof.
  unfold addTo at 1.
  assert (H : has (addTo nm l) nm = true).
  { apply has_In, addTo_In. now right. }
  now rewrite H.
Qed.

Lemma addTo_valid (nm : string) (l : list string) :
  validList l -> validList (addTo nm l).
Proof.
  unfold validList, addTo. intros [Hord Hnd].
  destruct (has l nm) eqn:E; [auto|]. apply has_false_In in E. split.
  - apply sort_ordered.
  - apply (Permutation_NoDup (sort_perm _)), NoDup_snoc; assumption.
Qed.

Lemma withAll_In (added l : list string) (id : string) :
  In id (withAll added l) <-> In id l \/ In id added.
Proof.
  unfold withAll. revert l. induction added as [|a added IH]; intros l; simpl.
  - tauto.
  - rewrite IH, addTo_In. intuition.
Qed.

Lemma withAll_valid (added l : list string) :
  validList l -> validList (withAll added l).
Proof.
  unfold withAll. revert l. induction added as [|a added IH]; intros l H; simpl.
  - assumption.
  - now apply IH, addTo_valid.
Qed.

Lemma addInstalledComponent_effect (nm : string) (w : World)
  (config : DiamantConfig) :
  manifest w = Parsed config ->
  exists w',
    addInstalledComponent nm w = (Ok tt, w')
    /\ manifest w'
       = Parsed (set_installed config (addTo nm (installedComponents config)))
    /\ disk w' = disk w /\ readOnly w' = readOnly w
    /\ projectType w' = projectType w /\ console w' = console w.
Proof.
  intros Hm. unfold addInstalledComponent, bind, readConfig, addTo.
  rewrite Hm. destruct (has (installedComponents config) nm); cbn [negb].
  - exists w. rewrite set_installed_same. repeat split; auto.
  - eexists. split; [reflexivity|]. cbn. repeat split.
Qed.

Lemma addInstalledComponent_world (nm : string) (w : World) :
  exists w',
    addInstalledComponent nm w = (Ok tt, w')
    /\ disk w' = disk w /\ readOnly w' = readOnly w
    /\ projectType w' = projectType w.
Proof.
  destruct (manifest w) as [| |config] eqn:Hm.
  - exists w. unfold addInstalledComponent, bind, readConfig. rewrite Hm. auto.
  - exists w. unfold addInstalledComponent, bind, readConfig. rewrite Hm. auto.
  - destruct (addInstalledComponent_effect nm w config Hm)
      as [w' (H1 & _ & H3 & H4 & H5 & _)].
    exists w'. auto.
Qed.

Lemma sameFilesExcept_refl (paths : list string) (w : World) :
  sameFilesExcept paths w w.
Proof. unfold sameFilesExcept. auto. Qed.

Lemma sameFilesExcept_trans (paths : list string) (w1 w2 w3 : World) :
  sameFilesExcept paths w1 w2 -> sameFilesExcept paths w2 w3 ->
  sameFilesExcept paths w1 w3.
Proof.
  unfold sameFilesExcept. intros (A1 & A2 & A3) (B1 & B2 & B3).
  repeat split; try congruence. intros q Hq. now rewrite B3, A3.
Qed.

Lemma sameFilesExcept_more (paths paths' : list string) (w w' : World) :
  (forall q, In q paths -> In q paths') ->
  sameFilesExcept paths w w' -> sameFilesExcept paths' w w'.
Proof.
  unfold sameFilesExcept. intros Hsub (A1 & A2 & A3). repeat split; auto.
Qed.

Lemma sameFilesExcept_console (paths : list string) (w : World)
  (msgs : list Msg) :
  sameFilesExcept paths w (add_console w msgs).
Proof. unfold sameFilesExcept. simpl. auto. Qed.

Lemma sameExcept_files (paths : list string) (w w' : World) :
  sameExcept paths w w' -> sameFilesExcept paths w w'.
Proof. unfold sameExcept, sameFilesExcept. tauto. Qed.

Lemma forEach_sameFilesExcept {A} (paths : list string) (xs : list A)
  (body : A -> M unit) :
  (forall x w, In x xs -> sameFilesExcept paths w (snd (body x w))) ->
  forall w, sameFilesExcept paths w (snd (forEach xs body w)).
Proof.
  induction xs as [|x xs IH]; intros Hbody w; simpl.
  - apply sameFilesExcept_refl.
  - unfold bind. pose proof (Hbody x w (or_introl eq_refl)) as H1.
    destruct (body x w) as [[[]| |c] w1]; cbn [snd] in *; try assumption.
    eapply sameFilesExcept_trans; [exact H1|].
    apply IH. intros y w0 Hy. apply Hbody. now right.
Qed.

(** One file of the copying pass, whatever happens. *)
Lemma copy_file_frame (nm src dir utils f : string) (w : World) :
  sameFilesExcept [path_join dir f] w
    (snd (try_catch
            (content <- readFile (path_join src f) ;;
             let content := rewriteImports content utils in
             writeFile (path_join dir f) content ;;
             addInstalledComponent nm)
            (print (FailedToCopy f) ;; exit 1) w)).
Proof.
  unfold try_catch, bind at 1, readFile.
  destruct (disk_find (disk w) (path_join src f)) as [c|].
  - cbv zeta. unfold bind at 1. rewrite writeFile_eq.
    destruct (has (readOnly w) (path_join dir f)) eqn:Ero.
    + unfold bind. rewrite print_eq. cbn [snd exit].
      apply sameFilesExcept_console.
    + destruct (addInstalledComponent_world nm
                  (set_disk w (disk_write (disk w) (path_join dir f)
                                 (rewriteImports c utils))))
        as [w' (Hrun & Hd & Hro & Hpt)].
      rewrite Hrun. cbn [snd]. unfold sameFilesExcept.
      rewrite Hd, Hro, Hpt. cbn. repeat split.
      intros q Hq. rewrite disk_find_write.
      destruct (String.eqb q (path_join dir f)) eqn:E; [|reflexivity].
      apply String.eqb_eq in E. subst q. exfalso. apply Hq. now left.
  - unfold bind. rewrite print_eq. cbn [snd exit].
    apply sameFilesExcept_console.
Qed.

Lemma copy_loop_frame (reg : Registry) (dir src utils : string)
  (componentsToAdd : list string) (w : World) :
  sameFilesExcept (map (path_join dir) (filesOf reg componentsToAdd)) w
    (snd (forEach componentsToAdd (copyComponent reg dir src utils) w)).
Proof.
  apply forEach_sameFilesExcept. intros nm w0 Hnm. unfold copyComponent.
  destruct (lookup reg nm) as [def|] eqn:E; [|apply sameFilesExcept_refl].
  apply forEach_sameFilesExcept. intros f w1 Hf.
  eapply sameFilesExcept_more; [|apply copy_file_frame].
  intros q [<-|[]]. apply in_map.
  apply (filesOf_In reg _ nm f def); auto.
Qed.

(** The files of one component, when nothing fails. *)
Lemma copy_files_success (nm src dir utils : string) (fs : list string) :
  separate src dir ->
  forall (w : World) (config : DiamantConfig),
    manifest w = Parsed config -> copyable src dir w fs ->
    exists w',
      forEach fs
        (fun file =>
           try_catch
             (content <- readFile (path_join src file) ;;
              let content := rewriteImports content utils in
              writeFile (path_join dir file) content ;;
              addInstalledComponent nm)
             (print (FailedToCopy file) ;; exit 1)) w = (Ok tt, w')
      /\ sameFilesExcept (map (path_join dir) fs) w w'
      /\ console w' = console w
      /\ manifest w'
         = Parsed (set_installed config
                     (match fs with
                      | [] => installedComponents config
                      | _ => addTo nm (installedComponents config)
                      end))
      /\ forall f c, In f fs -> disk_find (disk w) (path_join src f) = Some c ->
                     disk_find (disk w') (path_join dir f)
                     = Some (rewriteImports c utils).
Proof.
  intros Hsep. induction fs as [|f fs IH]; intros w config Hm Hcopy.
  - exists w. simpl. rewrite set_installed_same.
    split; [reflexivity|]. split; [apply sameFilesExcept_refl|].
    repeat split; auto. intros f c [].
  - destruct (Hcopy f (or_introl eq_refl)) as [Hsrc Hro].
    destruct (disk_find (disk w) (path_join src f)) as [c|] eqn:Ec;
      [|contradiction].
    set (w1 := set_disk w (disk_write (disk w) (path_join dir f)
                             (rewriteImports c utils))).
    destruct (addInstalledComponent_effect nm w1 config Hm)
      as [w2 (Hadd & Hm2 & Hd2 & Hro2 & Hpt2 & Hc2)].
    assert (Hbody : try_catch
                      (content <- readFile (path_join src f) ;;
                       let content := rewriteImports content utils in
                       writeFile (path_join dir f) content ;;
                       addInstalledComponent nm)
                      (print (FailedToCopy f) ;; exit 1) w = (Ok tt, w2)).
    { unfold try_catch, bind at 1, readFile. rewrite Ec. cbv zeta.
      unfold bind at 1. rewrite writeFile_eq, Hro. fold w1. now rewrite Hadd. }
    assert (Hs1 : sameFilesExcept [path_join dir f] w w2).
    { unfold sameFilesExcept. rewrite Hd2, Hro2, Hpt2. cbn. repeat split.
      intros q Hq. rewrite disk_find_write.
      destruct (String.eqb q (path_join dir f)) eqn:E; [|reflexivity].
      apply String.eqb_eq in E. subst q. exfalso. apply Hq. now left. }
    assert (Hdisk2 : forall g, disk_find (disk w2) (path_join src g)
                               = disk_find (disk w) (path_join src g)).
    { intros g. destruct Hs1 as (_ & _ & H). apply H.
      intros [Heq|[]]. exact (Hsep g f (eq_sym Heq)). }
    assert (Hcopy2 : copyable src dir w2 fs).
    { intros g Hg. destruct (Hcopy g (or_intror Hg)) as [H1 H2].
      rewrite Hdisk2, Hro2. auto. }
    destruct (IH w2 _ Hm2 Hcopy2) as [w' (Hrun & Hs & Hc & Hm' & Hd)].
    exists w'. split; [|split; [|split; [|split]]].
    + cbn [forEach]. rewrite (bind_Ok _ _ _ _ _ Hbody). exact Hrun.
    + eapply sameFilesExcept_trans.
      * eapply sameFilesExcept_more; [|exact Hs1]. intros q [<-|[]]. now left.
      * eapply sameFilesExcept_more; [|exact Hs]. intros q Hq. now right.
    + rewrite Hc, Hc2. reflexivity.
    + rewrite Hm'. cbn [set_installed installedComponents typescript
                          tailwind_config tailwind_css aliases_components
                          aliases_utils].
      destruct fs; [reflexivity|]. now rewrite addTo_again.
    + intros g cg Hg Hcg.
      destruct (in_dec string_dec g fs) as [Hin|Hout].
      * apply Hd; [assumption|]. now rewrite Hdisk2.
      * destruct Hg as [<-|Hg]; [|contradiction].
        destruct Hs as (_ & _ & Hd'). rewrite Hd'.
        -- rewrite Hd2. unfold w1. cbn [disk set_disk].
           rewrite disk_find_write, String.eqb_refl. congruence.
        -- intros Hin. apply in_map_iff in Hin. destruct Hin as [g [Hg Hin]].
           apply path_join_inj in Hg. subst g. contradiction.
Qed.

(** The whole copying loop, when nothing fails. *)
Lemma copy_loop_success (reg : Registry) (src dir utils : string)
  (componentsToAdd : list string) :
  hasFiles reg -> separate src dir ->
  (forall nm, In nm componentsToAdd -> lookup reg nm <> None) ->
  forall (w : World) (config : DiamantConfig),
    manifest w = Parsed config ->
    copyable src dir w (filesOf reg componentsToAdd) ->
    exists w',
      forEach componentsToAdd (copyComponent reg dir src utils) w = (Ok tt, w')
      /\ sameFilesExcept (map (path_join dir) (filesOf reg componentsToAdd)) w w'
      /\ console w' = console w
      /\ manifest w'
         = Parsed (set_installed config
                     (withAll componentsToAdd (installedComponents config)))
      /\ forall f c, In f (filesOf reg componentsToAdd) ->
                     disk_find (disk w) (path_join src f) = Some c ->
                     disk_find (disk w') (path_join dir f)
                     = Some (rewriteImports c utils).
Proof.
  intros Hfiles Hsep.
  induction componentsToAdd as [|nm rest IH]; intros Hknown w config Hm Hcopy.
  - exists w. simpl. rewrite set_installed_same.
    split; [reflexivity|]. split; [apply sameFilesExcept_refl|].
    repeat split; auto. intros f c [].
  - assert (Hnm : lookup reg nm <> None) by (apply Hknown; now left).
    destruct (lookup reg nm) as [def|] eqn:E; [|contradiction].
    pose proof (Hfiles nm def (lookup_In _ _ _ E)) as Hf.
    assert (Hfs : filesOf reg (nm :: rest) = files def ++ filesOf reg rest).
    { unfold filesOf. cbn [flat_map]. now rewrite E. }
    rewrite Hfs in *.
    assert (Hcopy1 : copyable src dir w (files def)).
    { intros f Hin. apply Hcopy, in_or_app. now left. }
    destruct (copy_files_success nm src dir utils (files def) Hsep w config
                Hm Hcopy1) as [w1 (Hrun1 & Hs1 & Hc1 & Hm1 & Hd1)].
    assert (Hdisk1 : forall g, disk_find (disk w1) (path_join src g)
                               = disk_find (disk w) (path_join src g)).
    { intros g. destruct Hs1 as (_ & _ & H). apply H. intros Hin.
      apply in_map_iff in Hin. destruct Hin as [x [Hx _]].
      exact (Hsep g x (eq_sym Hx)). }
    assert (Hcopy2 : copyable src dir w1 (filesOf reg rest)).
    { intros g Hg. destruct (Hcopy g (in_or_app _ _ _ (or_intror Hg)))
        as [H1 H2].
      destruct Hs1 as (Hro & _ & _). rewrite Hdisk1, Hro. auto. }
    destruct (IH (fun x Hx => Hknown x (or_intror Hx)) w1 _ Hm1 Hcopy2)
      as [w' (Hrun & Hs & Hc & Hm' & Hd)].
    exists w'. split; [|split; [|split; [|split]]].
    + cbn [forEach]. unfold copyComponent at 1. rewrite E.
      rewrite (bind_Ok _ _ _ _ _ Hrun1). exact Hrun.
    + rewrite map_app. eapply sameFilesExcept_trans.
      * eapply sameFilesExcept_more; [|exact Hs1].
        intros q Hq. apply in_or_app. now left.
      * eapply sameFilesExcept_more; [|exact Hs].
        intros q Hq. apply in_or_app. now right.
    + congruence.
    + rewrite Hm'. cbn [set_installed installedComponents typescript
                          tailwind_config tailwind_css aliases_components
                          aliases_utils withAll fold_left].
      destruct (files def); [contradiction | reflexivity].
    + intros g cg Hg Hcg.
      destruct (in_dec string_dec g (filesOf reg rest)) as [Hin|Hout].
      * apply Hd; [assumption|]. now rewrite Hdisk1.
      * apply in_app_or in Hg. destruct Hg as [Hg|Hg]; [|contradiction].
        destruct Hs as (_ & _ & Hd'). rewrite Hd'.
        -- now apply Hd1.
        -- intros Hin. apply in_map_iff in Hin. destruct Hin as [x [Hx Hin]].
           apply path_join_inj in Hx. subst x. contradiction.
Qed.

(** ** [add] after the choice of what to copy *)

Section AddSettled.

Variable reg : Registry.
Hypothesis reg_hasFiles : hasFiles reg.
Variable config : DiamantConfig.

Lemma adding_lines (components existing componentsToAdd : list string)
  (w : World) :
  (forall nm, In nm componentsToAdd -> lookup reg nm <> None) ->
  exists lines,
    mapM
      (fun nm =>
         display <- displayName reg nm ;;
         let isNew := negb (has existing nm) in
         let isDep := negb (has (map toLowerCase components) nm) in
         ret (isNew, display, isDep))
      componentsToAdd w = (Ok lines, w).
Proof.
  induction componentsToAdd as [|nm l IH]; intros H; simpl.
  - eexists. reflexivity.
  - destruct (IH (fun x Hx => H x (or_intror Hx))) as [lines Hl].
    eexists.
    rewrite (bind_Ok _ _ _ _ _
               (bind_Ok _ _ _ _ _
                  (displayName_known reg nm w (H nm (or_introl eq_refl))))).
    cbv zeta. unfold ret at 1.
    rewrite (bind_Ok _ _ _ _ _ Hl). reflexivity.
Qed.

Lemma addSettled_unfold
  (components resolved existing new : list string) (overwrite : bool)
  (answers : AddAnswers) (w : World) :
  let componentsToAdd := if overwrite then resolved else new in
  (forall nm, In nm componentsToAdd -> lookup reg nm <> None) ->
  componentsToAdd <> [] ->
  exists msgs,
    addSettled reg config components resolved existing new overwrite answers w
    = (forEach componentsToAdd
         (copyComponent reg (aliases_components config) getComponentsSourceDir
            (importPathOf w config)) ;;
       print (AddedSuccessfully (List.length componentsToAdd)))
        (add_console w msgs).
Proof.
  intros componentsToAdd Hknown Hsome. unfold addSettled.
  fold componentsToAdd.
  destruct componentsToAdd as [|c cs] eqn:E; [contradiction|].
  rewrite <- E in *. assert (Hlen : Nat.eqb (List.length componentsToAdd) 0 = false)
    by now rewrite E.
  rewrite Hlen.
  destruct (adding_lines components existing componentsToAdd w Hknown)
    as [lines Hl].
  rewrite (bind_Ok _ _ _ _ _ Hl).
  rewrite (bind_Ok _ _ _ _ _ (print_eq _ _)). cbv zeta.
  assert (Hwhen : exists ms,
             when (negb (Nat.eqb
                           (List.length (getNpmDependencies reg componentsToAdd))
                           0))
               (if installSucceeds answers
                then print (InstalledDeps
                              (getNpmDependencies reg componentsToAdd))
                else print ManualInstallNeeded)
               (add_console w [Adding lines])
             = (Ok tt, add_console w ms)).
  { unfold when.
    destruct (negb (Nat.eqb
                      (List.length (getNpmDependencies reg componentsToAdd)) 0)).
    - destruct (installSucceeds answers); rewrite print_eq, add_console_app;
        eexists; reflexivity.
    - eexists. reflexivity. }
  destruct Hwhen as [ms Hwhen]. exists ms.
  rewrite (bind_Ok _ _ _ _ _ Hwhen).
  unfold copyComponents, detectProjectType.
  reflexivity.
Qed.

(** Whatever happens, [add] writes nowhere but to the files of the
    components it copies. *)
Lemma addSettled_frame
  (components resolved existing new : list string) (overwrite : bool)
  (answers : AddAnswers) (w : World) :
  let componentsToAdd := if overwrite then resolved else new in
  (forall nm, In nm componentsToAdd -> lookup reg nm <> None) ->
  sameFilesExcept
    (map (path_join (aliases_components config)) (filesOf reg componentsToAdd))
    w
    (snd (addSettled reg config components resolved existing new overwrite
            answers w)).
Proof.
  intros componentsToAdd Hknown.
  destruct componentsToAdd as [|c cs] eqn:E.
  - unfold addSettled. fold componentsToAdd. rewrite E. cbn [List.length Nat.eqb].
    rewrite print_eq. apply sameFilesExcept_console.
  - rewrite <- E in *.
    destruct (addSettled_unfold components resolved existing new overwrite
                answers w Hknown) as [msgs Hrun].
    { fold componentsToAdd. rewrite E. discriminate. }
    fold componentsToAdd in Hrun. rewrite Hrun.
    eapply sameFilesExcept_trans; [apply (sameFilesExcept_console _ w msgs)|].
    unfold bind.
    pose proof (copy_loop_frame reg (aliases_components config)
                  getComponentsSourceDir (importPathOf w config)
                  componentsToAdd (add_console w msgs)) as Hf.
    destruct (forEach componentsToAdd _ (add_console w msgs))
      as [[[]| |code] w1]; cbn [snd] in *; exact Hf.
Qed.

(** When nothing fails, every file copied holds its rewritten template and
    the manifest lists what was copied. *)
Lemma addSettled_success
  (components resolved existing new : list string) (overwrite : bool)
  (answers : AddAnswers) (w : World) :
  let componentsToAdd := if overwrite then resolved else new in
  manifest w = Parsed config ->
  separate getComponentsSourceDir (aliases_components config) ->
  (forall nm, In nm componentsToAdd -> lookup reg nm <> None) ->
  componentsToAdd <> [] ->
  copyable getComponentsSourceDir (aliases_components config) w
    (filesOf reg componentsToAdd) ->
  exists w',
    addSettled reg config components resolved existing new overwrite answers w
    = (Ok tt, w')
    /\ sameFilesExcept
         (map (path_join (aliases_components config))
            (filesOf reg componentsToAdd)) w w'
    /\ manifest w'
       = Parsed (set_installed config
                   (withAll componentsToAdd (installedComponents config)))
    /\ In (AddedSuccessfully (List.length componentsToAdd)) (console w')
    /\ forall f, In f (filesOf reg componentsToAdd) ->
                 freshCopy w config f <> None
                 /\ disk_find (disk w') (path_join (aliases_components config) f)
                    = freshCopy w config f.
Proof.
  intros componentsToAdd Hm Hsep Hknown Hsome Hcopy.
  destruct (addSettled_unfold components resolved existing new overwrite
              answers w Hknown Hsome) as [msgs Hrun].
  fold componentsToAdd in Hrun.
  destruct (copy_loop_success reg getComponentsSourceDir
              (aliases_components config) (importPathOf w config)
              componentsToAdd reg_hasFiles Hsep Hknown (add_console w msgs)
              config Hm Hcopy) as [w1 (Hloop & Hs & Hc & Hm1 & Hd)].
  exists (add_console w1 [AddedSuccessfully (List.length componentsToAdd)]).
  split; [|split; [|split; [|split]]].
  - rewrite Hrun, (bind_Ok _ _ _ _ _ Hloop). apply print_eq.
  - eapply sameFilesExcept_trans; [apply (sameFilesExcept_console _ w msgs)|].
    eapply sameFilesExcept_trans; [exact Hs|apply sameFilesExcept_console].
  - exact Hm1.
  - cbn [console add_console]. apply in_or_app. right. now left.
  - intros f Hf. unfold freshCopy. destruct (Hcopy f Hf) as [Hsrc _].
    destruct (disk_find (disk w) (path_join getComponentsSourceDir f))
      as [c|] eqn:Ec; [|contradiction].
    split; [discriminate|]. cbn [disk add_console].
    apply (Hd f c Hf). exact Ec.
Qed.

End AddSettled.

(** ** The [add] command *)

Section AddCommand.

Variable reg : Registry.
Hypothesis reg_hasFiles : hasFiles reg.
Variables (w : World) (config : DiamantConfig).
Hypothesis manifest_parsed : manifest w = Parsed config.
Variables (components : list string) (options : AddOptions)
  (answers : AddAnswers).

Let names := requestedNames reg components options answers.
Let resolved := addClosure reg components options answers.
Let dir := aliases_components config.
Let existing := filter (firstFilePresent reg dir (disk w)) resolved.
Let new :=
  filter (fun nm => negb (firstFilePresent reg dir (disk w) nm)) resolved.

Lemma resolve_nothing : resolveComponentDependencies reg [] = [].
Proof.
  assert (Hrun : resolve_run reg []
                 = Some (mkResolve [] [] ([] ++ map unknownWarning (rev [])))).
  { apply resolve_run_from_loop with (n := 1).
    apply resolve_loop_all_unknown. intros nm []. }
  unfold resolveComponentDependencies. now rewrite Hrun.
Qed.

Lemma names_of_resolved :
  resolved <> [] -> Nat.eqb (List.length names) 0 = false.
Proof.
  unfold resolved, addClosure. fold names. intros H.
  destruct names; [|reflexivity]. exfalso. apply H, resolve_nothing.
Qed.

Lemma settle_copies_all (w0 : World) :
  copiesAll reg config w options resolved ->
  exists overwrite,
    settleOverwrite reg options answers existing new w0
    = (Ok (Some overwrite), w0)
    /\ (if overwrite then resolved else new) = resolved.
Proof.
  intros [Hov|Hfresh].
  - exists true. split; [|reflexivity]. unfold settleOverwrite.
    rewrite Hov. cbn [negb]. now rewrite andb_false_r.
  - assert (He : existing = []).
    { unfold existing. apply filter_none. intros nm Hnm. now apply Hfresh. }
    assert (Hn : new = resolved).
    { unfold new. apply forallb_filter_id, forallb_forall. intros nm Hnm.
      unfold dir. now rewrite (Hfresh nm Hnm). }
    exists (opt_overwrite options). split.
    + unfold settleOverwrite. rewrite He. reflexivity.
    + rewrite Hn. now destruct (opt_overwrite options).
Qed.

Lemma settle_keeps (w0 : World) :
  opt_overwrite options = false ->
  opt_yes options = true \/ overwriteAnswer answers = false ->
  exists settled msgs,
    settleOverwrite reg options answers existing new w0
    = (Ok settled, add_console w0 msgs)
    /\ (settled = None \/ settled = Some false).
Proof.
  intros Hov Hkeep. unfold settleOverwrite. rewrite Hov. cbn [negb].
  rewrite andb_true_r.
  destruct (negb (Nat.eqb (List.length existing) 0)).
  - assert (Hknown : forall nm, In nm existing -> lookup reg nm <> None).
    { intros nm Hnm. unfold existing in Hnm. apply filter_In in Hnm.
      apply (resolved_known reg _ nm (proj1 Hnm)). }
    rewrite (bind_Ok _ _ _ _ _ (mapM_displayName reg existing w0 Hknown)).
    rewrite (bind_Ok _ _ _ _ _ (print_eq _ _)).
    destruct (opt_yes options); cbn [negb].
    + exists (Some false). eexists. split; [reflexivity|]. now right.
    + destruct Hkeep as [Hy|Ha]; [discriminate|]. rewrite Ha. cbn [negb].
      destruct (Nat.eqb (List.length new) 0).
      * exists None. eexists. split; [|now left].
        rewrite (bind_Ok _ _ _ _ _ (print_eq _ _)), add_console_app.
        reflexivity.
      * exists (Some false). eexists. split; [reflexivity|]. now right.
  - exists (Some false), []. rewrite add_console_nil. split; [reflexivity|].
    now right.
Qed.

(** A run of [add] that copies all it resolved and meets no failure. *)
Lemma add_success :
  separate getComponentsSourceDir dir ->
  copiesAll reg config w options resolved ->
  resolved <> [] ->
  copyable getComponentsSourceDir dir w (filesOf reg resolved) ->
  exists w',
    add reg components options answers w = (Ok tt, w')
    /\ sameFilesExcept (map (path_join dir) (filesOf reg resolved)) w w'
    /\ manifest w'
       = Parsed (set_installed config
                   (withAll resolved (installedComponents config)))
    /\ In (AddedSuccessfully (List.length resolved)) (console w')
    /\ forall f, In f (filesOf reg resolved) ->
                 freshCopy w config f <> None
                 /\ disk_find (disk w') (path_join dir f) = freshCopy w config f.
Proof.
  intros Hsep Hall Hsome Hcopy.
  rewrite (add_unfold reg reg_hasFiles components options answers w config
             manifest_parsed).
  fold names. unfold addClosure in resolved. fold resolved. fold dir.
  fold existing. fold new.
  rewrite (names_of_resolved Hsome).
  set (w0 := add_console w (map Warned (resolveWarnings reg names))).
  destruct (settle_copies_all w0 Hall) as [overwrite [Hsettle Heq]].
  rewrite (bind_Ok _ _ _ _ _ Hsettle).
  pose proof (addSettled_success reg reg_hasFiles config names resolved
                existing new overwrite answers w0) as H.
  cbv zeta in H. rewrite Heq in H.
  destruct (H manifest_parsed Hsep
              (resolved_known reg names) Hsome Hcopy)
    as [w' (Hrun & Hs & Hm & Hmsg & Hd)].
  exists w'. split; [exact Hrun|]. split; [|split; [|split]].
  - eapply sameFilesExcept_trans; [|exact Hs]. apply sameFilesExcept_console.
  - exact Hm.
  - exact Hmsg.
  - exact Hd.
Qed.

(** The same without the message, also when nothing was resolved. *)
Lemma add_outcome :
  separate getComponentsSourceDir dir ->
  copiesAll reg config w options resolved ->
  copyable getComponentsSourceDir dir w (filesOf reg resolved) ->
  exists w',
    add reg components options answers w = (Ok tt, w')
    /\ sameFilesExcept (map (path_join dir) (filesOf reg resolved)) w w'
    /\ manifest w'
       = Parsed (set_installed config
                   (withAll resolved (installedComponents config)))
    /\ forall f, In f (filesOf reg resolved) ->
                 freshCopy w config f <> None
                 /\ disk_find (disk w') (path_join dir f) = freshCopy w config f.
Proof.
  intros Hsep Hall Hcopy.
  destruct (list_eq_dec string_dec resolved []) as [E|Hsome].
  - rewrite (add_unfold reg reg_hasFiles components options answers w config
               manifest_parsed).
    fold names. unfold addClosure in resolved. fold resolved. fold dir.
    fold existing. fold new. rewrite E.
    destruct (Nat.eqb (List.length names) 0).
    + rewrite print_eq. eexists. split; [reflexivity|].
      split; [apply sameFilesExcept_console|].
      split; [cbn; now rewrite set_installed_same|]. intros f [].
    + set (w0 := add_console w (map Warned (resolveWarnings reg names))).
      destruct (settle_copies_all w0 Hall) as [overwrite [Hsettle Heq]].
      rewrite (bind_Ok _ _ _ _ _ Hsettle).
      change (resolveComponentDependencies reg names) with resolved.
      fold existing. fold new.
      unfold addSettled. rewrite Heq, E.
      cbn [List.length Nat.eqb]. rewrite print_eq.
      eexists. split; [reflexivity|].
      split; [unfold sameFilesExcept; cbn; auto|].
      split; [cbn; now rewrite set_installed_same|]. intros f [].
  - destruct (add_success Hsep Hall Hsome Hcopy)
      as [w' (H1 & H2 & H3 & _ & H5)].
    exists w'. auto.
Qed.

End AddCommand.

(** ** A copy that fails *)

Lemma copy_file_fails (nm src dir utils f : string) (w : World) :
  disk_find (disk w) (path_join src f) = None
  \/ has (readOnly w) (path_join dir f) = true ->
  try_catch
    (content <- readFile (path_join src f) ;;
     let content := rewriteImports content utils in
     writeFile (path_join dir f) content ;;
     addInstalledComponent nm)
    (print (FailedToCopy f) ;; exit 1) w
  = (Exit 1, add_console w [FailedToCopy f]).
Proof.
  intros H. unfold try_catch, bind at 1, readFile.
  destruct (disk_find (disk w) (path_join src f)) as [c|] eqn:E.
  - destruct H as [H|H]; [discriminate|]. cbv zeta. unfold bind at 1.
    rewrite writeFile_eq, H. unfold bind. rewrite print_eq. reflexivity.
  - unfold bind. rewrite print_eq. reflexivity.
Qed.

Lemma registry_single_file (k : string) (def : ComponentDefinition) :
  lookup registry k = Some def -> exists f, files def = [f].
Proof.
  intros H. apply lookup_In in H.
  assert (F : forallb (fun e => Nat.eqb (List.length (files (snd e))) 1)
                registry = true) by (vm_compute; reflexivity).
  rewrite forallb_forall in F. specialize (F _ H). cbn [snd] in F.
  destruct (files def) as [|f [|g fs]]; try discriminate. now exists f.
Qed.

Lemma normalPath_separate (dir : string) :
  normalPath dir = true -> separate getComponentsSourceDir dir.
Proof.
  intros H f g E. unfold normalPath in H.
  destruct dir as [|c r]; [discriminate H|].
  unfold path_join, getComponentsSourceDir in E. cbn in E.
  injection E as Ec _. subst c. cbn in H. discriminate H.
Qed.

Section AddFailure.

Variable reg : Registry.
Hypothesis reg_hasFiles : hasFiles reg.
Variables (w : World) (config : DiamantConfig).
Hypothesis manifest_parsed : manifest w = Parsed config.
Variables (components : list string) (options : AddOptions)
  (answers : AddAnswers).

Let names := requestedNames reg components options answers.
Let resolved := addClosure reg components options answers.
Let dir := aliases_components config.
Let existing := filter (firstFilePresent reg dir (disk w)) resolved.
Let new :=
  filter (fun nm => negb (firstFilePresent reg dir (disk w) nm)) resolved.

Lemma settle_general (w0 : World) :
  componentsCopied reg config w options answers resolved <> [] ->
  exists overwrite msgs,
    settleOverwrite reg options answers existing new w0
    = (Ok (Some overwrite), add_console w0 msgs)
    /\ (if overwrite then resolved else new)
       = componentsCopied reg config w options answers resolved.
Proof.
  unfold componentsCopied. fold dir. fold existing. fold new.
  intros Hsome. unfold settleOverwrite.
  destruct (opt_overwrite options) eqn:Hov.
  - rewrite andb_false_r. exists true, []. rewrite add_console_nil.
    split; reflexivity.
  - cbn [negb orb] in *. rewrite andb_true_r.
    destruct (negb (Nat.eqb (List.length existing) 0)) eqn:He.
    + assert (Hknown : forall nm, In nm existing -> lookup reg nm <> None).
      { intros nm Hnm. unfold existing in Hnm. apply filter_In in Hnm.
        apply (resolved_known reg _ nm (proj1 Hnm)). }
      rewrite (bind_Ok _ _ _ _ _ (mapM_displayName reg existing w0 Hknown)).
      rewrite (bind_Ok _ _ _ _ _ (print_eq _ _)).
      cbn [andb] in *.
      destruct (opt_yes options); cbn [negb andb] in *.
      * exists false. eexists. split; reflexivity.
      * destruct (overwriteAnswer answers); cbn [negb] in *.
        -- exists true. eexists. split; reflexivity.
        -- destruct (Nat.eqb (List.length new) 0) eqn:En.
           ++ exfalso. apply Hsome. destruct new; [reflexivity|discriminate].
           ++ exists false. eexists. split; reflexivity.
    + cbn [andb] in *. exists false, []. rewrite add_console_nil.
      split; reflexivity.
Qed.

(** [add] when the first file of [c] cannot be copied, the components
    before [c] meeting no failure. *)
Lemma add_copy_fails (before after : list string) (c f : string)
  (def : ComponentDefinition) :
  separate getComponentsSourceDir dir ->
  componentsCopied reg config w options answers resolved
  = before ++ c :: after ->
  copyable getComponentsSourceDir dir w (filesOf reg before) ->
  lookup reg c = Some def -> hd_error (files def) = Some f ->
  disk_find (disk w) (path_join getComponentsSourceDir f) = None
  \/ has (readOnly w) (path_join dir f) = true ->
  exists w',
    add reg components options answers w = (Exit 1, w')
    /\ In (FailedToCopy f) (console w')
    /\ sameFilesExcept (map (path_join dir) (filesOf reg before)) w w'
    /\ manifest w'
       = Parsed (set_installed config
                   (withAll before (installedComponents config)))
    /\ forall g, In g (filesOf reg before) ->
                 freshCopy w config g <> None
                 /\ disk_find (disk w') (path_join dir g) = freshCopy w config g.
Proof.
  intros Hsep Heq Hcopy Hl Hf Hfail.
  assert (Hcopied : componentsCopied reg config w options answers resolved
                    <> []).
  { rewrite Heq. destruct before; discriminate. }
  assert (Hsub : forall nm,
             In nm (componentsCopied reg config w options answers resolved) ->
             In nm resolved).
  { unfold componentsCopied. intros nm.
    match goal with |- context [if ?b then _ else _] => destruct b end;
      [auto|]. intros H. apply filter_In in H. tauto. }
  assert (Hsome : resolved <> []).
  { intros E. apply Hcopied. unfold componentsCopied. rewrite E.
    match goal with |- context [if ?b then _ else _] => destruct b end;
      reflexivity. }
  assert (Hknown : forall nm, In nm before -> lookup reg nm <> None).
  { intros nm Hnm. apply (resolved_known reg names nm).
    apply Hsub. rewrite Heq. apply in_or_app. now left. }
  rewrite (add_unfold reg reg_hasFiles components options answers w config
             manifest_parsed).
  fold names. unfold addClosure in resolved. fold resolved. fold dir.
  fold existing. fold new.
  pose proof (names_of_resolved reg components options answers Hsome) as Hn.
  fold names in Hn. rewrite Hn. clear Hn.
  set (w0 := add_console w (map Warned (resolveWarnings reg names))).
  destruct (settle_general w0 Hcopied) as [overwrite [msgs0 [Hsettle Heq2]]].
  rewrite (bind_Ok _ _ _ _ _ Hsettle).
  set (w0' := add_console w0 msgs0).
  pose proof (addSettled_unfold reg config names resolved existing new
                overwrite answers w0') as H.
  cbv zeta in H.
  assert (Hknown2 : forall nm,
             In nm (if overwrite then resolved else new) ->
             lookup reg nm <> None).
  { rewrite Heq2. intros nm Hnm. apply (resolved_known reg names nm).
    now apply Hsub. }
  assert (Hsome2 : (if overwrite then resolved else new) <> [])
    by now rewrite Heq2.
  destruct (H Hknown2 Hsome2) as [msgs Hrun].
  change (resolveComponentDependencies reg names) with resolved.
  fold existing. fold new.
  rewrite Hrun. clear H Hrun. rewrite Heq2, Heq.
  set (w1 := add_console w0' msgs).
  destruct (copy_loop_success reg getComponentsSourceDir dir
              (importPathOf w0' config) before reg_hasFiles Hsep Hknown w1
              config manifest_parsed Hcopy)
    as [w2 (Hb & Hs & Hc & Hm2 & Hd)].
  assert (Hfail2 : disk_find (disk w2) (path_join getComponentsSourceDir f)
                   = None
                   \/ has (readOnly w2) (path_join dir f) = true).
  { destruct Hs as (Hro & _ & Hdisk). rewrite Hro, Hdisk; [exact Hfail|].
    intros Hin. apply in_map_iff in Hin. destruct Hin as [g [Hg _]].
    exact (Hsep f g (eq_sym Hg)). }
  assert (Hloop : forEach (before ++ c :: after)
                    (copyComponent reg dir getComponentsSourceDir
                       (importPathOf w0' config)) w1
                  = (Exit 1, add_console w2 [FailedToCopy f])).
  { rewrite forEach_app, (bind_Ok _ _ _ _ _ Hb).
    cbn [forEach]. apply bind_Exit. unfold copyComponent. rewrite Hl.
    destruct (files def) as [|f0 rest]; [discriminate|]. injection Hf as ->.
    cbn [forEach]. apply bind_Exit. now apply copy_file_fails. }
  exists (add_console w2 [FailedToCopy f]).
  split; [exact (bind_Exit _ _ _ _ _ Hloop)|].
  split; [cbn [console add_console]; apply in_or_app; right; now left|].
  split; [|split].
  - destruct Hs as (A & B & C). repeat split; [exact A | exact B | exact C].
  - exact Hm2.
  - intros g Hg. unfold freshCopy. destruct (Hcopy g Hg) as [Hsrc _].
    destruct (disk_find (disk w) (path_join getComponentsSourceDir g))
      as [c0|] eqn:Ec; [|contradiction].
    split; [discriminate|]. cbn [disk add_console].
    apply (Hd g c0 Hg). exact Ec.
Qed.

End AddFailure.


Lemma buttonReadOnly_copyable :
  copyable getComponentsSourceDir "src/components/ui" buttonReadOnly
    (filesOf registry ["carousel"]).
Proof.
  intros g Hg. vm_compute in Hg. destruct Hg as [<-|[]].
  split; [vm_compute; discriminate | reflexivity].
Qed.


Lemma checked_after_add (reg : Registry) (w w' : World)
  (config : DiamantConfig) (names : list string) :
  separate getComponentsSourceDir (aliases_components config) ->
  sameFilesExcept
    (map (path_join (aliases_components config))
       (filesOf reg (resolveComponentDependencies reg names))) w w' ->
  (forall f,
      In f (filesOf reg (resolveComponentDependencies reg names)) ->
      freshCopy w config f <> None
      /\ disk_find (disk w') (path_join (aliases_components config) f)
         = freshCopy w config f) ->
  forall nm e,
    In nm names ->
    In e (checkLine reg (aliases_components config) getComponentsSourceDir
            (importPathOf w config) (disk w') nm) ->
    snd e = false.
Proof.
  intros Hsep (_ & _ & Hd) Hfresh nm e Hnm He.
  unfold checkLine in He.
  destruct (lookup reg (toLowerCase nm)) as [def|] eqn:E; [|destruct He].
  destruct (files def) as [|f fs] eqn:Ef; [destruct He|].
  assert (Hin : In f (filesOf reg (resolveComponentDependencies reg names))).
  { apply (filesOf_In reg _ (toLowerCase nm) f def); auto.
    - apply resolve_contains_requested; [assumption|congruence].
    - rewrite Ef. now left. }
  destruct (Hfresh f Hin) as [Hsome Hlocal].
  assert (Hsrc : disk_find (disk w') (path_join getComponentsSourceDir f)
                 = disk_find (disk w) (path_join getComponentsSourceDir f)).
  { apply Hd. intros H. apply in_map_iff in H. destruct H as [g [Hg _]].
    exact (Hsep f g (eq_sym Hg)). }
  rewrite Hlocal, Hsrc in He. unfold freshCopy in *.
  destruct (disk_find (disk w) (path_join getComponentsSourceDir f)) as [c|];
    [|contradiction].
  destruct He as [<-|[]]. cbn [snd]. apply differs_same.
Qed.

(** X18.  [add] installs the dependency closure of what was asked for.
    Take a request without inherited property names (neither asked for nor
    listed as a dependency in the registry), in a project whose components
    directory is given in normal form.  When [--overwrite] is given or none
    of the resolved components has its first file on disk, and every file
    of the resolved components has its template and can be written, [add]
    ends normally, reports the number of components added,
    every file of the resolved components holds its rewritten template, and
    the manifest lists exactly what it listed before together with the
    resolved components, still sorted and without duplicates if it was. *)
Theorem add_installs_the_closure (reg : Registry) (components : list string)
  (options : AddOptions) (answers : AddAnswers) (w : World)
  (config : DiamantConfig) :
  hasFiles reg -> manifest w = Parsed config ->
  plainNames (requestedNames reg components options answers) = true ->
  plainDependencies reg = true ->
  normalPath (aliases_components config) = true ->
  copiesAll reg config w options (addClosure reg components options answers) ->
  addClosure reg components options answers <> [] ->
  copyable getComponentsSourceDir (aliases_components config) w
    (filesOf reg (addClosure reg components options answers)) ->
  exists w' installed',
    add reg components options answers w = (Ok tt, w')
    /\ In (AddedSuccessfully
             (List.length (addClosure reg components options answers)))
          (console w')
    /\ (forall f,
          In f (filesOf reg (addClosure reg components options answers)) ->
          freshCopy w config f <> None
          /\ disk_find (disk w') (path_join (aliases_components config) f)
             = freshCopy w config f)
    /\ manifest w' = Parsed (set_installed config installed')
    /\ (forall id,
          In id installed'
          <-> In id (installedComponents config)
              \/ In id (addClosure reg components options answers))
    /\ (validList (installedComponents config) -> validList installed').
Proof.
  intros Hfiles Hm _ _ Hnormal Hall Hsome Hcopy.
  pose proof (normalPath_separate _ Hnormal) as Hsep.
  destruct (add_success reg Hfiles w config Hm components options answers
              Hsep Hall Hsome Hcopy) as [w' (Hrun & _ & Hm' & Hmsg & Hd)].
  exists w', (withAll (addClosure reg components options answers)
                (installedComponents config)).
  split; [exact Hrun|]. split; [exact Hmsg|]. split; [exact Hd|].
  split; [exact Hm'|]. split.
  - intros id. apply withAll_In.
  - apply withAll_valid.
Qed.

Lemma freshProject_copyable :
  copyable getComponentsSourceDir "src/components/ui" freshProject
    (filesOf registry
       (addClosure registry ["carousel"] (mkAddOptions false false false)
          (mkAddAnswers [] false true))).
Proof.
  intros f Hf. vm_compute in Hf. destruct Hf as [<-|[<-|[]]];
    (split; [vm_compute; discriminate | reflexivity]).
Qed.

Lemma freshProject_copiesAll :
  copiesAll registry (sampleConfig []) freshProject
    (mkAddOptions false false false)
    (addClosure registry ["carousel"] (mkAddOptions false false false)
       (mkAddAnswers [] false true)).
Proof.
  right. intros nm Hnm. vm_compute in Hnm.
  destruct Hnm as [<-|[<-|[]]]; reflexivity.
Qed.

Lemma add_installs_the_closure_witness :
  exists w',
    add registry ["carousel"] (mkAddOptions false false false)
      (mkAddAnswers [] false true) freshProject = (Ok tt, w')
    /\ disk_find (disk w') "src/components/ui/Button.tsx"
       = freshCopy freshProject (sampleConfig []) "Button.tsx".
Proof.
  destruct (add_installs_the_closure registry ["carousel"]
              (mkAddOptions false false false) (mkAddAnswers [] false true)
              freshProject (sampleConfig []) registry_hasFiles eq_refl
              eq_refl registry_plainDependencies eq_refl
              freshProject_copiesAll
              ltac:(vm_compute; discriminate) freshProject_copyable)
    as [w' [installed' (H1 & _ & H3 & _)]].
  exists w'. split; [exact H1|].
  apply (H3 "Button.tsx"). vm_compute. right. now left.
Defined.

(** X19.  Without [--overwrite], and with [--yes] or a negative answer to
    the overwrite question, [add] leaves the files of every component whose
    first file is already on disk as they are, whatever else happens during
    the command. *)
Theorem add_keeps_existing_without_overwrite (components : list string)
  (options : AddOptions) (answers : AddAnswers) (w : World)
  (config : DiamantConfig) (nm f : string) (def : ComponentDefinition) :
  manifest w = Parsed config ->
  opt_overwrite options = false ->
  opt_yes options = true \/ overwriteAnswer answers = false ->
  lookup registry nm = Some def ->
  firstFilePresent registry (aliases_components config) (disk w) nm = true ->
  In f (files def) ->
  disk_find (disk (snd (add registry components options answers w)))
    (path_join (aliases_components config) f)
  = disk_find (disk w) (path_join (aliases_components config) f).
Proof.
  intros Hm Hov Hkeep Hl Hpresent Hf.
  rewrite (add_unfold registry registry_hasFiles components options answers w
             config Hm).
  cbv zeta.
  destruct (Nat.eqb
              (List.length (requestedNames registry components options answers))
              0); [reflexivity|].
  set (names := requestedNames registry components options answers).
  set (w0 := add_console w (map Warned (resolveWarnings registry names))).
  destruct (settle_keeps registry w config components options answers w0
              Hov Hkeep) as [settled [msgs [Hsettle Hs]]].
  unfold addClosure in Hsettle. fold names in Hsettle.
  rewrite (bind_Ok _ _ _ _ _ Hsettle).
  destruct Hs as [-> | ->]; [reflexivity|].
  set (new := filter
                (fun x => negb (firstFilePresent registry
                                  (aliases_components config) (disk w) x))
                (resolveComponentDependencies registry names)).
  pose proof (addSettled_frame registry config names
                (resolveComponentDependencies registry names)
                (filter (firstFilePresent registry (aliases_components config)
                           (disk w))
                   (resolveComponentDependencies registry names))
                new false answers (add_console w0 msgs)) as Hframe.
  cbv zeta in Hframe.
  assert (Hknown : forall x, In x new -> lookup registry x <> None).
  { intros x Hx. unfold new in Hx. apply filter_In in Hx.
    apply (resolved_known registry names x (proj1 Hx)). }
  destruct (Hframe Hknown) as (_ & _ & Hd). rewrite Hd; [reflexivity|].
  intros Hin. apply in_map_iff in Hin. destruct Hin as [g [Hg Hin]].
  apply path_join_inj in Hg. subst g.
  unfold filesOf in Hin. apply in_flat_map in Hin.
  destruct Hin as [nm' [Hnm' Hin]].
  destruct (lookup registry nm') as [def'|] eqn:E'; [|destruct Hin].
  assert (nm' = nm) by exact (registry_file_owner nm' nm f def' def E' Hl Hin Hf).
  subst nm'. unfold new in Hnm'. apply filter_In in Hnm'.
  destruct Hnm' as [_ Hneg]. rewrite Hpresent in Hneg. discriminate.
Qed.

Lemma add_keeps_existing_without_overwrite_witness :
  disk_find
    (disk (snd (add registry ["carousel"] (mkAddOptions true false false)
                  (mkAddAnswers [] true true) editedButton)))
    "src/components/ui/Button.tsx"
  = Some "edited".
Proof.
  exact (add_keeps_existing_without_overwrite ["carousel"]
           (mkAddOptions true false false) (mkAddAnswers [] true true)
           editedButton (sampleConfig ["button"]) "button" "Button.tsx"
           (mkComponent "Button"
              "A clickable button with multiple variants and ripple effect"
              [] [] ["Button.tsx"])
           eq_refl eq_refl (or_introl eq_refl) eq_refl eq_refl
           (or_introl eq_refl)).
Defined.

(** X20.  What [add] has just installed is up to date.  Under the conditions
    of X18, with the components given as arguments, an [update] of the same
    components right after [add] finds nothing to do: it only says that all
    components are up to date. *)
Theorem add_then_update_finds_nothing (reg : Registry)
  (components : list string) (options : AddOptions) (answers : AddAnswers)
  (yes answer : bool) (w : World) (config : DiamantConfig) :
  hasFiles reg -> manifest w = Parsed config ->
  plainNames components = true -> plainDependencies reg = true ->
  normalPath (aliases_components config) = true ->
  opt_all options = false -> components <> [] ->
  copiesAll reg config w options (addClosure reg components options answers) ->
  copyable getComponentsSourceDir (aliases_components config) w
    (filesOf reg (addClosure reg components options answers)) ->
  exists w',
    add reg components options answers w = (Ok tt, w')
    /\ update reg components yes answer w'
       = (Ok tt, add_console w' [AllUpToDate]).
Proof.
  intros Hfiles Hm _ _ Hnormal Hall Hcomps Hcopies Hcopy.
  pose proof (normalPath_separate _ Hnormal) as Hsep.
  destruct (add_outcome reg Hfiles w config Hm components options answers
              Hsep Hcopies Hcopy) as [w' (Hrun & Hs & Hm' & Hd)].
  exists w'. split; [exact Hrun|].
  assert (Hlen : Nat.eqb (List.length components) 0 = false).
  { destruct components; [contradiction | reflexivity]. }
  assert (Hnames : addClosure reg components options answers
                   = resolveComponentDependencies reg components).
  { unfold addClosure, requestedNames. now rewrite Hall, Hlen. }
  rewrite Hnames in *.
  rewrite (update_unfold reg Hfiles w' _ Hm' components yes answer).
  unfold updateList. rewrite Hlen.
  assert (Hpath : importPathOf w'
                    (set_installed config
                       (withAll (resolveComponentDependencies reg components)
                          (installedComponents config)))
                  = importPathOf w config).
  { unfold importPathOf. destruct Hs as (_ & Hpt & _). now rewrite Hpt. }
  rewrite Hpath.
  change (aliases_components
            (set_installed config
               (withAll (resolveComponentDependencies reg components)
                  (installedComponents config))))
    with (aliases_components config).
  assert (Hnone : filter snd
                    (flat_map
                       (checkLine reg (aliases_components config)
                          getComponentsSourceDir (importPathOf w config)
                          (disk w')) components) = []).
  { apply filter_none. intros e He. apply in_flat_map in He.
    destruct He as [nm [Hnm He]].
    exact (checked_after_add reg w w' config components Hsep Hs Hd nm e
             Hnm He). }
  rewrite Hnone, Hlen. reflexivity.
Qed.

Lemma add_then_update_finds_nothing_witness :
  exists w',
    add registry ["carousel"] (mkAddOptions false false false)
      (mkAddAnswers [] false true) freshProject = (Ok tt, w')
    /\ update registry ["carousel"] false false w'
       = (Ok tt, add_console w' [AllUpToDate]).
Proof.
  exact (add_then_update_finds_nothing registry ["carousel"]
           (mkAddOptions false false false) (mkAddAnswers [] false true)
           false false freshProject (sampleConfig []) registry_hasFiles eq_refl
           eq_refl registry_plainDependencies eq_refl eq_refl
           ltac:(discriminate) freshProject_copiesAll freshProject_copyable).
Defined.

(** ** Files that do not import the utilities *)

Lemma replaceFrom_noUtilsImport (replacement s before : string) :
  noUtilsImport s = true -> replaceFrom replacement before s 0 = s.
Proof.
  revert before. induction s as [|c r IH]; intros before H.
  - reflexivity.
  - cbn [noUtilsImport] in H. cbn [replaceFrom].
    destruct (matchImport (String c r)); [discriminate|].
    now rewrite IH.
Qed.

(** X21.  A template in which no import of [../../lib/utils] occurs is
    copied as it is, whatever the import path computed for the project. *)
Theorem rewriteImports_without_import (content utilsImportPath : string) :
  noUtilsImport content = true ->
  rewriteImports content utilsImportPath = content.
Proof.
  intros H. unfold rewriteImports. now apply replaceFrom_noUtilsImport.
Qed.

Lemma rewriteImports_without_import_witness :
  rewriteImports "import * as React from 'react'; export {}" "@/lib/utils"
  = "import * as React from 'react'; export {}".
Proof.
  apply (rewriteImports_without_import
           "import * as React from 'react'; export {}" "@/lib/utils").
  vm_compute. reflexivity.
Defined.

(** ** The [list] command *)

Section ListCommand.

Variable reg : Registry.

Lemma key_known (k : string) :
  In k (getAllComponentNames reg) -> lookup reg k <> None.
Proof.
  unfold getAllComponentNames. rewrite in_map_iff.
  intros [[k' d] [<- Hin]]. eapply In_lookup, Hin.
Qed.

Lemma listItems (installed ks : list string) (w : World) :
  (forall k, In k ks -> lookup reg k <> None) ->
  mapM (listItem reg installed) ks w = (Ok (map (itemOf reg installed) ks), w).
Proof.
  induction ks as [|k ks IH]; intros H; [reflexivity|].
  assert (Hk : listItem reg installed k w = (Ok (itemOf reg installed k), w)).
  { unfold listItem, itemOf.
    destruct (lookup reg k) eqn:E; [reflexivity|].
    exfalso. apply (H k); [now left | assumption]. }
  cbn [mapM map]. rewrite (bind_Ok _ _ _ _ _ Hk).
  rewrite (bind_Ok _ _ _ _ _ (IH (fun x Hx => H x (or_intror Hx)))).
  reflexivity.
Qed.

Lemma list_cmd_spec (installedOnly : bool) (w : World) :
  let installed := manifestList w in
  let shown :=
    if installedOnly then filter (has installed) (getAllComponentNames reg)
    else getAllComponentNames reg in
  list_cmd reg installedOnly w
  = (Ok (if Nat.eqb (List.length shown) 0
         then if installedOnly then [NoComponentsInstalledYet; RunAddHint]
              else [NoComponentsAvailable]
         else ListHeader installedOnly :: map (itemOf reg installed) shown
              ++ (if negb installedOnly
                  then [InstalledCount (List.length installed)
                          (List.length (getAllComponentNames reg)); Legend]
                  else [])
              ++ [Usage]), w).
Proof.
  intros installed shown. unfold list_cmd.
  assert (Hread :
            (if match manifest w with Absent => false | _ => true end
             then
               config <- readConfig ;;
               match config with
               | Some c => ret (installedComponents c)
               | None => ret []
               end
             else ret []) w = (Ok installed, w)).
  { unfold installed, manifestList, bind, readConfig, ret.
    destruct (manifest w) eqn:Hm; cbv beta iota; try rewrite Hm; reflexivity. }
  unfold bind at 1. unfold configExists at 1. cbv beta iota.
  rewrite (bind_Ok _ _ _ _ _ Hread). cbv zeta. fold shown.
  destruct (Nat.eqb (List.length shown) 0); [reflexivity|].
  assert (Hknown : forall k, In k shown -> lookup reg k <> None).
  { intros k Hk. apply key_known. unfold shown in Hk.
    destruct installedOnly; [apply filter_In in Hk; tauto | assumption]. }
  rewrite (bind_Ok _ _ _ _ _ (listItems installed shown w Hknown)).
  reflexivity.
Qed.

End ListCommand.

(** X22.  [list] needs no manifest.  Where the other commands stop with
    exit code 1, [list] ends normally on a project whose manifest is absent
    or unreadable: without [--installed] it shows every component of the
    registry as not installed, with the count 0; with [--installed] it says
    that nothing is installed. *)
Theorem list_needs_no_manifest (reg : Registry) (installedOnly : bool)
  (w : World) :
  fst (readConfig w) = Ok None ->
  list_cmd reg installedOnly w
  = (Ok (if installedOnly then [NoComponentsInstalledYet; RunAddHint]
         else if Nat.eqb (List.length reg) 0 then [NoComponentsAvailable]
              else ListHeader false
                   :: map (itemOf reg []) (getAllComponentNames reg)
                   ++ [InstalledCount 0 (List.length reg); Legend; Usage]),
     w).
Proof.
  intros Hnull. rewrite list_cmd_spec.
  assert (Hl : manifestList w = []).
  { unfold manifestList. unfold readConfig in Hnull. cbn in Hnull.
    destruct (manifest w); try reflexivity. discriminate. }
  rewrite Hl. cbv zeta. destruct installedOnly.
  - rewrite filter_none; [reflexivity|]. intros k _. reflexivity.
  - unfold getAllComponentNames at 1 3. rewrite !length_map. reflexivity.
Qed.

Lemma list_needs_no_manifest_witness :
  exists items,
    list_cmd registry false (mkWorld Absent [] [] unknown [] [])
    = (Ok (ListHeader false :: items
           ++ [InstalledCount 0 (List.length registry); Legend; Usage]),
       mkWorld Absent [] [] unknown [] []).
Proof.
  eexists.
  exact (list_needs_no_manifest registry false
           (mkWorld Absent [] [] unknown [] []) eq_refl).
Defined.

(** X23.  The count of [list] agrees with what it marks.  When the registry
    keys are distinct and the manifest lists distinct registry keys, the
    number before the slash is the number of components shown as
    installed.  (The code prints the length of the manifest's list.) *)
Theorem list_count_is_the_marked_items (reg : Registry) (w : World) :
  reg <> [] ->
  NoDup (getAllComponentNames reg) ->
  NoDup (manifestList w) ->
  (forall id, In id (manifestList w) -> In id (getAllComponentNames reg)) ->
  exists report,
    list_cmd reg false w = (Ok report, w)
    /\ In (InstalledCount (List.length (filter marked report))
             (List.length reg)) report.
Proof.
  intros Hreg Hkeys Hnd Hsub. rewrite list_cmd_spec. cbv zeta.
  destruct (Nat.eqb (List.length (getAllComponentNames reg)) 0) eqn:E.
  { exfalso. apply Hreg. destruct reg; [reflexivity | discriminate]. }
  eexists. split; [reflexivity|].
  assert (Hcount : List.length
                     (filter marked
                        (map (itemOf reg (manifestList w))
                           (getAllComponentNames reg)))
                   = List.length (manifestList w)).
  { assert (Hf : forall ks,
               (forall k, In k ks -> lookup reg k <> None) ->
               List.length
                 (filter marked (map (itemOf reg (manifestList w)) ks))
               = List.length (filter (has (manifestList w)) ks)).
    { induction ks as [|k ks IH]; intros Hk; [reflexivity|].
      cbn [map filter]. unfold itemOf at 1.
      destruct (lookup reg k) eqn:El;
        [|exfalso; apply (Hk k); [now left | assumption]].
      cbn [marked].
      destruct (has (manifestList w) k); cbn [List.length];
        rewrite IH; auto; intros x Hx; apply Hk; now right. }
    rewrite Hf by apply key_known.
    apply Permutation_length, NoDup_Permutation.
    - now apply NoDup_filter.
    - assumption.
    - intros x. rewrite filter_In, has_In. split; [tauto|].
      intros Hx. split; [now apply Hsub | assumption]. }
  cbn [negb filter marked]. rewrite filter_app. cbn [filter marked].
  rewrite app_nil_r, Hcount.
  unfold getAllComponentNames at 2. rewrite length_map.
  right. apply in_or_app. right. now left.
Qed.

Lemma list_count_is_the_marked_items_witness :
  exists report,
    list_cmd registry false (sampleWorld ["button"; "card"] [])
    = (Ok report, sampleWorld ["button"; "card"] [])
    /\ In (InstalledCount (List.length (filter marked report))
             (List.length registry)) report.
Proof.
  apply (list_count_is_the_marked_items registry
           (sampleWorld ["button"; "card"] [])).
  - discriminate.
  - exact registry_keys_NoDup.
  - repeat constructor; simpl; intuition discriminate.
  - intros id [<-|[<-|[]]]; vm_compute; tauto.
Defined.

(** X24.  [list --installed] shows nothing but installed components: every
    component line is marked as installed and is the entry of a registry
    key that the manifest lists. *)
Theorem list_installed_shows_only_installed (reg : Registry) (w : World) :
  exists report,
    list_cmd reg true w = (Ok report, w)
    /\ forall isInstalled display description,
         In (ListItem isInstalled display description) report ->
         isInstalled = true
         /\ exists k def,
              In k (manifestList w) /\ lookup reg k = Some def
              /\ name def = display.
Proof.
  rewrite list_cmd_spec. cbv zeta. eexists. split; [reflexivity|].
  intros b d desc Hin.
  destruct (Nat.eqb
              (List.length
                 (filter (has (manifestList w)) (getAllComponentNames reg)))
              0).
  - destruct Hin as [H|[H|[]]]; discriminate.
  - destruct Hin as [H|Hin]; [discriminate|].
    apply in_app_or in Hin. destruct Hin as [Hin|Hin].
    + apply in_map_iff in Hin. destruct Hin as [k [Hitem Hk]].
      apply filter_In in Hk. destruct Hk as [Hkey Hhas].
      unfold itemOf in Hitem.
      destruct (lookup reg k) as [def|] eqn:E.
      * injection Hitem as <- <- <-. split; [assumption|].
        exists k, def. rewrite <- has_In. auto.
      * exfalso. exact (key_known reg k Hkey E).
    + cbn in Hin. destruct Hin as [H|[]]. discriminate.
Qed.
